(** * terraform-provider-ssm: the command-orchestration path of package awstools

    A shallow embedding of [waitForTargetInstances], [waitForCommandInvocations],
    [printCommandOutput], [RunCommand] and [GetCommand], and the properties of
    the polling protocol, the filter builder and the output chunking.

    Conventions.
    - A Go [string] is a byte string: [String.string], whose characters are
      8-bit [ascii] values.  [len] is [String.length].
    - A Go [int] is a [Z].  The only arithmetic performed on one is a division
      by a positive constant, a comparison, and counting the elements of
      slices held in memory, so no operation of the embedded code can leave
      the 64-bit range and no wrap-around is written.
    - A pointer [*T] is an [option T]; dereferencing [None] panics.
    - An [error] is its message; the nil error is [None].
    - The AWS services are an environment [Env] of oracles.  Each oracle
      receives the history of events so far, so a service may answer each
      call differently.
    - Calls, log lines and sleeps are events; a computation yields the
      events it emitted, in order. *)

From Stdlib Require Import ZArith List String Ascii Bool Lia DecimalString.
Import ListNotations.

Open Scope string_scope.
Open Scope list_scope.
Open Scope Z_scope.

(** ** Package-level constants *)

Definition ec2FilterInstanceId : string := "instance-id".
Definition ec2FilterInstanceStateName : string := "instance-state-name".
Definition ssmTargetInstanceIds : string := "InstanceIds".
Definition sendTimeout : Z := 600.
Definition waitTimeout : Z := 600.
Definition sleepTime : Z := 10.
Definition maxLogMsgSize : Z := 65536.

(** [ssmtypes.PingStatusOnline] of the AWS SDK. *)
Definition PingStatusOnline : string := "Online".

(** ** Data model (the fields of the SDK structs that the code reads) *)

Definition error := string.

Module ec2types.
Record Filter := { Name : option string; Values : list string }.
Record Instance := { InstanceId : option string }.
Record Reservation := { Instances : list Instance }.
End ec2types.

Module ssmtypes.
Record Target := { Key : option string; Values : list string }.
Record InstanceInformationStringFilter :=
  { FKey : option string; FValues : list string }.
Record InstanceInformation :=
  { InstanceId : option string; PingStatus : string }.
Record CommandInvocation :=
  { InvInstanceId : option string; Status : string }.
Record Command :=
  { CommandId : option string;
    DocumentName : option string;
    Comment : option string;
    CmdStatus : string }.
(** The zero value [ssmtypes.Command{}]. *)
Definition zeroCommand : Command :=
  {| CommandId := None; DocumentName := None; Comment := None;
     CmdStatus := "" |}.
End ssmtypes.

Record DescribeInstancesOutput :=
  { Reservations : list ec2types.Reservation }.

Record DescribeInstanceInformationOutput :=
  { InstanceInformationList : list ssmtypes.InstanceInformation }.

Record ListCommandInvocationsOutput :=
  { CommandInvocations : list ssmtypes.CommandInvocation }.

Record SendCommandInput :=
  { Targets : list ssmtypes.Target;
    InDocumentName : option string;
    Parameters : list (string * list string);
    InComment : option string;
    TimeoutSeconds : option Z;
    OutputS3BucketName : option string;
    OutputS3KeyPrefix : option string }.

Record SendCommandOutput := { OutCommand : option ssmtypes.Command }.

Record ListCommandsOutput := { Commands : list ssmtypes.Command }.

Record GetBucketLocationOutput := { LocationConstraint : string }.

Record S3Object := { ObjKey : option string }.

Record ListObjectsV2Output := { Contents : list S3Object }.

(** [Body] is what [io.ReadAll] makes of the object's body. *)
Record GetObjectOutput := { Body : error + string }.

(** ** Events and the environment *)

Inductive Event : Type :=
| LogInfo (msg : string)
| LogError (msg : string)
| Sleep (seconds : Z)
| CallDescribeInstances (filters : list ec2types.Filter)
| CallDescribeInstanceInformation
    (filters : list ssmtypes.InstanceInformationStringFilter)
| CallListCommandInvocations (commandId : string)
| CallSendCommand (input : SendCommandInput)
| CallListCommands (commandId : string)
| CallGetBucketLocation (bucket : option string)
| CallLoadDefaultConfig
| CallListObjectsV2 (region : string) (bucket : option string)
    (maxKeys : Z) (prefix : string)
| CallGetObject (region : string) (bucket : option string)
    (key : option string).

Definition Trace := list Event.

Record Env := {
  ec2_DescribeInstances :
    Trace -> list ec2types.Filter -> error + DescribeInstancesOutput;
  ssm_DescribeInstanceInformation :
    Trace -> list ssmtypes.InstanceInformationStringFilter ->
    error + DescribeInstanceInformationOutput;
  ssm_ListCommandInvocations :
    Trace -> string -> error + ListCommandInvocationsOutput;
  ssm_SendCommand : Trace -> SendCommandInput -> error + SendCommandOutput;
  ssm_ListCommands : Trace -> string -> error + ListCommandsOutput;
  s3_GetBucketLocation :
    Trace -> option string -> error + GetBucketLocationOutput;
  config_LoadDefaultConfig : Trace -> option error;
  s3_ListObjectsV2 :
    Trace -> string -> option string -> Z -> string ->
    error + ListObjectsV2Output;
  s3_GetObject :
    Trace -> string -> option string -> option string ->
    error + GetObjectOutput
}.

(** ** A monad of computations that read the history and emit events

    A computation receives the history (the events before it started) and
    yields its result together with the events it emitted itself. *)

Inductive Res (A : Type) : Type :=
| Val (a : A)
| Panic.
Arguments Val {A} a.
Arguments Panic {A}.

Definition M (A : Type) : Type := Trace -> Res A * Trace.

Definition ret {A} (a : A) : M A := fun _ => (Val a, []).

Definition bind {A B} (m : M A) (k : A -> M B) : M B :=
  fun h =>
    match m h with
    | (Val a, e1) =>
        match k a (h ++ e1) with
        | (r, e2) => (r, e1 ++ e2)
        end
    | (Panic, e1) => (Panic, e1)
    end.

Definition panic {A} : M A := fun _ => (Panic, []).

Definition emit (e : Event) : M unit := fun _ => (Val tt, [e]).

(** [call e f]: the call [e] is recorded and answered from the history. *)
Definition call {A} (e : Event) (f : Trace -> A) : M A :=
  fun h => (Val (f h), [e]).

(** [*p] *)
Definition deref {A} (p : option A) : M A :=
  match p with
  | Some a => ret a
  | None => panic
  end.

Declare Scope go_scope.
Delimit Scope go_scope with go.
Notation "x <- c ;; k" := (bind c (fun x => k))
  (at level 100, c at next level, right associativity) : go_scope.
Notation "c ;; k" := (bind c (fun _ => k))
  (at level 100, right associativity) : go_scope.
Open Scope go_scope.

(** What a loop body tells its loop: go on with the next iteration
    ([continue], or falling off the end of the body), or leave the
    function with a value ([return]). *)
Inductive Ctl (R : Type) : Type :=
| Next
| Return (r : R).
Arguments Next {R}.
Arguments Return {R} r.

(** [for i := 0; i < n; i++ { body }; after], for a body that does not
    read [i]; [count] is the number of values of [i] below [n]. *)
Fixpoint forLoop {R} (count : nat) (body : M (Ctl R)) (after : M R) : M R :=
  match count with
  | O => after
  | S k =>
      c <- body ;;
      match c with
      | Next => forLoop k body after
      | Return r => ret r
      end
  end.

(** [for i := from; i < from + count; i++ { body i }]. *)
Fixpoint forRange (count : nat) (i : Z) (body : Z -> M unit) : M unit :=
  match count with
  | O => ret tt
  | S k => body i ;; forRange k (i + 1) body
  end.

(** Number of iterations of [for i := 0; i < bound; i++]. *)
Definition iterations (bound : Z) : nat := Z.to_nat bound.

(** [timeout / sleepTime]: Go's integer division truncates toward zero. *)
Definition attempts (timeout : Z) : nat :=
  iterations (Z.quot timeout sleepTime).

(** ** Strings *)

Definition len (s : string) : Z := Z.of_nat (String.length s).

(** [%d] *)
Definition itoa (z : Z) : string := NilZero.string_of_int (Z.to_int z).

(** [s[lo:hi]]; out of range it panics. *)
Definition slice (s : string) (lo hi : Z) : M string :=
  if (0 <=? lo) && (lo <=? hi) && (hi <=? len s)
  then ret (substring (Z.to_nat lo) (Z.to_nat (hi - lo)) s)
  else panic.

(** [strings.ToLower] on the bytes below 0x80 (the upper-case letters
    [A]..[Z] move to lower case, the others stay).  The code applies it to
    the three status names only. *)
Definition lowerByte (c : ascii) : ascii :=
  let n := N_of_ascii c in
  if ((65 <=? n) && (n <=? 90))%N then ascii_of_N (n + 32) else c.

Fixpoint ToLower (s : string) : string :=
  match s with
  | EmptyString => EmptyString
  | String c s' => String (lowerByte c) (ToLower s')
  end.

(** [strings.EqualFold s t] for a [t] of bytes below 0x80, which is how
    [RunCommand] calls it ([t] is [ssmTargetInstanceIds]).  Two bytes below
    0x80 are equal under folding when they are equal or are the two cases of
    one letter.  A rune of [s] outside that range is equal under simple
    folding to a byte of [t] in two cases only: U+017F (bytes C5 BF) folds
    with [s]/[S], and U+212A (bytes E2 84 AA) folds with [k]/[K]. *)
Definition foldEqByte (c d : ascii) : bool :=
  let sr := N.min (N_of_ascii c) (N_of_ascii d) in
  let tr := N.max (N_of_ascii c) (N_of_ascii d) in
  ((sr =? tr) || ((65 <=? sr) && (sr <=? 90) && (tr =? sr + 32)))%N.

Definition isLetter (lower : ascii) (d : ascii) : bool :=
  foldEqByte lower d.

Fixpoint EqualFold (s t : string) : bool :=
  match s, t with
  | EmptyString, EmptyString => true
  | EmptyString, String _ _ => false
  | String _ _, EmptyString => false
  | String c s1, String d t1 =>
      if (N_of_ascii c <? 128)%N then foldEqByte c d && EqualFold s1 t1
      else
        match N_of_ascii c, s1 with
        | 197%N, String c2 s2 =>
            (N_of_ascii c2 =? 191)%N && isLetter "s"%char d && EqualFold s2 t1
        | 226%N, String c2 (String c3 s3) =>
            (N_of_ascii c2 =? 132)%N && (N_of_ascii c3 =? 170)%N
            && isLetter "k"%char d && EqualFold s3 t1
        | _, _ => false
        end
  end.

Definition newline : string := String (ascii_of_nat 10) EmptyString.

(** ** The operations of [AwsClients] *)

Definition sleep : M unit := emit (Sleep sleepTime).
Definition logInfo (msg : string) : M unit := emit (LogInfo msg).
Definition logError (msg : string) : M unit := emit (LogError msg).

(** Lines 62-66: the instances of all reservations. *)
Definition ec2InstanceCount (ec2Instances : DescribeInstancesOutput) : Z :=
  fold_left
    (fun count reservation =>
       count + Z.of_nat (List.length (ec2types.Instances reservation)))
    (Reservations ec2Instances) 0.

(** Lines 68-74: the entries whose ping status is online. *)
Definition onlineInstanceCount
    (ssmInstances : DescribeInstanceInformationOutput) : Z :=
  fold_left
    (fun count instance =>
       if String.eqb (ssmtypes.PingStatus instance) PingStatusOnline
       then count + 1 else count)
    (InstanceInformationList ssmInstances) 0.

Definition onlineMessage (online total : Z) : string :=
  (itoa online ++ " of " ++ itoa total ++ " target instances are online.")%string.

(** Lines 61-83: what one iteration does with the two inventories. *)
Definition checkTargetInstances
    (ec2Instances : DescribeInstancesOutput)
    (ssmInstances : DescribeInstanceInformationOutput)
  : M (Ctl (option error)) :=
  if 0 <? Z.of_nat (List.length (InstanceInformationList ssmInstances)) then
    logInfo (onlineMessage (onlineInstanceCount ssmInstances)
                           (ec2InstanceCount ec2Instances)) ;;
    if onlineInstanceCount ssmInstances =? ec2InstanceCount ec2Instances
    then ret (Return None)
    else sleep ;; ret Next
  else sleep ;; ret Next.

Definition invocationMessage (commandId status instanceId : string) : string :=
  ("Command " ++ commandId ++ " invocation " ++ status ++ " on instance "
     ++ instanceId ++ ".")%string.

Definition invocationError (status instanceId : string) : error :=
  ("command invocation " ++ ToLower status ++ " on " ++ instanceId
     ++ " instance")%string.

Definition isPending (status : string) : bool :=
  String.eqb status "Pending" || String.eqb status "InProgress".

Definition isFailing (status : string) : bool :=
  String.eqb status "Cancelled" || String.eqb status "TimedOut"
  || String.eqb status "Failed".

(** Lines 110-119: the range over the invocations.  [inl n]: the range ended
    with [pendingExecutionsCount = n]; [inr e]: the function returned [e]. *)
Fixpoint rangeInvocations (commandId : string)
    (invocations : list ssmtypes.CommandInvocation)
    (pendingExecutionsCount : Z) : M (Z + option error) :=
  match invocations with
  | [] => ret (inl pendingExecutionsCount)
  | invocation :: rest =>
      let status := ssmtypes.Status invocation in
      if isPending status then
        rangeInvocations commandId rest (pendingExecutionsCount + 1)
      else if isFailing status then
        instanceId <- deref (ssmtypes.InvInstanceId invocation) ;;
        logInfo (invocationMessage commandId status instanceId) ;;
        ret (inr (Some (invocationError status instanceId)))
      else rangeInvocations commandId rest pendingExecutionsCount
  end.

(** Lines 103-125: what one iteration does with the listing. *)
Definition checkCommandInvocations (commandId : string)
    (output : ListCommandInvocationsOutput) : M (Ctl (option error)) :=
  if Z.of_nat (List.length (CommandInvocations output)) =? 0 then
    sleep ;; ret Next
  else
    r <- rangeInvocations commandId (CommandInvocations output) 0 ;;
    match r with
    | inr err => ret (Return err)
    | inl pendingExecutionsCount =>
        if pendingExecutionsCount =? 0 then ret (Return None)
        else sleep ;; ret Next
    end.

(** Lines 160-163. *)
Definition keyPrefix (prefix : option string) (commandId : string) : string :=
  match prefix with
  | Some p => (p ++ "/" ++ commandId)%string
  | None => commandId
  end.

(** Lines 190-196: the message, in pieces of [maxLogMsgSize] bytes. *)
Definition logMessage (msg : string) : M unit :=
  let n := Z.quot (len msg) maxLogMsgSize in
  forRange (iterations n) 0
    (fun i =>
       piece <- slice msg (i * maxLogMsgSize) ((i + 1) * maxLogMsgSize) ;;
       logInfo piece) ;;
  piece <- slice msg (n * maxLogMsgSize) (len msg) ;;
  logInfo piece.

(** Lines 213-223: the two filter lists of a target list. *)
Fixpoint rangeTargets (ssmTargets : list ssmtypes.Target)
    (ec2Filters : list ec2types.Filter)
    (ssmFilters : list ssmtypes.InstanceInformationStringFilter)
  : M (list ec2types.Filter * list ssmtypes.InstanceInformationStringFilter) :=
  match ssmTargets with
  | [] => ret (ec2Filters, ssmFilters)
  | target :: rest =>
      key <- deref (ssmtypes.Key target) ;;
      let ec2FilterName :=
        if EqualFold key ssmTargetInstanceIds
        then Some ec2FilterInstanceId
        else ssmtypes.Key target in
      rangeTargets rest
        (ec2Filters ++
           [ {| ec2types.Name := ec2FilterName;
                ec2types.Values := ssmtypes.Values target |} ])
        (ssmFilters ++
           [ {| ssmtypes.FKey := ssmtypes.Key target;
                ssmtypes.FValues := ssmtypes.Values target |} ])
  end.

Definition stateFilter : ec2types.Filter :=
  {| ec2types.Name := Some ec2FilterInstanceStateName;
     ec2types.Values := ["pending"; "running"] |}.

Definition buildFilters (ssmTargets : list ssmtypes.Target)
  : M (list ec2types.Filter * list ssmtypes.InstanceInformationStringFilter) :=
  fs <- rangeTargets ssmTargets [] [] ;;
  ret (fst fs ++ [stateFilter], snd fs).

(** Lines 231-239: the input of the [SendCommand] call. *)
Definition sendInput (documentName : option string)
    (parameters : list (string * list string))
    (ssmTargets : list ssmtypes.Target)
    (comment s3Bucket s3KeyPrefix : option string) : SendCommandInput :=
  {| Targets := ssmTargets;
     InDocumentName := documentName;
     Parameters := parameters;
     InComment := comment;
     TimeoutSeconds := Some sendTimeout;
     OutputS3BucketName := s3Bucket;
     OutputS3KeyPrefix := s3KeyPrefix |}.

Section Clients.

Variable clients : Env.

Definition DescribeInstances (filters : list ec2types.Filter) :=
  call (CallDescribeInstances filters)
       (fun tr => ec2_DescribeInstances clients tr filters).

Definition DescribeInstanceInformation
    (filters : list ssmtypes.InstanceInformationStringFilter) :=
  call (CallDescribeInstanceInformation filters)
       (fun tr => ssm_DescribeInstanceInformation clients tr filters).

Definition ListCommandInvocations (commandId : string) :=
  call (CallListCommandInvocations commandId)
       (fun tr => ssm_ListCommandInvocations clients tr commandId).

Definition SendCommand (input : SendCommandInput) :=
  call (CallSendCommand input) (fun tr => ssm_SendCommand clients tr input).

Definition ListCommands (commandId : string) :=
  call (CallListCommands commandId)
       (fun tr => ssm_ListCommands clients tr commandId).

Definition GetBucketLocation (bucket : option string) :=
  call (CallGetBucketLocation bucket)
       (fun tr => s3_GetBucketLocation clients tr bucket).

Definition LoadDefaultConfig :=
  call CallLoadDefaultConfig (fun tr => config_LoadDefaultConfig clients tr).

Definition ListObjectsV2 (region : string) (bucket : option string)
    (maxKeys : Z) (prefix : string) :=
  call (CallListObjectsV2 region bucket maxKeys prefix)
       (fun tr => s3_ListObjectsV2 clients tr region bucket maxKeys prefix).

Definition GetObject (region : string) (bucket key : option string) :=
  call (CallGetObject region bucket key)
       (fun tr => s3_GetObject clients tr region bucket key).

(** The body of the loop of [waitForTargetInstances]. *)
Definition pollTargetInstances
    (ec2Filters : list ec2types.Filter)
    (ssmFilters : list ssmtypes.InstanceInformationStringFilter)
  : M (Ctl (option error)) :=
  r <- DescribeInstances ec2Filters ;;
  match r with
  | inl err => logError err ;; ret (Return (Some err))
  | inr ec2Instances =>
      r <- DescribeInstanceInformation ssmFilters ;;
      match r with
      | inl err => logError err ;; ret (Return (Some err))
      | inr ssmInstances => checkTargetInstances ec2Instances ssmInstances
      end
  end.

Definition waitForTargetInstances
    (ec2Filters : list ec2types.Filter)
    (ssmFilters : list ssmtypes.InstanceInformationStringFilter)
    (waitTimeout : Z) : M (option error) :=
  forLoop (attempts waitTimeout)
    (pollTargetInstances ec2Filters ssmFilters)
    (logError "Target instances are not online." ;;
     ret (Some "target instances are not online")).

(** The body of the loop of [waitForCommandInvocations]. *)
Definition pollCommandInvocations (commandId : string)
  : M (Ctl (option error)) :=
  r <- ListCommandInvocations commandId ;;
  match r with
  | inl err => logError err ;; ret (Return (Some err))
  | inr output => checkCommandInvocations commandId output
  end.

Definition waitForCommandInvocations (commandId : string)
    (timeout : option Z) : M (option error) :=
  t <- deref timeout ;;
  forLoop (attempts t)
    (pollCommandInvocations commandId)
    (logError "Command invocations timed out." ;;
     ret (Some "command invocations timed out")).

(** Lines 178-199: the range over the listed objects. *)
Fixpoint rangeObjects (region : string) (s3Bucket : option string)
    (contents : list S3Object) : M unit :=
  match contents with
  | [] => ret tt
  | key :: rest =>
      r <- GetObject region s3Bucket (ObjKey key) ;;
      match r with
      | inl err => logError err
      | inr object =>
          match Body object with
          | inr bytes =>
              k <- deref (ObjKey key) ;;
              logInfo (newline ++ "*** " ++ k ++ " ***")%string ;;
              logMessage bytes
          | inl _ => ret tt
          end
      end ;;
      rangeObjects region s3Bucket rest
  end.

Definition bucketUnset (s3Bucket : option string) : bool :=
  match s3Bucket with
  | None => true
  | Some b => String.eqb b ""
  end.

Definition printCommandOutput (prefix : option string) (commandId : string)
    (s3Bucket : option string) : M (option error) :=
  if bucketUnset s3Bucket then
    logInfo "The output S3 bucket is not specified for ssm_command resource." ;;
    ret None
  else
    r <- GetBucketLocation s3Bucket ;;
    match r with
    | inl err => logError err ;; ret (Some err)
    | inr location =>
        r <- LoadDefaultConfig ;;
        match r with
        | Some err => logError err ;; ret (Some err)
        | None =>
            let region := LocationConstraint location in
            r <- ListObjectsV2 region s3Bucket 1000
                   (keyPrefix prefix commandId) ;;
            match r with
            | inl err => logError err ;; ret (Some err)
            | inr objects =>
                rangeObjects region s3Bucket (Contents objects) ;;
                ret None
            end
        end
    end.

Definition GetCommand (commandId : string)
  : M (ssmtypes.Command * option error) :=
  r <- ListCommands commandId ;;
  match r with
  | inl err => ret (ssmtypes.zeroCommand, Some err)
  | inr commands =>
      match Commands commands with
      | [] => ret (ssmtypes.zeroCommand, None)
      | c :: _ => ret (c, None)
      end
  end.

Definition RunCommand (documentName : option string)
    (parameters : list (string * list string))
    (ssmTargets : list ssmtypes.Target) (executionTimeout : option Z)
    (comment s3Bucket s3KeyPrefix : option string)
  : M (ssmtypes.Command * option error) :=
  fs <- buildFilters ssmTargets ;;
  err <- waitForTargetInstances (fst fs) (snd fs) waitTimeout ;;
  match err with
  | Some e => logError e ;; ret (ssmtypes.zeroCommand, Some e)
  | None =>
      r <- SendCommand
             (sendInput documentName parameters ssmTargets comment
                        s3Bucket s3KeyPrefix) ;;
      match r with
      | inl e => logError e ;; ret (ssmtypes.zeroCommand, Some e)
      | inr output =>
          command <- deref (OutCommand output) ;;
          commandId <- deref (ssmtypes.CommandId command) ;;
          err <- waitForCommandInvocations commandId executionTimeout ;;
          _ <- printCommandOutput s3KeyPrefix commandId s3Bucket ;;
          match err with
          | Some e => logError e ;; ret (ssmtypes.zeroCommand, Some e)
          | None => GetCommand commandId
          end
      end
  end.

End Clients.

(** ** Vocabulary of the properties *)

(** [nexts n body h pre]: started on history [h], the next [n] runs of
    [body] all end by asking for the next iteration (none returns, none
    panics), and together they emit [pre]. *)
Fixpoint nexts {R} (n : nat) (body : M (Ctl R)) (h pre : Trace) : Prop :=
  match n with
  | O => pre = []
  | S k =>
      exists e rest,
        body h = (Val Next, e) /\ nexts k body (h ++ e) rest /\
        pre = e ++ rest
  end.

Definition isDescribeInstancesCall (e : Event) : bool :=
  match e with CallDescribeInstances _ => true | _ => false end.

Definition isListCommandInvocationsCall (e : Event) : bool :=
  match e with CallListCommandInvocations _ => true | _ => false end.

Definition isSleep (e : Event) : bool :=
  match e with Sleep _ => true | _ => false end.

Definition isCall (e : Event) : bool :=
  match e with
  | LogInfo _ | LogError _ | Sleep _ => false
  | _ => true
  end.

Definition count (p : Event -> bool) (evs : Trace) : nat :=
  List.length (filter p evs).

Definition isOnline (instance : ssmtypes.InstanceInformation) : bool :=
  String.eqb (ssmtypes.PingStatus instance) PingStatusOnline.

Definition allInstances (ec2Instances : DescribeInstancesOutput)
  : list ec2types.Instance :=
  flat_map ec2types.Instances (Reservations ec2Instances).

(** The readiness condition of one observation of the two inventories. *)
Definition ready (ec2Instances : DescribeInstancesOutput)
    (ssmInstances : DescribeInstanceInformationOutput) : Prop :=
  InstanceInformationList ssmInstances <> [] /\
  onlineInstanceCount ssmInstances = ec2InstanceCount ec2Instances.

(** The first invocation, in list order, that is neither pending nor in
    progress, when its status is one of the three failing ones. *)
Fixpoint firstFailing (invocations : list ssmtypes.CommandInvocation)
  : option ssmtypes.CommandInvocation :=
  match invocations with
  | [] => None
  | invocation :: rest =>
      if isPending (ssmtypes.Status invocation) then firstFailing rest
      else if isFailing (ssmtypes.Status invocation) then Some invocation
      else firstFailing rest
  end.

(** The bytes of [s] from [lo] up to [hi]. *)
Definition sub (s : string) (lo hi : Z) : string :=
  substring (Z.to_nat lo) (Z.to_nat (hi - lo)) s.

(** The indices [i, i + 1, ..] of [count] iterations. *)
Fixpoint indices (count : nat) (i : Z) : list Z :=
  match count with
  | O => []
  | S k => i :: indices k (i + 1)
  end.

(** The pieces of a message: the full pieces of [maxLogMsgSize] bytes, then
    what remains. *)
Definition fullPiece (msg : string) (i : Z) : string :=
  sub msg (i * maxLogMsgSize) ((i + 1) * maxLogMsgSize).

Definition pieces (msg : string) : list string :=
  let n := len msg / maxLogMsgSize in
  map (fullPiece msg) (indices (Z.to_nat n) 0)
  ++ [sub msg (n * maxLogMsgSize) (len msg)].

Definition joined (l : list string) : string :=
  fold_right String.append EmptyString l.

(** [ceil (a / b)] for [b > 0]. *)
Definition ceilDiv (a b : Z) : Z := (a + b - 1) / b.


(** The code after the loop of each waiter. *)
Definition targetsNotOnline : M (option error) :=
  logError "Target instances are not online." ;;
  ret (Some "target instances are not online").

Definition invocationsTimedOut : M (option error) :=
  logError "Command invocations timed out." ;;
  ret (Some "command invocations timed out").

(** The filters that one target contributes. *)
Definition ec2FilterOf (target : ssmtypes.Target) : ec2types.Filter :=
  {| ec2types.Name :=
       match ssmtypes.Key target with
       | Some key =>
           if EqualFold key ssmTargetInstanceIds
           then Some ec2FilterInstanceId else Some key
       | None => None
       end;
     ec2types.Values := ssmtypes.Values target |}.

Definition ssmFilterOf (target : ssmtypes.Target)
  : ssmtypes.InstanceInformationStringFilter :=
  {| ssmtypes.FKey := ssmtypes.Key target;
     ssmtypes.FValues := ssmtypes.Values target |}.

(** All bytes of [s] are below 0x80. *)
Fixpoint isAscii (s : string) : bool :=
  match s with
  | EmptyString => true
  | String c s' => (N_of_ascii c <? 128)%N && isAscii s'
  end.

(** ** Example environments *)

Definition instancesOf (ids : list string) : DescribeInstancesOutput :=
  {| Reservations :=
       [ {| ec2types.Instances :=
              map (fun i => {| ec2types.InstanceId := Some i |}) ids |} ] |}.

Definition agents (l : list (string * string))
  : DescribeInstanceInformationOutput :=
  {| InstanceInformationList :=
       map (fun p => {| ssmtypes.InstanceId := Some (fst p);
                        ssmtypes.PingStatus := snd p |}) l |}.

Definition invocationsOf (l : list (string * string))
  : ListCommandInvocationsOutput :=
  {| CommandInvocations :=
       map (fun p => {| ssmtypes.InvInstanceId := Some (fst p);
                        ssmtypes.Status := snd p |}) l |}.

Definition commandOf (id : string) : ssmtypes.Command :=
  {| ssmtypes.CommandId := Some id;
     ssmtypes.DocumentName := Some "AWS-RunShellScript";
     ssmtypes.Comment := None;
     ssmtypes.CmdStatus := "Success" |}.

(** An environment whose services answer every call the same way. *)
Definition steadyEnv
    (ec2Instances : DescribeInstancesOutput)
    (ssmInstances : DescribeInstanceInformationOutput)
    (invocations : ListCommandInvocationsOutput)
    (commands : list ssmtypes.Command)
    (location : error + GetBucketLocationOutput) : Env :=
  {| ec2_DescribeInstances := fun _ _ => inr ec2Instances;
     ssm_DescribeInstanceInformation := fun _ _ => inr ssmInstances;
     ssm_ListCommandInvocations := fun _ _ => inr invocations;
     ssm_SendCommand :=
       fun _ _ => inr {| OutCommand := Some (commandOf "cmd-1") |};
     ssm_ListCommands := fun _ _ => inr {| Commands := commands |};
     s3_GetBucketLocation := fun _ _ => location;
     config_LoadDefaultConfig := fun _ => None;
     s3_ListObjectsV2 := fun _ _ _ _ _ => inr {| Contents := [] |};
     s3_GetObject := fun _ _ _ _ => inr {| Body := inr "" |} |}.

(** Two running instances, both registered and online. *)
Definition onlineEnv : Env :=
  steadyEnv (instancesOf ["i-1"; "i-2"])
            (agents [("i-1", "Online"); ("i-2", "Online")])
            (invocationsOf [("i-1", "Success"); ("i-2", "Success")])
            [commandOf "cmd-1"]
            (inl "no such bucket").

(** Two running instances; the agent inventory also lists a third,
    stale entry that has lost its connection. *)
Definition staleEnv : Env :=
  steadyEnv (instancesOf ["i-1"; "i-2"])
            (agents [("i-1", "Online"); ("i-2", "Online");
                     ("i-0", "ConnectionLost")])
            (invocationsOf [])
            []
            (inl "no such bucket").

(** Two running instances, one of them not yet online. *)
Definition waitingEnv : Env :=
  steadyEnv (instancesOf ["i-1"; "i-2"])
            (agents [("i-1", "Online"); ("i-2", "Inactive")])
            (invocationsOf [])
            []
            (inl "no such bucket").

(** The command has failed on one instance and is pending on another. *)
Definition failingEnv : Env :=
  steadyEnv (instancesOf ["i-1"; "i-2"])
            (agents [("i-1", "Online"); ("i-2", "Online")])
            (invocationsOf [("i-1", "Pending"); ("i-2", "Failed")])
            [commandOf "cmd-1"]
            (inl "no such bucket").

(** The fleet of [onlineEnv], with an output bucket that holds one object. *)
Definition bucketEnv : Env :=
  {| ec2_DescribeInstances := ec2_DescribeInstances onlineEnv;
     ssm_DescribeInstanceInformation :=
       ssm_DescribeInstanceInformation onlineEnv;
     ssm_ListCommandInvocations := ssm_ListCommandInvocations onlineEnv;
     ssm_SendCommand := ssm_SendCommand onlineEnv;
     ssm_ListCommands := ssm_ListCommands onlineEnv;
     s3_GetBucketLocation :=
       fun _ _ => inr {| LocationConstraint := "eu-west-1" |};
     config_LoadDefaultConfig := fun _ => None;
     s3_ListObjectsV2 :=
       fun _ _ _ _ prefix =>
         inr {| Contents :=
                  [ {| ObjKey := Some (prefix ++ "/i-1/stdout")%string |} ] |};
     s3_GetObject := fun _ _ _ _ => inr {| Body := inr "hello" |} |}.

Definition instanceIdsTarget : ssmtypes.Target :=
  {| ssmtypes.Key := Some "InstanceIds";
     ssmtypes.Values := ["i-1"; "i-2"] |}.

(** ** Further vocabulary: kinds of events *)

Definition isDescribeInstanceInformationCall (e : Event) : bool :=
  match e with CallDescribeInstanceInformation _ => true | _ => false end.

Definition isSendCommandCall (e : Event) : bool :=
  match e with CallSendCommand _ => true | _ => false end.

Definition isListCommandsCall (e : Event) : bool :=
  match e with CallListCommands _ => true | _ => false end.

Definition isGetObjectCall (e : Event) : bool :=
  match e with CallGetObject _ _ _ => true | _ => false end.

Definition isLogError (e : Event) : bool :=
  match e with LogError _ => true | _ => false end.

(** Neither pending nor failing: the invocation has ended well, or has a
    status that the waiter does not look at. *)
Definition isSettled (invocation : ssmtypes.CommandInvocation) : bool :=
  negb (isPending (ssmtypes.Status invocation))
  && negb (isFailing (ssmtypes.Status invocation)).

(** An environment whose compute inventory cannot be queried. *)
Definition noComputeEnv : Env :=
  {| ec2_DescribeInstances := fun _ _ => inl "ec2: request limit exceeded";
     ssm_DescribeInstanceInformation :=
       ssm_DescribeInstanceInformation onlineEnv;
     ssm_ListCommandInvocations := fun _ _ => inl "ssm: throttled";
     ssm_SendCommand := fun _ _ => inl "ssm: invalid document";
     ssm_ListCommands := ssm_ListCommands onlineEnv;
     s3_GetBucketLocation := fun _ _ => inl "s3: no such bucket";
     config_LoadDefaultConfig := fun _ => None;
     s3_ListObjectsV2 := fun _ _ _ _ _ => inl "s3: access denied";
     s3_GetObject := fun _ _ _ _ => inl "s3: access denied" |}.

(** The fleet of [onlineEnv]; the command cannot be sent, and the second
    object of the output bucket cannot be fetched. *)
Definition flakyEnv : Env :=
  {| ec2_DescribeInstances := ec2_DescribeInstances onlineEnv;
     ssm_DescribeInstanceInformation :=
       ssm_DescribeInstanceInformation onlineEnv;
     ssm_ListCommandInvocations := ssm_ListCommandInvocations onlineEnv;
     ssm_SendCommand := fun _ _ => inl "ssm: invalid document";
     ssm_ListCommands := ssm_ListCommands onlineEnv;
     s3_GetBucketLocation :=
       fun _ _ => inr {| LocationConstraint := "eu-west-1" |};
     config_LoadDefaultConfig := fun _ => None;
     s3_ListObjectsV2 :=
       fun _ _ _ _ _ =>
         inr {| Contents :=
                  [ {| ObjKey := Some "cmd-1/i-1/stdout" |};
                    {| ObjKey := Some "cmd-1/i-2/stdout" |} ] |};
     s3_GetObject :=
       fun _ _ _ key =>
         match key with
         | Some "cmd-1/i-1/stdout" => inr {| Body := inr "ok" |}
         | _ => inl "s3: access denied"
         end |}.

(** Two instances run; only one has registered with the agent service. *)
Definition halfRegisteredEnv : Env :=
  steadyEnv (instancesOf ["i-1"; "i-2"]) (agents [("i-1", "Online")])
            (invocationsOf []) [] (inl "no such bucket").

(** No instance is pending or running; the agent inventory still lists two
    entries that have lost their connection. *)
Definition stoppedEnv : Env :=
  steadyEnv {| Reservations := [] |}
            (agents [("i-1", "ConnectionLost"); ("i-2", "ConnectionLost")])
            (invocationsOf [("i-1", "Success"); ("i-2", "Cancelling")])
            [] (inl "no such bucket").

(** [emits P m]: on every history, all the events of [m] satisfy [P]. *)
Definition emits {A} (P : Event -> Prop) (m : M A) : Prop :=
  forall h, Forall P (snd (m h)).

(** Log lines and sleeps. *)
Definition isLocal (e : Event) : Prop := isCall e = false.

(** What the readiness waiter may emit. *)
Definition readinessEvent (e : Event) : Prop :=
  isLocal e \/ isDescribeInstancesCall e = true
  \/ isDescribeInstanceInformationCall e = true.

(** What the invocation waiter may emit. *)
Definition invocationEvent (e : Event) : Prop :=
  isLocal e \/ isListCommandInvocationsCall e = true.

(** What the output collector may emit. *)
Definition isStorageCall (e : Event) : bool :=
  match e with
  | CallGetBucketLocation _ | CallLoadDefaultConfig
  | CallListObjectsV2 _ _ _ _ | CallGetObject _ _ _ => true
  | _ => false
  end.

Definition collectorEvent (e : Event) : Prop :=
  isLocal e \/ isStorageCall e = true.

(** ** The provider configuration ([provider.go])

    A value of type [any]: nil, a string, a list, a map from strings, or a
    value of some other dynamic type.  A map is its lookup: [None] for a
    key that is absent. *)

#[local] Unset Elimination Schemes.
Inductive any : Type :=
| AnyNil
| AnyString (s : string)
| AnyList (l : list any)
| AnyMap (m : string -> option any)
| AnyOther.
#[local] Set Elimination Schemes.

Module awsbase.
(** The fields of [awsbase.AssumeRole] that the code sets; [Duration] in
    nanoseconds. *)
Record AssumeRole :=
  { RoleARN : string;
    Duration : Z;
    ExternalID : string;
    Policy : string;
    SessionName : string;
    SourceIdentity : string }.
Definition zeroAssumeRole : AssumeRole :=
  {| RoleARN := ""; Duration := 0; ExternalID := ""; Policy := "";
     SessionName := ""; SourceIdentity := "" |}.
End awsbase.

Module diag.
Inductive Severity : Type := Error | Warning.
Record Diagnostic := { Sev : Severity; Summary : string }.
Definition Diagnostics := list Diagnostic.
(** [diag.Errorf], for a format without verbs. *)
Definition Errorf (summary : string) : Diagnostics :=
  [ {| Sev := Error; Summary := summary |} ].
(** [diag.FromErr], for a non-nil error. *)
Definition FromErr (err : error) : Diagnostics :=
  [ {| Sev := Error; Summary := err |} ].
Definition isError (d : Diagnostic) : bool :=
  match Sev d with Error => true | Warning => false end.
Definition HasError (diags : Diagnostics) : bool := existsb isError diags.
End diag.

(** [v, ok := x.(string); ok && v != ""], for the [x] that a map lookup
    yields (nil for an absent key). *)
Definition nonEmptyString (x : option any) : option string :=
  match x with
  | Some (AnyString v) => if String.eqb v "" then None else Some v
  | _ => None
  end.

(** [result[i] = x]; out of range it panics. *)
Fixpoint setIndex {A} (result : list A) (i : nat) (x : A) : M (list A) :=
  match result, i with
  | [], _ => panic
  | _ :: rest, O => ret (x :: rest)
  | y :: rest, S j =>
      rest' <- setIndex rest j x ;;
      ret (y :: rest')
  end.

(** What [stscreds.NewAssumeRoleProvider] is given: the role, and the
    options that the callback sets. *)
Record AssumeRoleProvider :=
  { ProviderRoleARN : string;
    OptionsExternalID : option string;
    OptionsRoleARN : string }.

(** The fields of [aws.Config] that the code sets. *)
Record Config :=
  { Region : string; Credentials : option AssumeRoleProvider }.

(** The three clients, each as the configuration it was made from. *)
Record AwsClients :=
  { ec2Client : Config; ssmClient : Config; s3Client : Config }.

(** [d.GetOk key]: [Some v] when the key is set to a non-zero value. *)
Record ResourceData := { GetOk : string -> option any }.

Section Provider.

(** [time.ParseDuration]: nanoseconds and error. *)
Variable ParseDuration : string -> Z * option error.

(** [config.LoadDefaultConfig], answered from the history. *)
Variable loadDefaultConfig : Trace -> error + Config.

Definition expandAssumeRole (tfMap : string -> option any)
  : awsbase.AssumeRole * diag.Diagnostics :=
  match nonEmptyString (tfMap "role_arn") with
  | None => (awsbase.zeroAssumeRole, diag.Errorf "role_arn")
  | Some roleARN =>
      ({| awsbase.RoleARN := roleARN;
          awsbase.Duration :=
            match nonEmptyString (tfMap "duration") with
            | Some v => fst (ParseDuration v)
            | None => 0
            end;
          awsbase.ExternalID :=
            match nonEmptyString (tfMap "external_id") with
            | Some v => v
            | None => ""
            end;
          awsbase.Policy :=
            match nonEmptyString (tfMap "policy") with
            | Some v => v
            | None => ""
            end;
          awsbase.SessionName :=
            match nonEmptyString (tfMap "session_name") with
            | Some v => v
            | None => ""
            end;
          awsbase.SourceIdentity :=
            match nonEmptyString (tfMap "source_identity") with
            | Some v => v
            | None => ""
            end |}, [])
  end.

(** The range of [expandAssumeRoles], from index [i] on.  The fields of the
    log record are not part of the event. *)
Fixpoint rangeAssumeRoles (tfList : list any) (i : nat)
    (result : list awsbase.AssumeRole) (diags : diag.Diagnostics)
  : M (list awsbase.AssumeRole * diag.Diagnostics) :=
  match tfList with
  | [] => ret (result, diags)
  | AnyMap ar :: rest =>
      let x := fst (expandAssumeRole ar) in
      let d := snd (expandAssumeRole ar) in
      if diag.HasError d then ret (result, diags ++ d)
      else
        result' <- setIndex result i x ;;
        logInfo "assume_role configuration set" ;;
        rangeAssumeRoles rest (S i) result' (diags ++ d)
  | _ :: _ => ret (result, diags)
  end.

Definition expandAssumeRoles (tfList : list any)
  : M (list awsbase.AssumeRole * diag.Diagnostics) :=
  rangeAssumeRoles tfList 0
    (repeat awsbase.zeroAssumeRole (List.length tfList)) [].

(** [s == ""] for an interface value [s]. *)
Definition isEmptyString (s : any) : bool :=
  match s with
  | AnyString v => String.eqb v ""
  | _ => false
  end.

(** Lines 50-79: the roles of the [assume_role] blocks.  [inl]: [configure]
    returns these diagnostics and no clients; [inr]: it goes on with these
    roles. *)
Definition configuredRoles (d : ResourceData)
  : M (diag.Diagnostics + list awsbase.AssumeRole) :=
  match GetOk d "assume_role" with
  | None => ret (inr [])
  | Some v0 =>
      logInfo "detected assume_role configuration provided by user" ;;
      match v0 with
      | AnyList v =>
          match v with
          | [] => ret (inr [])
          | [AnyNil] => ret (inl (diag.Errorf "role_arn"))
          | [AnyMap l] =>
              match l "role_arn" with
              | None => ret (inl (diag.Errorf "role_arn"))
              | Some s =>
                  if isEmptyString s then ret (inl (diag.Errorf "role_arn"))
                  else
                    logInfo "detected role_arn configuration provided by user" ;;
                    r <- expandAssumeRoles v ;;
                    if diag.HasError (snd r) then ret (inl ([] ++ snd r))
                    else ret (inr (fst r))
              end
          | [_] => panic
          | _ :: _ :: _ =>
              r <- expandAssumeRoles v ;;
              if diag.HasError (snd r) then ret (inl ([] ++ snd r))
              else ret (inr (fst r))
          end
      | _ => panic
      end
  end.

(** Lines 81-110: what [configure] does once the roles are known. *)
Definition finishConfigure (d : ResourceData)
    (assumeRole : list awsbase.AssumeRole)
  : M (option AwsClients * diag.Diagnostics) :=
  if (1 <? Z.of_nat (List.length assumeRole)) then
    ret (None, diag.Errorf "Only 1 assume_role is supported")
  else
    r <- call CallLoadDefaultConfig loadDefaultConfig ;;
    match r with
    | inl err => ret (None, diag.FromErr err)
    | inr cfg =>
        cfg <- match GetOk d "region" with
               | None => ret cfg
               | Some region =>
                   logInfo "detected region configuration provided by user" ;;
                   match region with
                   | AnyString s =>
                       ret {| Region := s; Credentials := Credentials cfg |}
                   | _ => panic
                   end
               end ;;
        let cfg :=
          match assumeRole with
          | [role] =>
              {| Region := Region cfg;
                 Credentials :=
                   Some {| ProviderRoleARN := awsbase.RoleARN role;
                           OptionsExternalID :=
                             Some (awsbase.ExternalID role);
                           OptionsRoleARN := awsbase.RoleARN role |} |}
          | _ => cfg
          end in
        ret (Some {| ec2Client := cfg; ssmClient := cfg; s3Client := cfg |},
             [])
    end.

Definition configure (d : ResourceData)
  : M (option AwsClients * diag.Diagnostics) :=
  roles <- configuredRoles d ;;
  match roles with
  | inl diags => ret (None, diags)
  | inr assumeRole => finishConfigure d assumeRole
  end.

(** The role that an element of the list stands for. *)
Definition roleOf (v : any) : awsbase.AssumeRole :=
  match v with
  | AnyMap ar => fst (expandAssumeRole ar)
  | _ => awsbase.zeroAssumeRole
  end.

End Provider.

(** A block that [expandAssumeRole] accepts: a map whose [role_arn] is a
    non-empty string. *)
Definition validBlock (v : any) : Prop :=
  exists ar roleARN,
    v = AnyMap ar /\ ar "role_arn" = Some (AnyString roleARN) /\
    roleARN <> "".

(** ** Example configurations *)

Definition roleBlock (roleARN externalID : string) : any :=
  AnyMap (fun key =>
    if String.eqb key "role_arn" then Some (AnyString roleARN)
    else if String.eqb key "external_id" then Some (AnyString externalID)
    else if String.eqb key "session_name" then Some (AnyString "terraform")
    else None).

Definition resourceData (assumeRole : option any) (region : option any)
  : ResourceData :=
  {| GetOk := fun key =>
       if String.eqb key "assume_role" then assumeRole
       else if String.eqb key "region" then region
       else None |}.

Definition noDuration : string -> Z * option error :=
  fun _ => (0, Some "time: invalid duration").

Definition defaultConfig : Trace -> error + Config :=
  fun _ => inr {| Region := "us-east-1"; Credentials := None |}.

Definition deployRole : string := "arn:aws:iam::123456789012:role/deploy".

(** One block, and a region. *)
Definition oneRoleData : ResourceData :=
  resourceData (Some (AnyList [roleBlock deployRole "ext"]))
               (Some (AnyString "eu-west-1")).

Definition oneRoleConfig : Config :=
  {| Region := "eu-west-1";
     Credentials :=
       Some {| ProviderRoleARN := deployRole;
               OptionsExternalID := Some "ext";
               OptionsRoleARN := deployRole |} |}.

Definition oneRoleClients : AwsClients :=
  {| ec2Client := oneRoleConfig; ssmClient := oneRoleConfig;
     s3Client := oneRoleConfig |}.

(** Two blocks, both with a role. *)
Definition twoRolesData : ResourceData :=
  resourceData
    (Some (AnyList
       [roleBlock deployRole "ext";
        roleBlock "arn:aws:iam::123456789012:role/audit" ""]))
    None.

(** One block that is nil: an empty [assume_role] block. *)
Definition emptyBlockData : ResourceData :=
  resourceData (Some (AnyList [AnyNil])) None.

(** ** The monad *)

Lemma bind_val {A B} (m : M A) (k : A -> M B) h a e1 r e2 :
  m h = (Val a, e1) -> k a (h ++ e1) = (r, e2) ->
  bind m k h = (r, e1 ++ e2).
Proof. intros Hm Hk. unfold bind. now rewrite Hm, Hk. Qed.

Lemma bind_val_eq {A B} (m : M A) (k : A -> M B) h a e1 :
  m h = (Val a, e1) ->
  bind m k h = (fst (k a (h ++ e1)), e1 ++ snd (k a (h ++ e1))).
Proof.
  intros Hm. destruct (k a (h ++ e1)) as [r e2] eqn:Hk.
  exact (bind_val _ _ _ _ _ _ _ Hm Hk).
Qed.

Lemma bind_panic {A B} (m : M A) (k : A -> M B) h e1 :
  m h = (Panic, e1) -> bind m k h = (Panic, e1).
Proof. intros Hm. unfold bind. now rewrite Hm. Qed.

Lemma bind_inv {A B} (m : M A) (k : A -> M B) h b evs :
  bind m k h = (Val b, evs) ->
  exists a e1 e2,
    m h = (Val a, e1) /\ k a (h ++ e1) = (Val b, e2) /\ evs = e1 ++ e2.
Proof.
  unfold bind. destruct (m h) as [[a|] e1]; [|discriminate].
  destruct (k a (h ++ e1)) as [r e2] eqn:Hk. intros H.
  injection H as -> <-. now exists a, e1, e2.
Qed.

Lemma bind_emit {B} (ev : Event) (k : unit -> M B) h :
  bind (emit ev) k h = (fst (k tt (h ++ [ev])), ev :: snd (k tt (h ++ [ev]))).
Proof. unfold bind, emit. now destruct (k tt (h ++ [ev])). Qed.

Lemma bind_call {A B} (ev : Event) (f : Trace -> A) (k : A -> M B) h :
  bind (call ev f) k h
  = (fst (k (f h) (h ++ [ev])), ev :: snd (k (f h) (h ++ [ev]))).
Proof. unfold bind, call. now destruct (k (f h) (h ++ [ev])). Qed.

Lemma bind_ret {A B} (a : A) (k : A -> M B) h :
  bind (ret a) k h = k a h.
Proof.
  unfold bind, ret. rewrite app_nil_r. now destruct (k a h).
Qed.

Lemma count_app p e1 e2 : count p (e1 ++ e2) = (count p e1 + count p e2)%nat.
Proof. unfold count. now rewrite filter_app, length_app. Qed.

(** ** Loops *)

(** Iterations that all go on leave the loop to the code after it. *)
Lemma forLoop_nexts {R} (body : M (Ctl R)) (after : M R) :
  forall n h pre,
    nexts n body h pre ->
    forLoop n body after h
    = (fst (after (h ++ pre)), pre ++ snd (after (h ++ pre))).
Proof.
  induction n as [|n IH]; intros h pre Hn.
  - cbn in Hn. subst pre. rewrite app_nil_r. cbn. now destruct (after h).
  - destruct Hn as (e & rest & Hb & Hn & ->).
    cbn [forLoop]. rewrite (bind_val _ _ _ _ _ _ _ Hb (IH _ _ Hn)).
    now rewrite !app_assoc.
Qed.

(** An iteration that returns ends the loop, whatever budget is left. *)
Lemma forLoop_return {R} (body : M (Ctl R)) (after : M R) r e0 :
  forall k n h pre,
    (k < n)%nat -> nexts k body h pre ->
    body (h ++ pre) = (Val (Return r), e0) ->
    forLoop n body after h = (Val r, pre ++ e0).
Proof.
  induction k as [|k IH]; intros n h pre Hlt Hn Hb;
    (destruct n as [|n]; [lia|]); cbn [forLoop].
  - cbn in Hn. subst pre. rewrite app_nil_r in Hb.
    rewrite (bind_val _ _ h (Return r) e0 (Val r) [] Hb eq_refl).
    now rewrite app_nil_r.
  - destruct Hn as (e & rest & Hb1 & Hn & ->).
    rewrite app_assoc in Hb.
    rewrite (bind_val _ _ _ _ _ _ _ Hb1 (IH n _ _ ltac:(lia) Hn Hb)).
    now rewrite app_assoc.
Qed.

(** An iteration that goes on uses up one iteration of the budget. *)
Lemma forLoop_step {R} (body : M (Ctl R)) (after : M R) n h e :
  body h = (Val Next, e) ->
  forLoop (S n) body after h
  = (fst (forLoop n body after (h ++ e)),
     e ++ snd (forLoop n body after (h ++ e))).
Proof.
  intros Hb. cbn [forLoop].
  destruct (forLoop n body after (h ++ e)) as [r e2] eqn:Hl.
  exact (bind_val _ _ _ _ _ _ _ Hb Hl).
Qed.

Lemma nexts_count {R} (body : M (Ctl R)) (p : Event -> bool) :
  (forall h e, body h = (Val Next, e) -> count p e = 1%nat) ->
  forall n h pre, nexts n body h pre -> count p pre = n.
Proof.
  intros Hp. induction n as [|n IH]; intros h pre Hn.
  - cbn in Hn. now subst pre.
  - destruct Hn as (e & rest & Hb & Hn & ->).
    now rewrite count_app, (Hp _ _ Hb), (IH _ _ Hn).
Qed.

(** A loop that returns did so from one of its iterations, after
    iterations that all went on, or from the code after the loop. *)
Lemma forLoop_inv {R} (body : M (Ctl R)) (after : M R) r :
  forall n h evs,
    forLoop n body after h = (Val r, evs) ->
    (exists k pre e0,
        (k < n)%nat /\ nexts k body h pre /\
        body (h ++ pre) = (Val (Return r), e0) /\ evs = pre ++ e0)
    \/ (exists pre e0,
        nexts n body h pre /\
        after (h ++ pre) = (Val r, e0) /\ evs = pre ++ e0).
Proof.
  induction n as [|n IH]; intros h evs H.
  - right. exists [], evs. rewrite app_nil_r. cbn in *. auto.
  - cbn [forLoop] in H. apply bind_inv in H.
    destruct H as (c & e1 & e2 & Hb & Hk & ->).
    destruct c as [|r'].
    + destruct (IH _ _ Hk) as [(k & pre & e0 & Hlt & Hall & Hb' & ->)
                              |(pre & e0 & Hall & Ha & ->)].
      * left. exists (S k), (e1 ++ pre), e0.
        rewrite !app_assoc in *. repeat split; trivial; [lia|].
        cbn. exists e1, pre. auto.
      * right. exists (e1 ++ pre), e0.
        rewrite !app_assoc in *. repeat split; trivial.
        cbn. exists e1, pre. auto.
    + unfold ret in Hk. injection Hk as -> <-.
      left. exists 0%nat, [], e1. rewrite !app_nil_r.
      repeat split; cbn; trivial; lia.
Qed.

(** ** Counting *)

Lemma onlineInstanceCount_filter ssmInstances :
  onlineInstanceCount ssmInstances
  = Z.of_nat (List.length (filter isOnline (InstanceInformationList ssmInstances))).
Proof.
  unfold onlineInstanceCount.
  enough (forall l a,
    fold_left
      (fun count instance =>
         if String.eqb (ssmtypes.PingStatus instance) PingStatusOnline
         then count + 1 else count) l a
    = a + Z.of_nat (List.length (filter isOnline l))) as H
    by (rewrite H; lia).
  induction l as [|i l IH]; intros a; cbn [fold_left filter].
  - cbn. lia.
  - rewrite IH. unfold isOnline at 2.
    destruct (String.eqb _ _); cbn [List.length]; lia.
Qed.

Lemma ec2InstanceCount_flat ec2Instances :
  ec2InstanceCount ec2Instances
  = Z.of_nat (List.length (allInstances ec2Instances)).
Proof.
  unfold ec2InstanceCount, allInstances.
  enough (forall l a,
    fold_left
      (fun count reservation =>
         count + Z.of_nat (List.length (ec2types.Instances reservation))) l a
    = a + Z.of_nat (List.length (flat_map ec2types.Instances l))) as H
    by (rewrite H; lia).
  induction l as [|r l IH]; intros a; cbn [fold_left flat_map].
  - cbn. lia.
  - rewrite IH, length_app. lia.
Qed.

Lemma filter_length_lt {A} (p : A -> bool) (l : list A) x :
  In x l -> p x = false ->
  (List.length (filter p l) < List.length l)%nat.
Proof.
  induction l as [|y l IH]; cbn [In filter List.length]; [tauto|].
  intros [->|Hin] Hp.
  - rewrite Hp. pose proof (filter_length_le p l). lia.
  - specialize (IH Hin Hp). destruct (p y); cbn [List.length]; lia.
Qed.

(** ** The readiness waiter *)

Lemma checkTargetInstances_eq ec2Instances ssmInstances h :
  checkTargetInstances ec2Instances ssmInstances h =
  let msg := onlineMessage (onlineInstanceCount ssmInstances)
                           (ec2InstanceCount ec2Instances) in
  match InstanceInformationList ssmInstances with
  | [] => (Val Next, [Sleep sleepTime])
  | _ :: _ =>
      if onlineInstanceCount ssmInstances =? ec2InstanceCount ec2Instances
      then (Val (Return None), [LogInfo msg])
      else (Val Next, [LogInfo msg; Sleep sleepTime])
  end.
Proof.
  unfold checkTargetInstances, logInfo, sleep.
  destruct (InstanceInformationList ssmInstances) as [|i l]; [reflexivity|].
  replace (0 <? Z.of_nat (List.length (i :: l))) with true
    by (symmetry; apply Z.ltb_lt; cbn [List.length]; lia).
  rewrite bind_emit. cbv zeta.
  destruct (_ =? _); reflexivity.
Qed.

Lemma pollTargetInstances_eq clients ec2Filters ssmFilters h :
  pollTargetInstances clients ec2Filters ssmFilters h =
  let c1 := CallDescribeInstances ec2Filters in
  let c2 := CallDescribeInstanceInformation ssmFilters in
  match ec2_DescribeInstances clients h ec2Filters with
  | inl err => (Val (Return (Some err)), [c1; LogError err])
  | inr ec2Instances =>
      match ssm_DescribeInstanceInformation clients (h ++ [c1]) ssmFilters with
      | inl err => (Val (Return (Some err)), [c1; c2; LogError err])
      | inr ssmInstances =>
          let r := checkTargetInstances ec2Instances ssmInstances
                     ((h ++ [c1]) ++ [c2]) in
          (fst r, c1 :: c2 :: snd r)
      end
  end.
Proof.
  unfold pollTargetInstances, DescribeInstances, DescribeInstanceInformation.
  rewrite bind_call. cbv zeta.
  destruct (ec2_DescribeInstances clients h ec2Filters) as [err|ec2Instances].
  - reflexivity.
  - rewrite bind_call.
    destruct (ssm_DescribeInstanceInformation _ _ _) as [err|ssmInstances];
      reflexivity.
Qed.

Lemma ready_dec ec2Instances ssmInstances :
  ready ec2Instances ssmInstances \/ ~ ready ec2Instances ssmInstances.
Proof.
  unfold ready.
  destruct (InstanceInformationList ssmInstances) as [|i l].
  - right. intros [H _]. now apply H.
  - destruct (Z.eq_dec (onlineInstanceCount ssmInstances)
                       (ec2InstanceCount ec2Instances)) as [E|E].
    + left. split; [discriminate|exact E].
    + right. intros [_ H]. now apply E.
Qed.

Lemma checkTargetInstances_ready ec2Instances ssmInstances h :
  ready ec2Instances ssmInstances ->
  checkTargetInstances ec2Instances ssmInstances h
  = (Val (Return None),
     [LogInfo (onlineMessage (ec2InstanceCount ec2Instances)
                             (ec2InstanceCount ec2Instances))]).
Proof.
  intros [Hne Heq]. rewrite checkTargetInstances_eq. cbv zeta.
  destruct (InstanceInformationList ssmInstances); [now elim Hne|].
  rewrite Heq, Z.eqb_refl. reflexivity.
Qed.

Lemma checkTargetInstances_not_ready ec2Instances ssmInstances h :
  ~ ready ec2Instances ssmInstances ->
  exists evs,
    checkTargetInstances ec2Instances ssmInstances h = (Val Next, evs) /\
    count isSleep evs = 1%nat /\
    evs = filter (fun e => negb (isCall e)) evs /\
    (forall msg, ~ In (LogError msg) evs).
Proof.
  intros Hn. rewrite checkTargetInstances_eq. cbv zeta.
  destruct (InstanceInformationList ssmInstances) as [|i l] eqn:El.
  - eexists. repeat split. intros msg [H|[]]. discriminate.
  - destruct (Z.eqb_spec (onlineInstanceCount ssmInstances)
                         (ec2InstanceCount ec2Instances)) as [E|E].
    + elim Hn. split; [rewrite El; discriminate|exact E].
    + eexists. repeat split. intros msg [H|[H|[]]]; discriminate.
Qed.

Lemma checkTargetInstances_result ec2Instances ssmInstances h evs r :
  checkTargetInstances ec2Instances ssmInstances h = (Val (Return r), evs) ->
  r = None /\ ready ec2Instances ssmInstances /\
  evs = [LogInfo (onlineMessage (ec2InstanceCount ec2Instances)
                                (ec2InstanceCount ec2Instances))].
Proof.
  intros H. destruct (ready_dec ec2Instances ssmInstances) as [Hr|Hn].
  - rewrite (checkTargetInstances_ready _ _ _ Hr) in H.
    injection H as <- <-. auto.
  - destruct (checkTargetInstances_not_ready _ _ h Hn) as (e & He & _).
    rewrite He in H. discriminate.
Qed.

(** C3. One polling iteration of [waitForTargetInstances], in which both
    inventories were read: it returns nil if and only if the agent inventory
    is non-empty and the number of its online entries equals the number [N]
    of instances of the compute inventory.  When that holds it returns at
    once, without sleeping.  When the online count is below [N] it does not
    return: it sleeps once, and the loop goes on. *)
Theorem readiness_iteration_succeeds_iff
    clients ec2Filters ssmFilters h ec2Instances ssmInstances :
  ec2_DescribeInstances clients h ec2Filters = inr ec2Instances ->
  ssm_DescribeInstanceInformation clients
    (h ++ [CallDescribeInstances ec2Filters]) ssmFilters = inr ssmInstances ->
  let N := Z.of_nat (List.length (allInstances ec2Instances)) in
  let online :=
    Z.of_nat (List.length
                (filter isOnline (InstanceInformationList ssmInstances))) in
  let poll := pollTargetInstances clients ec2Filters ssmFilters h in
  (fst poll = Val (Return None)
   <-> InstanceInformationList ssmInstances <> [] /\ online = N)
  /\ (InstanceInformationList ssmInstances <> [] -> online = N ->
      poll = (Val (Return None),
              [CallDescribeInstances ec2Filters;
               CallDescribeInstanceInformation ssmFilters;
               LogInfo (onlineMessage N N)]))
  /\ (online < N -> fst poll = Val Next /\ count isSleep (snd poll) = 1%nat)
  /\ (Z.of_nat (List.length (InstanceInformationList ssmInstances)) = N ->
      (exists i, In i (InstanceInformationList ssmInstances)
                 /\ isOnline i = false) ->
      fst poll = Val Next).
Proof.
  intros He Hs N online poll.
  assert (Hpoll : poll =
    (fst (checkTargetInstances ec2Instances ssmInstances
            ((h ++ [CallDescribeInstances ec2Filters])
               ++ [CallDescribeInstanceInformation ssmFilters])),
     CallDescribeInstances ec2Filters
       :: CallDescribeInstanceInformation ssmFilters
       :: snd (checkTargetInstances ec2Instances ssmInstances
            ((h ++ [CallDescribeInstances ec2Filters])
               ++ [CallDescribeInstanceInformation ssmFilters])))).
  { unfold poll. rewrite pollTargetInstances_eq. cbv zeta.
    now rewrite He, Hs. }
  assert (Hready : ready ec2Instances ssmInstances
                   <-> InstanceInformationList ssmInstances <> []
                       /\ online = N).
  { unfold ready, online, N.
    now rewrite onlineInstanceCount_filter, ec2InstanceCount_flat. }
  assert (HN : ec2InstanceCount ec2Instances = N)
    by apply ec2InstanceCount_flat.
  assert (Hbelow : online < N -> fst poll = Val Next
                                 /\ count isSleep (snd poll) = 1%nat).
  { intros Hlt.
    assert (Hn : ~ ready ec2Instances ssmInstances).
    { rewrite Hready. intros [_ E]. lia. }
    destruct (checkTargetInstances_not_ready _ _
      ((h ++ [CallDescribeInstances ec2Filters])
         ++ [CallDescribeInstanceInformation ssmFilters]) Hn)
      as (evs & Hc & Hsl & _).
    rewrite Hpoll, Hc. cbn [fst snd]. split; [reflexivity|].
    unfold count in *. cbn [filter isSleep]. exact Hsl. }
  split; [|split; [|split]].
  - rewrite <- Hready. split.
    + intros Hf. rewrite Hpoll in Hf. cbn [fst] in Hf.
      destruct (checkTargetInstances _ _ _) as [r evs] eqn:Hc.
      cbn [fst] in Hf. subst r.
      now apply checkTargetInstances_result in Hc.
    + intros Hr. rewrite Hpoll, (checkTargetInstances_ready _ _ _ Hr).
      reflexivity.
  - intros Hne Heq.
    rewrite Hpoll, (checkTargetInstances_ready _ _ _ (proj2 Hready (conj Hne Heq))).
    now rewrite HN.
  - exact Hbelow.
  - intros Hlen (i & Hin & Hoff). apply Hbelow.
    unfold online. rewrite <- Hlen.
    pose proof (filter_length_lt isOnline _ i Hin Hoff). lia.
Qed.

(** The iteration of C3 on the two-instance fleet of [onlineEnv]. *)
Lemma readiness_iteration_succeeds_iff_witness :
  fst (pollTargetInstances onlineEnv [] [] []) = Val (Return None)
  <-> InstanceInformationList
        (agents [("i-1", "Online"); ("i-2", "Online")]) <> []
      /\ Z.of_nat (List.length
           (filter isOnline (InstanceInformationList
              (agents [("i-1", "Online"); ("i-2", "Online")]))))
         = Z.of_nat (List.length
             (allInstances (instancesOf ["i-1"; "i-2"]))).
Proof.
  exact (proj1 (readiness_iteration_succeeds_iff onlineEnv [] [] []
                  (instancesOf ["i-1"; "i-2"])
                  (agents [("i-1", "Online"); ("i-2", "Online")])
                  eq_refl eq_refl)).
Defined.

Lemma pollTargetInstances_returns_nil clients ec2Filters ssmFilters h evs :
  pollTargetInstances clients ec2Filters ssmFilters h
  = (Val (Return None), evs) ->
  exists ec2Instances ssmInstances,
    ec2_DescribeInstances clients h ec2Filters = inr ec2Instances /\
    ssm_DescribeInstanceInformation clients
      (h ++ [CallDescribeInstances ec2Filters]) ssmFilters
    = inr ssmInstances /\
    ready ec2Instances ssmInstances /\
    evs = [CallDescribeInstances ec2Filters;
           CallDescribeInstanceInformation ssmFilters;
           LogInfo (onlineMessage (ec2InstanceCount ec2Instances)
                                  (ec2InstanceCount ec2Instances))].
Proof.
  rewrite pollTargetInstances_eq. cbv zeta.
  destruct (ec2_DescribeInstances clients h ec2Filters)
    as [err|ec2Instances]; [discriminate|].
  destruct (ssm_DescribeInstanceInformation _ _ _)
    as [err|ssmInstances]; [discriminate|].
  destruct (checkTargetInstances _ _ _) as [r e] eqn:Hc. cbn [fst snd].
  intros H. injection H as -> <-.
  apply checkTargetInstances_result in Hc. destruct Hc as (_ & Hr & ->).
  now exists ec2Instances, ssmInstances.
Qed.

(** C1, as amended.  When [waitForTargetInstances] returns nil, its last
    iteration read a compute inventory and a non-empty agent inventory in
    which the number of online entries equals the number of compute
    instances, and it returned right after logging that.  An observation
    that does not satisfy this (an empty agent inventory, or an online
    count different from the compute count) is not an error: the iteration
    logs no error, sleeps once and the loop goes on. *)
Theorem readiness_wait_observes_online_count clients ec2Filters ssmFilters :
  (forall timeout h evs,
      waitForTargetInstances clients ec2Filters ssmFilters timeout h
      = (Val None, evs) ->
      exists pre ec2Instances ssmInstances,
        ec2_DescribeInstances clients (h ++ pre) ec2Filters
        = inr ec2Instances /\
        ssm_DescribeInstanceInformation clients
          ((h ++ pre) ++ [CallDescribeInstances ec2Filters]) ssmFilters
        = inr ssmInstances /\
        evs = pre ++
              [CallDescribeInstances ec2Filters;
               CallDescribeInstanceInformation ssmFilters;
               LogInfo (onlineMessage (ec2InstanceCount ec2Instances)
                                      (ec2InstanceCount ec2Instances))] /\
        InstanceInformationList ssmInstances <> [] /\
        Z.of_nat (List.length
                    (filter isOnline (InstanceInformationList ssmInstances)))
        = Z.of_nat (List.length (allInstances ec2Instances)))
  /\ (forall h ec2Instances ssmInstances,
      ec2_DescribeInstances clients h ec2Filters = inr ec2Instances ->
      ssm_DescribeInstanceInformation clients
        (h ++ [CallDescribeInstances ec2Filters]) ssmFilters
      = inr ssmInstances ->
      (InstanceInformationList ssmInstances = [] \/
       Z.of_nat (List.length
                   (filter isOnline (InstanceInformationList ssmInstances)))
       <> Z.of_nat (List.length (allInstances ec2Instances))) ->
      exists evs,
        pollTargetInstances clients ec2Filters ssmFilters h
        = (Val Next, evs) /\
        count isSleep evs = 1%nat /\
        (forall msg, ~ In (LogError msg) evs)).
Proof.
  split.
  - intros timeout h evs H. unfold waitForTargetInstances in H.
    apply forLoop_inv in H.
    destruct H as [(k & pre & e0 & _ & _ & Hb & ->)
                  |(pre & e0 & _ & Ha & _)].
    + apply pollTargetInstances_returns_nil in Hb.
      destruct Hb as (ec2Instances & ssmInstances & He & Hs & Hr & ->).
      exists pre, ec2Instances, ssmInstances.
      destruct Hr as [Hne Heq].
      rewrite onlineInstanceCount_filter, ec2InstanceCount_flat in Heq.
      auto.
    + unfold logError in Ha. rewrite bind_emit in Ha. discriminate.
  - intros h ec2Instances ssmInstances He Hs Hmis.
    assert (Hn : ~ ready ec2Instances ssmInstances).
    { unfold ready.
      rewrite onlineInstanceCount_filter, ec2InstanceCount_flat.
      intros [Hne Heq]. destruct Hmis as [E|E]; auto. }
    destruct (checkTargetInstances_not_ready _ _
      ((h ++ [CallDescribeInstances ec2Filters])
         ++ [CallDescribeInstanceInformation ssmFilters]) Hn)
      as (evs & Hc & Hsl & _ & Hnoerr).
    eexists. rewrite pollTargetInstances_eq. cbv zeta.
    rewrite He, Hs, Hc. cbn [fst snd]. split; [reflexivity|]. split.
    + unfold count in *. cbn [filter isSleep]. exact Hsl.
    + intros msg [H|[H|H]]; try discriminate. exact (Hnoerr msg H).
Qed.

(** The wait of C1 on [onlineEnv]: it returns nil from its first
    iteration, which observed two online entries for two instances. *)
Lemma readiness_wait_observes_online_count_witness :
  exists pre ec2Instances ssmInstances,
    ec2_DescribeInstances onlineEnv ([] ++ pre) [] = inr ec2Instances /\
    ssm_DescribeInstanceInformation onlineEnv
      (([] ++ pre) ++ [CallDescribeInstances []]) [] = inr ssmInstances /\
    [CallDescribeInstances []; CallDescribeInstanceInformation [];
     LogInfo "2 of 2 target instances are online."]
    = pre ++
      [CallDescribeInstances [];
       CallDescribeInstanceInformation [];
       LogInfo (onlineMessage (ec2InstanceCount ec2Instances)
                              (ec2InstanceCount ec2Instances))] /\
    InstanceInformationList ssmInstances <> [] /\
    Z.of_nat (List.length
                (filter isOnline (InstanceInformationList ssmInstances)))
    = Z.of_nat (List.length (allInstances ec2Instances)).
Proof.
  apply (proj1 (readiness_wait_observes_online_count onlineEnv [] [])
               waitTimeout []).
  vm_compute. reflexivity.
Defined.

(** C1, as stated, fails on [staleEnv]: the wait returns nil from its first
    iteration although the agent inventory has three entries for two compute
    instances, and one of the three is not online. *)
Lemma readiness_wait_accepts_mismatch :
  waitForTargetInstances staleEnv [] [] waitTimeout []
  = (Val None,
     [CallDescribeInstances []; CallDescribeInstanceInformation [];
      LogInfo "2 of 2 target instances are online."])
  /\ (forall h filters,
        exists ec2Instances,
          ec2_DescribeInstances staleEnv h filters = inr ec2Instances /\
          List.length (allInstances ec2Instances) = 2%nat)
  /\ (forall h filters,
        exists ssmInstances,
          ssm_DescribeInstanceInformation staleEnv h filters
          = inr ssmInstances /\
          List.length (InstanceInformationList ssmInstances) = 3%nat /\
          exists i, In i (InstanceInformationList ssmInstances)
                    /\ isOnline i = false).
Proof.
  split; [vm_compute; reflexivity|]. split.
  - intros h filters. eexists. split; reflexivity.
  - intros h filters. eexists. split; [reflexivity|]. split; [reflexivity|].
    exists {| ssmtypes.InstanceId := Some "i-0";
              ssmtypes.PingStatus := "ConnectionLost" |}.
    split; [cbn; auto|reflexivity].
Qed.

(** ** The invocation waiter *)

Lemma waitForCommandInvocations_eq clients commandId t h :
  waitForCommandInvocations clients commandId (Some t) h
  = forLoop (attempts t) (pollCommandInvocations clients commandId)
      invocationsTimedOut h.
Proof.
  unfold waitForCommandInvocations. cbn [deref]. now rewrite bind_ret.
Qed.

Lemma isFailing_not_pending status :
  isFailing status = true -> isPending status = false.
Proof.
  unfold isFailing, isPending. intros H.
  apply orb_true_iff in H. destruct H as [H|H];
    [apply orb_true_iff in H; destruct H as [H|H]|];
    apply String.eqb_eq in H; subst status; reflexivity.
Qed.

Lemma isFailing_lower status :
  isFailing status = true ->
  (status = "Cancelled" /\ ToLower status = "cancelled") \/
  (status = "TimedOut" /\ ToLower status = "timedout") \/
  (status = "Failed" /\ ToLower status = "failed").
Proof.
  unfold isFailing. intros H.
  apply orb_true_iff in H. destruct H as [H|H];
    [apply orb_true_iff in H; destruct H as [H|H]|];
    apply String.eqb_eq in H; subst status; auto.
Qed.

Lemma firstFailing_some invocations inv :
  In inv invocations -> isFailing (ssmtypes.Status inv) = true ->
  exists bad,
    firstFailing invocations = Some bad /\ In bad invocations /\
    isFailing (ssmtypes.Status bad) = true.
Proof.
  induction invocations as [|i l IH]; cbn [In firstFailing]; [tauto|].
  intros [->|Hin] Hf.
  - rewrite (isFailing_not_pending _ Hf), Hf. exists inv. auto.
  - destruct (IH Hin Hf) as (bad & Hb & Hin' & Hf').
    destruct (isPending _); [exists bad; auto|].
    destruct (isFailing (ssmtypes.Status i)) eqn:Hi; [exists i|exists bad];
      auto.
Qed.

Lemma rangeInvocations_failing commandId invocations bad instanceId :
  firstFailing invocations = Some bad ->
  ssmtypes.InvInstanceId bad = Some instanceId ->
  forall pending h,
    rangeInvocations commandId invocations pending h
    = (Val (inr (Some (invocationError (ssmtypes.Status bad) instanceId))),
       [LogInfo (invocationMessage commandId (ssmtypes.Status bad)
                                   instanceId)]).
Proof.
  intros Hff Hid.
  induction invocations as [|i l IH]; cbn [firstFailing] in Hff;
    [discriminate|].
  intros pending h. cbn [rangeInvocations]. cbv zeta.
  destruct (isPending (ssmtypes.Status i)); [now apply IH|].
  destruct (isFailing (ssmtypes.Status i)); [|now apply IH].
  injection Hff as ->. rewrite Hid. cbn [deref].
  rewrite bind_ret. unfold logInfo. rewrite bind_emit. reflexivity.
Qed.

Lemma rangeInvocations_none commandId invocations :
  firstFailing invocations = None ->
  forall pending h,
    rangeInvocations commandId invocations pending h
    = (Val (inl (pending
                 + Z.of_nat
                     (List.length
                        (filter (fun i => isPending (ssmtypes.Status i))
                                invocations)))), []).
Proof.
  induction invocations as [|i l IH]; cbn [firstFailing]; intros Hff pending h.
  - cbn. now rewrite Z.add_0_r.
  - cbn [rangeInvocations filter]. cbv zeta.
    destruct (isPending (ssmtypes.Status i)).
    + rewrite (IH Hff). cbn [List.length]. do 3 f_equal. lia.
    + destruct (isFailing (ssmtypes.Status i)); [discriminate|].
      now rewrite (IH Hff).
Qed.

Lemma pollCommandInvocations_eq clients commandId h :
  pollCommandInvocations clients commandId h =
  let c := CallListCommandInvocations commandId in
  match ssm_ListCommandInvocations clients h commandId with
  | inl err => (Val (Return (Some err)), [c; LogError err])
  | inr output =>
      let r := checkCommandInvocations commandId output (h ++ [c]) in
      (fst r, c :: snd r)
  end.
Proof.
  unfold pollCommandInvocations, ListCommandInvocations.
  rewrite bind_call. cbv zeta.
  destruct (ssm_ListCommandInvocations clients h commandId); reflexivity.
Qed.

Lemma checkCommandInvocations_empty commandId output h :
  CommandInvocations output = [] ->
  checkCommandInvocations commandId output h = (Val Next, [Sleep sleepTime]).
Proof.
  intros E. unfold checkCommandInvocations. rewrite E. reflexivity.
Qed.

Lemma checkCommandInvocations_failing commandId output bad instanceId h :
  firstFailing (CommandInvocations output) = Some bad ->
  ssmtypes.InvInstanceId bad = Some instanceId ->
  checkCommandInvocations commandId output h
  = (Val (Return (Some (invocationError (ssmtypes.Status bad) instanceId))),
     [LogInfo (invocationMessage commandId (ssmtypes.Status bad)
                                 instanceId)]).
Proof.
  intros Hff Hid. unfold checkCommandInvocations.
  destruct (CommandInvocations output) as [|i l] eqn:E; [discriminate|].
  replace (Z.of_nat (List.length (i :: l)) =? 0) with false
    by (symmetry; apply Z.eqb_neq; cbn [List.length]; lia).
  rewrite (bind_val_eq _ _ _ _ _
             (rangeInvocations_failing commandId _ _ _ Hff Hid 0 h)).
  reflexivity.
Qed.

(** C4. A listing of [waitForCommandInvocations] in which some invocation is
    Cancelled, TimedOut or Failed (such invocations carrying their instance
    identifier) makes that iteration return an error, whether or
    not other invocations are Pending or InProgress.  The error names the
    status, in lower case, and the instance of the first such invocation of
    the listing; nothing follows the listing but the log line of that
    invocation, and the whole wait returns this error from whatever
    iteration made the listing. *)
Theorem failing_invocation_fails_wait
    clients commandId h output inv :
  ssm_ListCommandInvocations clients h commandId = inr output ->
  In inv (CommandInvocations output) ->
  isFailing (ssmtypes.Status inv) = true ->
  (forall i, In i (CommandInvocations output) ->
             isFailing (ssmtypes.Status i) = true ->
             ssmtypes.InvInstanceId i <> None) ->
  exists bad instanceId lower,
    In bad (CommandInvocations output) /\
    firstFailing (CommandInvocations output) = Some bad /\
    ssmtypes.InvInstanceId bad = Some instanceId /\
    ((ssmtypes.Status bad = "Cancelled" /\ lower = "cancelled") \/
     (ssmtypes.Status bad = "TimedOut" /\ lower = "timedout") \/
     (ssmtypes.Status bad = "Failed" /\ lower = "failed")) /\
    let err :=
      ("command invocation " ++ lower ++ " on " ++ instanceId
         ++ " instance")%string in
    let evs :=
      [CallListCommandInvocations commandId;
       LogInfo (invocationMessage commandId (ssmtypes.Status bad)
                                  instanceId)] in
    pollCommandInvocations clients commandId h
    = (Val (Return (Some err)), evs) /\
    forall timeout k h0 pre,
      h = h0 ++ pre ->
      nexts k (pollCommandInvocations clients commandId) h0 pre ->
      (k < attempts timeout)%nat ->
      waitForCommandInvocations clients commandId (Some timeout) h0
      = (Val (Some err), pre ++ evs).
Proof.
  intros Hl Hin Hf Hids.
  destruct (firstFailing_some _ _ Hin Hf) as (bad & Hff & Hbin & Hbf).
  destruct (ssmtypes.InvInstanceId bad) as [instanceId|] eqn:Hid;
    [|now elim (Hids bad Hbin Hbf)].
  exists bad, instanceId, (ToLower (ssmtypes.Status bad)).
  split; [exact Hbin|]. split; [exact Hff|]. split; [exact Hid|].
  split.
  { destruct (isFailing_lower _ Hbf) as [[E1 E2]|[[E1 E2]|[E1 E2]]];
      rewrite E1 in *; auto. }
  cbv zeta.
  assert (Hpoll :
    pollCommandInvocations clients commandId h
    = (Val (Return (Some (invocationError (ssmtypes.Status bad) instanceId))),
       [CallListCommandInvocations commandId;
        LogInfo (invocationMessage commandId (ssmtypes.Status bad)
                                   instanceId)])).
  { rewrite pollCommandInvocations_eq. cbv zeta. rewrite Hl.
    now rewrite (checkCommandInvocations_failing _ _ _ _ _ Hff Hid). }
  split; [exact Hpoll|].
  intros timeout k h0 pre -> Hn Hlt.
  rewrite waitForCommandInvocations_eq.
  exact (forLoop_return _ _ _ _ _ _ _ _ Hlt Hn Hpoll).
Qed.

(** The listing of [failingEnv]: one invocation pending, one failed. *)
Lemma failing_invocation_fails_wait_witness :
  waitForCommandInvocations failingEnv "cmd-1" (Some 600) []
  = (Val (Some "command invocation failed on i-2 instance"),
     [CallListCommandInvocations "cmd-1";
      LogInfo "Command cmd-1 invocation Failed on instance i-2."]).
Proof.
  destruct (failing_invocation_fails_wait failingEnv "cmd-1" []
              (invocationsOf [("i-1", "Pending"); ("i-2", "Failed")])
              {| ssmtypes.InvInstanceId := Some "i-2";
                 ssmtypes.Status := "Failed" |}
              eq_refl
              ltac:(cbn; auto)
              eq_refl
              ltac:(cbn; intros i [<-|[<-|[]]] _; discriminate))
    as (bad & instanceId & lower & _ & Hff & Hid & Hst & _ & Hwait).
  vm_compute in Hff. injection Hff as <-.
  vm_compute in Hid. injection Hid as <-.
  assert (lower = "failed") as ->
    by (destruct Hst as [[E _]|[[E _]|[_ E]]]; [discriminate..|exact E]).
  exact (Hwait 600 0%nat [] [] eq_refl eq_refl
           ltac:(change (0 < 60)%nat; lia)).
Defined.

Lemma rangeInvocations_panic commandId invocations bad :
  firstFailing invocations = Some bad ->
  ssmtypes.InvInstanceId bad = None ->
  forall pending h,
    rangeInvocations commandId invocations pending h = (Panic, []).
Proof.
  intros Hff Hid.
  induction invocations as [|i l IH]; cbn [firstFailing] in Hff;
    [discriminate|].
  intros pending h. cbn [rangeInvocations]. cbv zeta.
  destruct (isPending (ssmtypes.Status i)); [now apply IH|].
  destruct (isFailing (ssmtypes.Status i)); [|now apply IH].
  injection Hff as ->. now rewrite Hid.
Qed.

Lemma checkCommandInvocations_next commandId output h e :
  checkCommandInvocations commandId output h = (Val Next, e) ->
  e = [Sleep sleepTime].
Proof.
  unfold checkCommandInvocations.
  destruct (Z.of_nat (List.length (CommandInvocations output)) =? 0).
  - unfold sleep. rewrite bind_emit. cbn. congruence.
  - destruct (firstFailing (CommandInvocations output)) as [bad|] eqn:Hff.
    + destruct (ssmtypes.InvInstanceId bad) as [instanceId|] eqn:Hid.
      * rewrite (bind_val_eq _ _ _ _ _
          (rangeInvocations_failing commandId _ _ _ Hff Hid 0 h)).
        discriminate.
      * rewrite (bind_panic _ _ _ _
          (rangeInvocations_panic commandId _ _ Hff Hid 0 h)).
        discriminate.
    + rewrite (bind_val_eq _ _ _ _ _
          (rangeInvocations_none commandId _ Hff 0 h)).
      destruct (_ =? 0); cbn; [discriminate|]. congruence.
Qed.

Lemma pollCommandInvocations_next clients commandId h e :
  pollCommandInvocations clients commandId h = (Val Next, e) ->
  e = [CallListCommandInvocations commandId; Sleep sleepTime].
Proof.
  rewrite pollCommandInvocations_eq. cbv zeta.
  destruct (ssm_ListCommandInvocations clients h commandId) as [err|output];
    [discriminate|].
  destruct (checkCommandInvocations _ _ _) as [r e'] eqn:Hc. cbn [fst snd].
  intros H. injection H as -> <-.
  now rewrite (checkCommandInvocations_next _ _ _ _ Hc).
Qed.

Lemma pollTargetInstances_next clients ec2Filters ssmFilters h e :
  pollTargetInstances clients ec2Filters ssmFilters h = (Val Next, e) ->
  count isDescribeInstancesCall e = 1%nat /\ count isSleep e = 1%nat.
Proof.
  rewrite pollTargetInstances_eq. cbv zeta.
  destruct (ec2_DescribeInstances clients h ec2Filters)
    as [err|ec2Instances]; [discriminate|].
  destruct (ssm_DescribeInstanceInformation _ _ _)
    as [err|ssmInstances]; [discriminate|].
  rewrite checkTargetInstances_eq. cbv zeta.
  destruct (InstanceInformationList ssmInstances).
  - cbn [fst snd]. intros H. injection H as <-. now split.
  - destruct (_ =? _); cbn [fst snd]; [discriminate|].
    intros H. injection H as <-. now split.
Qed.

(** ** The budget of attempts *)

Lemma attempts_floor timeout :
  Z.of_nat (attempts timeout) = Z.max 0 (timeout / sleepTime).
Proof.
  unfold attempts, iterations, sleepTime.
  destruct (Z.le_gt_cases 0 timeout) as [Hle|Hlt].
  - rewrite Z.quot_div_nonneg by lia.
    pose proof (Z.div_pos timeout 10 Hle ltac:(lia)). lia.
  - assert (Z.quot timeout 10 <= 0).
    { rewrite <- (Z.opp_involutive timeout), Z.quot_opp_l by lia.
      pose proof (Z.quot_pos (- timeout) 10 ltac:(lia) ltac:(lia)). lia. }
    assert (timeout / 10 < 0) by (apply Z.div_lt_upper_bound; lia).
    lia.
Qed.

Lemma attempts_below timeout : timeout < sleepTime -> attempts timeout = 0%nat.
Proof.
  intros Hlt. apply Nat2Z.inj. rewrite attempts_floor.
  unfold sleepTime in *.
  assert (timeout / 10 <= 0).
  { destruct (Z.le_gt_cases 0 timeout) as [Hle|Hneg].
    - rewrite Z.div_small; lia.
    - assert (timeout / 10 < 0) by (apply Z.div_lt_upper_bound; lia). lia. }
  lia.
Qed.

Lemma attempts_step timeout :
  sleepTime <= timeout ->
  attempts timeout = S (attempts (timeout - sleepTime)).
Proof.
  intros Hle. apply Nat2Z.inj. rewrite Nat2Z.inj_succ, !attempts_floor.
  unfold sleepTime in *.
  replace timeout with ((timeout - 10) + 1 * 10) at 1 by lia.
  rewrite Z.div_add by lia.
  pose proof (Z.div_pos (timeout - 10) 10 ltac:(lia) ltac:(lia)). lia.
Qed.

(** C8. A listing of [waitForCommandInvocations] with no invocation ends
    the iteration with one sleep of [sleepTime] seconds and neither a
    result nor an error; the wait then goes on as a wait with one attempt
    fewer.  Every iteration that goes on, for whatever reason, is charged
    the same single attempt. *)
Theorem empty_listing_is_retried clients commandId h output :
  ssm_ListCommandInvocations clients h commandId = inr output ->
  CommandInvocations output = [] ->
  let evs := [CallListCommandInvocations commandId; Sleep sleepTime] in
  pollCommandInvocations clients commandId h = (Val Next, evs)
  /\ (forall timeout,
        sleepTime <= timeout ->
        let rest :=
          waitForCommandInvocations clients commandId
            (Some (timeout - sleepTime)) (h ++ evs) in
        attempts timeout = S (attempts (timeout - sleepTime)) /\
        waitForCommandInvocations clients commandId (Some timeout) h
        = (fst rest, evs ++ snd rest))
  /\ (forall timeout h' e,
        sleepTime <= timeout ->
        pollCommandInvocations clients commandId h' = (Val Next, e) ->
        let rest :=
          waitForCommandInvocations clients commandId
            (Some (timeout - sleepTime)) (h' ++ e) in
        waitForCommandInvocations clients commandId (Some timeout) h'
        = (fst rest, e ++ snd rest)).
Proof.
  intros Hl He evs.
  assert (Hstep : forall timeout h' e,
    sleepTime <= timeout ->
    pollCommandInvocations clients commandId h' = (Val Next, e) ->
    waitForCommandInvocations clients commandId (Some timeout) h'
    = (fst (waitForCommandInvocations clients commandId
              (Some (timeout - sleepTime)) (h' ++ e)),
       e ++ snd (waitForCommandInvocations clients commandId
              (Some (timeout - sleepTime)) (h' ++ e)))).
  { intros timeout h' e Hle Hb.
    rewrite !waitForCommandInvocations_eq, (attempts_step _ Hle).
    now apply forLoop_step. }
  assert (Hpoll : pollCommandInvocations clients commandId h = (Val Next, evs)).
  { rewrite pollCommandInvocations_eq. cbv zeta. rewrite Hl.
    now rewrite (checkCommandInvocations_empty _ _ _ He). }
  split; [exact Hpoll|]. split.
  - intros timeout Hle. cbv zeta. split; [now apply attempts_step|].
    now apply Hstep.
  - intros timeout h' e Hle Hb. cbv zeta. now apply Hstep.
Qed.

(** [staleEnv] lists no invocation: a wait of 10 seconds makes one listing,
    sleeps, and times out. *)
Lemma empty_listing_is_retried_witness :
  pollCommandInvocations staleEnv "cmd-1" []
  = (Val Next, [CallListCommandInvocations "cmd-1"; Sleep 10])
  /\ waitForCommandInvocations staleEnv "cmd-1" (Some 10) []
     = (Val (Some "command invocations timed out"),
        [CallListCommandInvocations "cmd-1"; Sleep 10;
         LogError "Command invocations timed out."]).
Proof.
  destruct (empty_listing_is_retried staleEnv "cmd-1" [] (invocationsOf [])
              eq_refl eq_refl) as (Hpoll & Hwait & _).
  split; [exact Hpoll|].
  destruct (Hwait 10 ltac:(unfold sleepTime; lia)) as [_ Hw].
  rewrite Hw. vm_compute. reflexivity.
Defined.

Lemma targetsNotOnline_eq h :
  targetsNotOnline h
  = (Val (Some "target instances are not online"),
     [LogError "Target instances are not online."]).
Proof. reflexivity. Qed.

Lemma invocationsTimedOut_eq h :
  invocationsTimedOut h
  = (Val (Some "command invocations timed out"),
     [LogError "Command invocations timed out."]).
Proof. reflexivity. Qed.

(** C5. The budget of a waiter with timeout [T] is [floor (T / 10)]
    attempts, none when that is negative: 60 for [T = 600], none for
    [T < 10].  A wait whose attempts all go on (none returns a result or an
    error) makes exactly that many polls, each followed by one sleep, and
    then returns its timeout error; with [T < 10] it returns the timeout
    error without calling any service. *)
Theorem waiters_poll_floor_attempts
    clients ec2Filters ssmFilters commandId timeout h :
  Z.of_nat (attempts timeout) = Z.max 0 (timeout / sleepTime)
  /\ attempts 600 = 60%nat
  /\ (forall pre,
        nexts (attempts timeout)
              (pollTargetInstances clients ec2Filters ssmFilters) h pre ->
        waitForTargetInstances clients ec2Filters ssmFilters timeout h
        = (Val (Some "target instances are not online"),
           pre ++ [LogError "Target instances are not online."]) /\
        count isDescribeInstancesCall pre = attempts timeout /\
        count isSleep pre = attempts timeout)
  /\ (forall pre,
        nexts (attempts timeout)
              (pollCommandInvocations clients commandId) h pre ->
        waitForCommandInvocations clients commandId (Some timeout) h
        = (Val (Some "command invocations timed out"),
           pre ++ [LogError "Command invocations timed out."]) /\
        count isListCommandInvocationsCall pre = attempts timeout /\
        count isSleep pre = attempts timeout)
  /\ (timeout < sleepTime ->
        attempts timeout = 0%nat /\
        waitForTargetInstances clients ec2Filters ssmFilters timeout h
        = (Val (Some "target instances are not online"),
           [LogError "Target instances are not online."]) /\
        waitForCommandInvocations clients commandId (Some timeout) h
        = (Val (Some "command invocations timed out"),
           [LogError "Command invocations timed out."])).
Proof.
  split; [apply attempts_floor|]. split; [reflexivity|].
  split; [|split].
  - intros pre Hn. split; [|split].
    + unfold waitForTargetInstances.
      change (logError "Target instances are not online.";;
              ret (Some "target instances are not online"))
        with targetsNotOnline.
      rewrite (forLoop_nexts _ _ _ _ _ Hn). reflexivity.
    + apply (nexts_count _ isDescribeInstancesCall) in Hn; [exact Hn|].
      intros h' e Hb. now apply pollTargetInstances_next in Hb.
    + apply (nexts_count _ isSleep) in Hn; [exact Hn|].
      intros h' e Hb. now apply pollTargetInstances_next in Hb.
  - intros pre Hn. split; [|split].
    + rewrite waitForCommandInvocations_eq.
      rewrite (forLoop_nexts _ _ _ _ _ Hn). reflexivity.
    + apply (nexts_count _ isListCommandInvocationsCall) in Hn; [exact Hn|].
      intros h' e Hb. apply pollCommandInvocations_next in Hb. now subst e.
    + apply (nexts_count _ isSleep) in Hn; [exact Hn|].
      intros h' e Hb. apply pollCommandInvocations_next in Hb. now subst e.
  - intros Hlt. pose proof (attempts_below _ Hlt) as H0.
    split; [exact H0|]. split.
    + unfold waitForTargetInstances. rewrite H0. reflexivity.
    + rewrite waitForCommandInvocations_eq, H0. reflexivity.
Qed.

(** An environment that answers every call the same way and is not ready
    keeps the readiness waiter polling for any number of attempts. *)
Lemma waitingEnv_nexts n :
  forall h, exists pre,
    nexts n (pollTargetInstances waitingEnv [] []) h pre.
Proof.
  induction n as [|n IH]; intros h; [now exists []|].
  destruct (IH (h ++ [CallDescribeInstances [];
                      CallDescribeInstanceInformation [];
                      LogInfo "1 of 2 target instances are online.";
                      Sleep 10])) as [rest Hn].
  eexists. cbn [nexts]. eexists. exists rest.
  split; [reflexivity|]. split; [exact Hn|reflexivity].
Defined.

(** On [waitingEnv], where one of two instances stays offline, a wait of 600
    seconds polls 60 times, sleeps 60 times and times out. *)
Lemma waiters_poll_floor_attempts_witness :
  exists pre,
    waitForTargetInstances waitingEnv [] [] 600 []
    = (Val (Some "target instances are not online"),
       pre ++ [LogError "Target instances are not online."]) /\
    count isDescribeInstancesCall pre = 60%nat /\
    count isSleep pre = 60%nat.
Proof.
  destruct (waitingEnv_nexts 60 []) as [pre Hn].
  exists pre.
  exact (proj1 (proj2 (proj2
           (waiters_poll_floor_attempts waitingEnv [] [] "cmd-1" 600 [])))
           pre Hn).
Defined.

(** ** Byte ranges of a string *)

Lemma substring_length s : forall n m,
  (n + m <= String.length s)%nat -> String.length (substring n m s) = m.
Proof.
  induction s as [|c s IH]; intros n m H; cbn [String.length] in H.
  - assert (n = 0%nat) by lia. assert (m = 0%nat) by lia. now subst.
  - destruct n as [|n].
    + destruct m as [|m]; [reflexivity|].
      cbn [substring String.length]. rewrite IH; lia.
    + cbn [substring]. apply IH. lia.
Qed.

Lemma substring_split s : forall n a b,
  (n + a + b <= String.length s)%nat ->
  substring n (a + b) s
  = (substring n a s ++ substring (n + a) b s)%string.
Proof.
  induction s as [|c s IH]; intros n a b H; cbn [String.length] in H.
  - assert (n = 0%nat) by lia. assert (a = 0%nat) by lia.
    assert (b = 0%nat) by lia. now subst.
  - destruct n as [|n].
    + destruct a as [|a]; [reflexivity|].
      cbn [Nat.add substring String.append]. f_equal.
      rewrite (IH 0%nat a b) by lia. reflexivity.
    + cbn [Nat.add substring]. apply IH. lia.
Qed.

Lemma substring_all s : substring 0 (String.length s) s = s.
Proof.
  induction s as [|c s IH]; [reflexivity|].
  cbn [String.length substring]. now rewrite IH.
Qed.

Lemma substring_none s : forall n,
  (n <= String.length s)%nat -> substring n 0 s = EmptyString.
Proof.
  induction s as [|c s IH]; intros n H; cbn [String.length] in H.
  - now destruct n.
  - destruct n as [|n]; [reflexivity|]. cbn [substring]. apply IH. lia.
Qed.

Lemma len_sub s lo hi :
  0 <= lo <= hi -> hi <= len s -> len (sub s lo hi) = hi - lo.
Proof.
  unfold len, sub. intros H1 H2. rewrite substring_length; lia.
Qed.

Lemma sub_split s lo mid hi :
  0 <= lo <= mid -> mid <= hi <= len s ->
  sub s lo hi = (sub s lo mid ++ sub s mid hi)%string.
Proof.
  unfold len, sub. intros H1 H2.
  replace (Z.to_nat (hi - lo))
    with (Z.to_nat (mid - lo) + Z.to_nat (hi - mid))%nat by lia.
  replace (Z.to_nat mid) with (Z.to_nat lo + Z.to_nat (mid - lo))%nat by lia.
  apply substring_split. lia.
Qed.

Lemma sub_all s : sub s 0 (len s) = s.
Proof.
  unfold sub, len. rewrite Z.sub_0_r, Nat2Z.id. apply substring_all.
Qed.

Lemma slice_eq s lo hi h :
  0 <= lo <= hi -> hi <= len s -> slice s lo hi h = (Val (sub s lo hi), []).
Proof.
  intros H1 H2. unfold slice.
  replace ((0 <=? lo) && (lo <=? hi) && (hi <=? len s)) with true;
    [reflexivity|].
  symmetry. rewrite !andb_true_iff, !Z.leb_le. lia.
Qed.

(** ** The pieces of a logged message *)

Lemma indices_length count : forall i, List.length (indices count i) = count.
Proof. induction count as [|k IH]; intros i; cbn; [|rewrite IH]; reflexivity. Qed.

Lemma indices_range count : forall i j,
  In j (indices count i) -> i <= j < i + Z.of_nat count.
Proof.
  induction count as [|k IH]; intros i j; cbn [indices In]; [tauto|].
  intros [<-|H]; [lia|]. apply IH in H. lia.
Qed.

Lemma forRange_pieces msg count : forall i h,
  0 <= i -> (i + Z.of_nat count) * maxLogMsgSize <= len msg ->
  forRange count i
    (fun i =>
       piece <- slice msg (i * maxLogMsgSize) ((i + 1) * maxLogMsgSize) ;;
       logInfo piece) h
  = (Val tt, map LogInfo (map (fullPiece msg) (indices count i))).
Proof.
  induction count as [|k IH]; intros i h Hi Hle; [reflexivity|].
  cbn [forRange indices map].
  assert (Hb :
    (piece <- slice msg (i * maxLogMsgSize) ((i + 1) * maxLogMsgSize) ;;
     logInfo piece) h = (Val tt, [LogInfo (fullPiece msg i)])).
  { assert (Hs : slice msg (i * maxLogMsgSize) ((i + 1) * maxLogMsgSize) h
                  = (Val (fullPiece msg i), []))
      by (apply slice_eq; unfold maxLogMsgSize in *; lia).
    rewrite (bind_val_eq _ _ _ _ _ Hs). reflexivity. }
  rewrite (bind_val_eq _ _ _ _ _ Hb).
  rewrite IH by (unfold maxLogMsgSize in *; lia). reflexivity.
Qed.

Lemma joined_app l1 l2 : joined (l1 ++ l2) = (joined l1 ++ joined l2)%string.
Proof.
  induction l1 as [|s l1 IH]; [reflexivity|].
  cbn [app joined fold_right]. fold (joined (l1 ++ l2)). fold (joined l1).
  rewrite IH. clear IH.
  induction s as [|c s IHs]; [reflexivity|].
  cbn [String.append]. now rewrite IHs.
Qed.

Lemma append_empty_r s : (s ++ "")%string = s.
Proof. induction s as [|c s IH]; [reflexivity|]. cbn. now rewrite IH. Qed.

Lemma joined_fullPieces msg count : forall i,
  0 <= i -> (i + Z.of_nat count) * maxLogMsgSize <= len msg ->
  joined (map (fullPiece msg) (indices count i))
  = sub msg (i * maxLogMsgSize) ((i + Z.of_nat count) * maxLogMsgSize).
Proof.
  induction count as [|k IH]; intros i Hi Hle.
  - cbn [indices map joined fold_right]. unfold sub.
    replace (Z.to_nat (_ - _)) with 0%nat by lia.
    symmetry. apply substring_none. unfold len, maxLogMsgSize in *. lia.
  - cbn [indices map joined fold_right]. fold (joined (map (fullPiece msg) (indices k (i + 1)))).
    rewrite IH by lia. unfold fullPiece.
    replace (i + 1 + Z.of_nat k) with (i + Z.of_nat (S k)) by lia.
    symmetry. apply sub_split; unfold maxLogMsgSize in *; lia.
Qed.

Lemma logMessage_eq msg h : logMessage msg h = (Val tt, map LogInfo (pieces msg)).
Proof.
  unfold logMessage, pieces. cbv zeta.
  assert (HL : 0 <= len msg) by (unfold len; lia).
  rewrite Z.quot_div_nonneg by (unfold maxLogMsgSize; lia).
  set (n := len msg / maxLogMsgSize).
  assert (Hn : 0 <= n /\ n * maxLogMsgSize <= len msg).
  { unfold n, maxLogMsgSize.
    pose proof (Z.div_pos (len msg) 65536 HL ltac:(lia)).
    pose proof (Z.mul_div_le (len msg) 65536 ltac:(lia)). lia. }
  unfold iterations.
  rewrite (bind_val_eq _ _ _ _ _
             (forRange_pieces msg (Z.to_nat n) 0 h ltac:(lia) ltac:(lia))).
  assert (Hs : forall h', slice msg (n * maxLogMsgSize) (len msg) h'
                 = (Val (sub msg (n * maxLogMsgSize) (len msg)), []))
    by (intros h'; apply slice_eq; unfold maxLogMsgSize in *; lia).
  rewrite (bind_val_eq _ _ _ _ _ (Hs _)). cbn [fst snd].
  unfold logInfo, emit. rewrite !map_app. reflexivity.
Qed.

(** C2, as amended.  [logMessage] never panics and logs a message of length
    [L] as exactly [floor (L / C) + 1] pieces, [C = 65536]: every piece but
    the last has length [C], the last has length [L mod C] (it is empty when
    [L] is a multiple of [C], zero included), and the pieces joined in order
    are the message.  The number of pieces is [ceil (L / C)] when [L] is not
    a multiple of [C], and one more than that when it is. *)
Theorem logMessage_pieces msg h :
  let L := len msg in
  let C := maxLogMsgSize in
  logMessage msg h = (Val tt, map LogInfo (pieces msg))
  /\ Z.of_nat (List.length (pieces msg)) = L / C + 1
  /\ Forall (fun p => len p = C) (removelast (pieces msg))
  /\ len (last (pieces msg) EmptyString) = L mod C
  /\ joined (pieces msg) = msg
  /\ (L mod C <> 0 -> Z.of_nat (List.length (pieces msg)) = ceilDiv L C)
  /\ (L mod C = 0 -> Z.of_nat (List.length (pieces msg)) = ceilDiv L C + 1).
Proof.
  intros L C.
  assert (HL : 0 <= L) by (unfold L, len; lia).
  assert (Hq : 0 <= L / C) by (apply Z.div_pos; unfold C, maxLogMsgSize; lia).
  assert (Hm : L = C * (L / C) + L mod C /\ 0 <= L mod C < C).
  { split; [apply Z.div_mod|apply Z.mod_pos_bound];
      unfold C, maxLogMsgSize; lia. }
  assert (Hlen : Z.of_nat (List.length (pieces msg)) = L / C + 1).
  { unfold pieces. cbv zeta.
    rewrite length_app, length_map, indices_length. cbn [List.length].
    fold L C. lia. }
  split; [apply logMessage_eq|]. split; [exact Hlen|].
  split; [|split; [|split; [|split]]].
  - unfold pieces. cbv zeta. rewrite removelast_last.
    apply Forall_forall. intros p Hin.
    apply in_map_iff in Hin. destruct Hin as (i & <- & Hin).
    apply indices_range in Hin. unfold fullPiece.
    fold L C in Hin. fold C.
    rewrite len_sub; fold L; unfold C, maxLogMsgSize in *; lia.
  - unfold pieces. cbv zeta. rewrite last_last. fold L C.
    rewrite len_sub; fold L; unfold C, maxLogMsgSize in *; lia.
  - unfold pieces. cbv zeta. rewrite joined_app. fold L C.
    rewrite joined_fullPieces by (fold L C; lia).
    cbn [joined fold_right]. rewrite append_empty_r.
    fold C. rewrite Z.add_0_l, Z2Nat.id by exact Hq.
    rewrite <- sub_split; fold L; [|unfold C, maxLogMsgSize in *; lia..].
    apply sub_all.
  - intros Hr. rewrite Hlen. unfold ceilDiv.
    apply (Z.div_unique _ _ _ (L mod C - 1)); unfold C, maxLogMsgSize in *; lia.
  - intros Hr. rewrite Hlen. unfold ceilDiv.
    enough ((L + C - 1) / C = L / C) by lia. symmetry.
    apply (Z.div_unique _ _ _ (C - 1)); unfold C, maxLogMsgSize in *; lia.
Qed.

(** C2, as stated, fails on the empty message: [ceil (0 / 65536)] is 0, and
    [logMessage] logs one (empty) piece. *)
Lemma logMessage_empty_not_ceil :
  exists evs,
    logMessage "" [] = (Val tt, evs) /\
    evs = [LogInfo ""] /\
    ceilDiv (len "") maxLogMsgSize = 0 /\
    Z.of_nat (List.length evs) <> ceilDiv (len "") maxLogMsgSize.
Proof.
  exists [LogInfo ""]. repeat split. vm_compute. discriminate.
Qed.

(** ** The final status lookup *)

(** C9. [GetCommand] lists the commands by the command identifier, once.
    It returns the first record of the answer with a nil error; when the
    answer holds no record it returns the zero-value record with a nil
    error; when the query fails it returns the zero-value record and the
    error of the query. *)
Theorem GetCommand_returns_record clients commandId h :
  snd (GetCommand clients commandId h) = [CallListCommands commandId]
  /\ match ssm_ListCommands clients h commandId with
     | inr commands =>
         match Commands commands with
         | [] =>
             fst (GetCommand clients commandId h)
             = Val (ssmtypes.zeroCommand, None)
         | found :: _ =>
             fst (GetCommand clients commandId h) = Val (found, None)
         end
     | inl err =>
         fst (GetCommand clients commandId h)
         = Val (ssmtypes.zeroCommand, Some err)
     end.
Proof.
  unfold GetCommand, ListCommands. rewrite bind_call. cbn [fst snd].
  destruct (ssm_ListCommands clients h commandId) as [err|commands].
  - split; reflexivity.
  - destruct (Commands commands); split; reflexivity.
Qed.

(** ** The output collector *)

Lemma append_length s1 s2 :
  String.length (s1 ++ s2)%string
  = (String.length s1 + String.length s2)%nat.
Proof. induction s1 as [|c s1 IH]; cbn; [|rewrite IH]; reflexivity. Qed.

Lemma printCommandOutput_listing clients prefix commandId s3Bucket h location :
  bucketUnset s3Bucket = false ->
  s3_GetBucketLocation clients h s3Bucket = inr location ->
  config_LoadDefaultConfig clients (h ++ [CallGetBucketLocation s3Bucket])
  = None ->
  exists rest,
    snd (printCommandOutput clients prefix commandId s3Bucket h)
    = [CallGetBucketLocation s3Bucket; CallLoadDefaultConfig;
       CallListObjectsV2 (LocationConstraint location) s3Bucket 1000
                         (keyPrefix prefix commandId)] ++ rest.
Proof.
  intros Hb Hloc Hcfg. unfold printCommandOutput. rewrite Hb.
  unfold GetBucketLocation, LoadDefaultConfig, ListObjectsV2.
  rewrite bind_call, Hloc. cbn [fst snd].
  rewrite bind_call, Hcfg. cbn [fst snd].
  rewrite bind_call. cbn [fst snd]. eexists. reflexivity.
Qed.

(** C10. The prefix of the object listing of [printCommandOutput] is the
    bare command identifier only for a nil key prefix.  A key prefix that
    is present is followed by a slash and the command identifier, also when
    it is the empty string, which gives a key that starts with the slash;
    the listing is made with this prefix. *)
Theorem keyPrefix_nil_or_slash commandId :
  keyPrefix None commandId = commandId
  /\ keyPrefix (Some "") commandId = String "/" commandId
  /\ keyPrefix (Some "") commandId <> keyPrefix None commandId
  /\ (forall p, keyPrefix (Some p) commandId = (p ++ "/" ++ commandId)%string)
  /\ (forall p, keyPrefix (Some p) commandId <> commandId)
  /\ (forall clients prefix s3Bucket h location,
        bucketUnset s3Bucket = false ->
        s3_GetBucketLocation clients h s3Bucket = inr location ->
        config_LoadDefaultConfig clients
          (h ++ [CallGetBucketLocation s3Bucket]) = None ->
        exists rest,
          snd (printCommandOutput clients prefix commandId s3Bucket h)
          = [CallGetBucketLocation s3Bucket; CallLoadDefaultConfig;
             CallListObjectsV2 (LocationConstraint location) s3Bucket 1000
                               (keyPrefix prefix commandId)] ++ rest).
Proof.
  assert (Hne : forall p, keyPrefix (Some p) commandId <> commandId).
  { intros p E. apply (f_equal String.length) in E. cbn [keyPrefix] in E.
    rewrite !append_length in E. cbn [String.length] in E. lia. }
  split; [reflexivity|]. split; [reflexivity|].
  split; [apply Hne|]. split; [reflexivity|]. split; [exact Hne|].
  intros. now apply printCommandOutput_listing.
Qed.

(** On [bucketEnv], with the empty string as key prefix, the objects are
    listed under the key of the command identifier after a slash. *)
Lemma keyPrefix_nil_or_slash_witness :
  exists rest,
    snd (printCommandOutput bucketEnv (Some "") "cmd-1" (Some "logs") [])
    = [CallGetBucketLocation (Some "logs"); CallLoadDefaultConfig;
       CallListObjectsV2 "eu-west-1" (Some "logs") 1000 "/cmd-1"] ++ rest.
Proof.
  exact (proj2 (proj2 (proj2 (proj2 (proj2
           (keyPrefix_nil_or_slash "cmd-1")))))
           bucketEnv (Some "") (Some "logs") []
           {| LocationConstraint := "eu-west-1" |}
           eq_refl eq_refl eq_refl).
Defined.

(** ** Case folding *)

Lemma lowerByte_N c :
  N_of_ascii (lowerByte c)
  = (if (65 <=? N_of_ascii c) && (N_of_ascii c <=? 90)
     then N_of_ascii c + 32 else N_of_ascii c)%N.
Proof.
  unfold lowerByte.
  destruct ((65 <=? N_of_ascii c) && (N_of_ascii c <=? 90))%N eqn:E;
    [|reflexivity].
  apply andb_true_iff in E. destruct E as [E1 E2].
  apply N.leb_le in E1, E2.
  apply N_ascii_embedding. lia.
Qed.

Lemma foldEqByte_lower c d :
  foldEqByte c d = true <-> lowerByte c = lowerByte d.
Proof.
  assert (Hinj : lowerByte c = lowerByte d
                 <-> N_of_ascii (lowerByte c) = N_of_ascii (lowerByte d)).
  { split; [congruence|]. intros E.
    rewrite <- (ascii_N_embedding (lowerByte c)), E.
    apply ascii_N_embedding. }
  rewrite Hinj, !lowerByte_N. unfold foldEqByte. cbv zeta.
  destruct (N.leb_spec 65 (N_of_ascii c)), (N.leb_spec (N_of_ascii c) 90),
           (N.leb_spec 65 (N_of_ascii d)), (N.leb_spec (N_of_ascii d) 90);
    cbn [andb];
    rewrite orb_true_iff, !andb_true_iff, !N.eqb_eq, !N.leb_le; lia.
Qed.

(** On keys of bytes below 0x80, [EqualFold] compares up to the case of
    the letters [A]..[Z]. *)
Lemma EqualFold_ascii s : forall t,
  isAscii s = true -> (EqualFold s t = true <-> ToLower s = ToLower t).
Proof.
  induction s as [|c s IH]; intros t Hs.
  - destruct t; cbn; split; congruence.
  - cbn [isAscii] in Hs. apply andb_true_iff in Hs. destruct Hs as [Hc Hs].
    destruct t as [|d t]; [cbn; split; congruence|].
    cbn [EqualFold ToLower]. rewrite Hc.
    rewrite andb_true_iff, foldEqByte_lower, (IH t Hs).
    split; [intros [-> ->]; reflexivity|].
    intros E. injection E as E1 E2. auto.
Qed.

(** ** The filter builder *)

Lemma rangeTargets_eq ssmTargets :
  Forall (fun t => ssmtypes.Key t <> None) ssmTargets ->
  forall ec2Filters ssmFilters h,
    rangeTargets ssmTargets ec2Filters ssmFilters h
    = (Val (ec2Filters ++ map ec2FilterOf ssmTargets,
            ssmFilters ++ map ssmFilterOf ssmTargets), []).
Proof.
  induction 1 as [|target rest Hkey _ IH]; intros ec2Filters ssmFilters h.
  - cbn. now rewrite !app_nil_r.
  - cbn [rangeTargets map]. unfold ec2FilterOf at 1, ssmFilterOf at 1.
    destruct (ssmtypes.Key target) as [key|]; [|now elim Hkey].
    cbn [deref]. rewrite bind_ret, IH, <- !app_assoc. reflexivity.
Qed.

Lemma rangeTargets_panic ssmTargets :
  Exists (fun t => ssmtypes.Key t = None) ssmTargets ->
  forall ec2Filters ssmFilters h,
    rangeTargets ssmTargets ec2Filters ssmFilters h = (Panic, []).
Proof.
  induction ssmTargets as [|target rest IH]; intros Hex ec2Filters ssmFilters h.
  - inversion Hex.
  - cbn [rangeTargets].
    destruct (ssmtypes.Key target) as [key|] eqn:Hkey; [|reflexivity].
    cbn [deref]. rewrite bind_ret. apply IH.
    inversion Hex; subst; [congruence|assumption].
Qed.

(** C6, as amended.  For targets that carry their key, the filter builder
    emits nothing and yields one compute filter and one agent filter per
    target, in the order of the targets, and then the compute filter that
    restricts the instance state to pending or running.  Both filters of a
    target carry its values.  The agent filter carries its key unchanged.
    The compute filter is named [instance-id] when the key equals
    [InstanceIds] under the case-insensitive comparison [EqualFold] (for a
    key of bytes below 0x80: when the two are equal up to the case of
    letters), and carries the key unchanged otherwise. *)
Theorem buildFilters_maps_targets ssmTargets h :
  Forall (fun t => ssmtypes.Key t <> None) ssmTargets ->
  buildFilters ssmTargets h
  = (Val (map ec2FilterOf ssmTargets ++ [stateFilter],
          map ssmFilterOf ssmTargets), [])
  /\ stateFilter
     = {| ec2types.Name := Some "instance-state-name";
          ec2types.Values := ["pending"; "running"] |}
  /\ (forall target key,
        In target ssmTargets -> ssmtypes.Key target = Some key ->
        ssmFilterOf target
        = {| ssmtypes.FKey := Some key;
             ssmtypes.FValues := ssmtypes.Values target |} /\
        ec2types.Values (ec2FilterOf target) = ssmtypes.Values target /\
        (EqualFold key "InstanceIds" = true ->
         ec2types.Name (ec2FilterOf target) = Some "instance-id") /\
        (EqualFold key "InstanceIds" = false ->
         ec2types.Name (ec2FilterOf target) = Some key) /\
        (isAscii key = true ->
         (EqualFold key "InstanceIds" = true
          <-> ToLower key = "instanceids")))
  /\ EqualFold "InstanceIds" "InstanceIds" = true.
Proof.
  intros Hkeys. split; [|split; [reflexivity|split; [|reflexivity]]].
  - unfold buildFilters.
    rewrite (bind_val_eq _ _ _ _ _ (rangeTargets_eq _ Hkeys [] [] h)).
    reflexivity.
  - intros target key _ Hkey. unfold ssmFilterOf, ec2FilterOf.
    rewrite Hkey. cbn [ec2types.Values ec2types.Name].
    split; [reflexivity|]. split; [reflexivity|].
    change ssmTargetInstanceIds with "InstanceIds".
    split; [intros ->; reflexivity|]. split; [intros ->; reflexivity|].
    intros Ha. apply (EqualFold_ascii key "InstanceIds" Ha).
Qed.

(** The example of the specification: the target [InstanceIds: i-1, i-2]. *)
Lemma buildFilters_maps_targets_witness :
  buildFilters [instanceIdsTarget] []
  = (Val ([ {| ec2types.Name := Some "instance-id";
               ec2types.Values := ["i-1"; "i-2"] |};
            {| ec2types.Name := Some "instance-state-name";
               ec2types.Values := ["pending"; "running"] |} ],
          [ {| ssmtypes.FKey := Some "InstanceIds";
               ssmtypes.FValues := ["i-1"; "i-2"] |} ]), []).
Proof.
  refine (proj1 (buildFilters_maps_targets [instanceIdsTarget] [] _)).
  constructor; [discriminate|constructor].
Defined.

(** C6, as stated, fails on the key [instanceids]: it is not the reserved
    key, and it does not pass unchanged into the compute filters. *)
Lemma buildFilters_folds_other_key :
  "instanceids" <> ssmTargetInstanceIds
  /\ buildFilters
       [ {| ssmtypes.Key := Some "instanceids";
            ssmtypes.Values := ["i-1"] |} ] []
     = (Val ([ {| ec2types.Name := Some "instance-id";
                  ec2types.Values := ["i-1"] |};
               stateFilter ],
             [ {| ssmtypes.FKey := Some "instanceids";
                  ssmtypes.FValues := ["i-1"] |} ]), []).
Proof. split; [discriminate|reflexivity]. Qed.

(** ** The orchestration *)

(** The collector leaves a trace whenever it runs: the log line of the
    unset bucket, or the lookup of the bucket's region. *)
Lemma printCommandOutput_runs clients prefix commandId s3Bucket h :
  exists first rest,
    snd (printCommandOutput clients prefix commandId s3Bucket h)
    = first :: rest /\
    first
    = if bucketUnset s3Bucket
      then LogInfo
             "The output S3 bucket is not specified for ssm_command resource."
      else CallGetBucketLocation s3Bucket.
Proof.
  unfold printCommandOutput. destruct (bucketUnset s3Bucket).
  - unfold logInfo. rewrite bind_emit. cbn [snd]. eauto.
  - unfold GetBucketLocation. rewrite bind_call. cbn [snd]. eauto.
Qed.

Lemma RunCommand_eq clients documentName parameters ssmTargets
    executionTimeout comment s3Bucket s3KeyPrefix h
    fs e1 output command commandId werr e2 :
  let input := sendInput documentName parameters ssmTargets comment
                         s3Bucket s3KeyPrefix in
  buildFilters ssmTargets h = (Val fs, []) ->
  waitForTargetInstances clients (fst fs) (snd fs) waitTimeout h
  = (Val None, e1) ->
  ssm_SendCommand clients (h ++ e1) input = inr output ->
  OutCommand output = Some command ->
  ssmtypes.CommandId command = Some commandId ->
  waitForCommandInvocations clients commandId executionTimeout
    ((h ++ e1) ++ [CallSendCommand input]) = (Val werr, e2) ->
  let h3 := ((h ++ e1) ++ [CallSendCommand input]) ++ e2 in
  let collect := printCommandOutput clients s3KeyPrefix commandId s3Bucket h3 in
  let tail :=
    match fst collect with
    | Panic => (Panic, [])
    | Val _ =>
        match werr with
        | Some e => (Val (ssmtypes.zeroCommand, Some e), [LogError e])
        | None => GetCommand clients commandId (h3 ++ snd collect)
        end
    end in
  RunCommand clients documentName parameters ssmTargets executionTimeout
             comment s3Bucket s3KeyPrefix h
  = (fst tail,
     e1 ++ [CallSendCommand input] ++ e2 ++ snd collect ++ snd tail).
Proof.
  intros input Hf Hw Hs Hc Hid Hi h3 collect tail.
  unfold RunCommand.
  rewrite (bind_val_eq _ _ _ _ _ Hf), app_nil_r. cbn [app].
  rewrite (bind_val_eq _ _ _ _ _ Hw). cbn [fst snd].
  unfold SendCommand. rewrite bind_call. fold input. rewrite Hs.
  rewrite Hc. cbn [deref]. rewrite bind_ret.
  rewrite Hid. cbn [deref]. rewrite bind_ret.
  rewrite (bind_val_eq _ _ _ _ _ Hi). fold h3. cbn [fst snd].
  unfold tail, collect. clear tail collect.
  destruct (printCommandOutput clients s3KeyPrefix commandId s3Bucket h3)
    as [r e3] eqn:Hp.
  cbn [fst snd]. destruct r as [perr|].
  - rewrite (bind_val_eq _ _ _ _ _ Hp).
    destruct werr as [e|].
    + unfold logError. rewrite bind_emit. reflexivity.
    + reflexivity.
  - rewrite (bind_panic _ _ _ _ Hp). cbn [fst snd].
    now rewrite ?app_nil_r.
Qed.

(** C7. Once the command is sent and [waitForCommandInvocations] has
    returned, with an error or without, [RunCommand] runs
    [printCommandOutput] on the history the waiter left; the collector
    always leaves events of its own.  Whatever the collector returns, an
    error or nil, does not reach the result: when the waiter returned an
    error, [RunCommand] logs it and returns the zero-value command with
    the waiter's error; when the waiter returned nil, the result is that
    of [GetCommand]. *)
Theorem RunCommand_collects_then_reports
    clients documentName parameters ssmTargets executionTimeout
    comment s3Bucket s3KeyPrefix h
    fs e1 output command commandId werr e2 :
  let input := sendInput documentName parameters ssmTargets comment
                         s3Bucket s3KeyPrefix in
  buildFilters ssmTargets h = (Val fs, []) ->
  waitForTargetInstances clients (fst fs) (snd fs) waitTimeout h
  = (Val None, e1) ->
  ssm_SendCommand clients (h ++ e1) input = inr output ->
  OutCommand output = Some command ->
  ssmtypes.CommandId command = Some commandId ->
  waitForCommandInvocations clients commandId executionTimeout
    ((h ++ e1) ++ [CallSendCommand input]) = (Val werr, e2) ->
  let h3 := ((h ++ e1) ++ [CallSendCommand input]) ++ e2 in
  let collect := printCommandOutput clients s3KeyPrefix commandId s3Bucket h3 in
  let sofar := e1 ++ [CallSendCommand input] ++ e2 ++ snd collect in
  let run :=
    RunCommand clients documentName parameters ssmTargets executionTimeout
               comment s3Bucket s3KeyPrefix h in
  (exists post, snd run = sofar ++ post)
  /\ snd collect <> []
  /\ (forall perr e,
        fst collect = Val perr -> werr = Some e ->
        run = (Val (ssmtypes.zeroCommand, Some e), sofar ++ [LogError e]))
  /\ (forall perr,
        fst collect = Val perr -> werr = None ->
        run = (fst (GetCommand clients commandId (h3 ++ snd collect)),
               sofar ++ snd (GetCommand clients commandId
                                        (h3 ++ snd collect)))).
Proof.
  intros input Hf Hw Hs Hc Hid Hi h3 collect sofar run.
  pose proof (RunCommand_eq clients documentName parameters ssmTargets
                executionTimeout comment s3Bucket s3KeyPrefix h
                fs e1 output command commandId werr e2
                Hf Hw Hs Hc Hid Hi) as Hrun.
  cbv zeta in Hrun. fold input h3 collect run in Hrun.
  assert (Hassoc : forall post,
    e1 ++ [CallSendCommand input] ++ e2 ++ snd collect ++ post
    = sofar ++ post).
  { intros post. unfold sofar. now rewrite <- !app_assoc. }
  rewrite Hassoc in Hrun.
  split; [|split; [|split]].
  - eexists. rewrite Hrun. reflexivity.
  - destruct (printCommandOutput_runs clients s3KeyPrefix commandId
                s3Bucket h3) as (first & rest & E & _).
    unfold collect. rewrite E. discriminate.
  - intros perr e Hp ->. rewrite Hrun, Hp. reflexivity.
  - intros perr Hp ->. rewrite Hrun, Hp. reflexivity.
Qed.

(** On [failingEnv] the command fails on instance i-2: the collector still
    runs (here it reports that no bucket is set), and the result is the
    error of the waiter. *)
Lemma RunCommand_collects_then_reports_witness :
  RunCommand failingEnv (Some "AWS-RunShellScript") [] [instanceIdsTarget]
             (Some 600) None None None []
  = (Val (ssmtypes.zeroCommand,
          Some "command invocation failed on i-2 instance"),
     [CallDescribeInstances [ec2FilterOf instanceIdsTarget; stateFilter];
      CallDescribeInstanceInformation [ssmFilterOf instanceIdsTarget];
      LogInfo "2 of 2 target instances are online.";
      CallSendCommand
        (sendInput (Some "AWS-RunShellScript") [] [instanceIdsTarget]
                   None None None);
      CallListCommandInvocations "cmd-1";
      LogInfo "Command cmd-1 invocation Failed on instance i-2.";
      LogInfo "The output S3 bucket is not specified for ssm_command resource.";
      LogError "command invocation failed on i-2 instance"]).
Proof.
  exact (proj1 (proj2 (proj2
    (RunCommand_collects_then_reports failingEnv
       (Some "AWS-RunShellScript") [] [instanceIdsTarget]
       (Some 600) None None None []
       ([ec2FilterOf instanceIdsTarget; stateFilter],
        [ssmFilterOf instanceIdsTarget])
       [CallDescribeInstances [ec2FilterOf instanceIdsTarget; stateFilter];
        CallDescribeInstanceInformation [ssmFilterOf instanceIdsTarget];
        LogInfo "2 of 2 target instances are online."]
       {| OutCommand := Some (commandOf "cmd-1") |}
       (commandOf "cmd-1") "cmd-1"
       (Some "command invocation failed on i-2 instance")
       [CallListCommandInvocations "cmd-1";
        LogInfo "Command cmd-1 invocation Failed on instance i-2."]
       eq_refl eq_refl eq_refl eq_refl eq_refl eq_refl)))
    None "command invocation failed on i-2 instance" eq_refl eq_refl).
Defined.

(** ** Examples *)

Example EqualFold_exact : EqualFold "InstanceIds" "InstanceIds" = true.
Proof. reflexivity. Qed.

Example EqualFold_upper : EqualFold "INSTANCEIDS" "InstanceIds" = true.
Proof. reflexivity. Qed.

Example EqualFold_tag : EqualFold "tag:Name" "InstanceIds" = false.
Proof. reflexivity. Qed.

(** The long s, U+017F, folds with [s]. *)
Example EqualFold_long_s :
  EqualFold
    ("In" ++ String (ascii_of_nat 197) (String (ascii_of_nat 191) "tanceIds"))
    "InstanceIds" = true.
Proof. reflexivity. Qed.

Example attempts_negative : attempts (-5) = 0%nat.
Proof. reflexivity. Qed.

Example attempts_truncates : attempts 609 = 60%nat.
Proof. reflexivity. Qed.

(** A nil timeout panics before any listing. *)
Example waitForCommandInvocations_nil_timeout :
  waitForCommandInvocations failingEnv "cmd-1" None [] = (Panic, []).
Proof. reflexivity. Qed.

(** A successful run on [bucketEnv]: the output object is fetched and
    logged, and the command record is returned. *)
Example RunCommand_success :
  RunCommand bucketEnv (Some "AWS-RunShellScript") [] [instanceIdsTarget]
             (Some 600) None (Some "logs") (Some "out") []
  = (Val (commandOf "cmd-1", None),
     [CallDescribeInstances [ec2FilterOf instanceIdsTarget; stateFilter];
      CallDescribeInstanceInformation [ssmFilterOf instanceIdsTarget];
      LogInfo "2 of 2 target instances are online.";
      CallSendCommand
        (sendInput (Some "AWS-RunShellScript") [] [instanceIdsTarget]
                   None (Some "logs") (Some "out"));
      CallListCommandInvocations "cmd-1";
      CallGetBucketLocation (Some "logs"); CallLoadDefaultConfig;
      CallListObjectsV2 "eu-west-1" (Some "logs") 1000 "out/cmd-1";
      CallGetObject "eu-west-1" (Some "logs") (Some "out/cmd-1/i-1/stdout");
      LogInfo (newline ++ "*** out/cmd-1/i-1/stdout ***")%string;
      LogInfo "hello";
      CallListCommands "cmd-1"]).
Proof. vm_compute. reflexivity. Qed.

(** ** Events of composed computations *)

Lemma bind_run {A B} (m : M A) (k : A -> M B) h :
  bind m k h
  = match fst (m h) with
    | Val a => (fst (k a (h ++ snd (m h))), snd (m h) ++ snd (k a (h ++ snd (m h))))
    | Panic => (Panic, snd (m h))
    end.
Proof.
  unfold bind. destruct (m h) as [[a|] e1]; cbn [fst snd]; [|reflexivity].
  now destruct (k a (h ++ e1)).
Qed.

Lemma count_le_length p evs : (count p evs <= List.length evs)%nat.
Proof. apply filter_length_le. Qed.

(** A loop whose body emits at most one event of a kind per run, and whose
    epilogue emits none, emits at most as many as it has iterations. *)
Lemma forLoop_count_le {R} (body : M (Ctl R)) (after : M R)
    (p : Event -> bool) :
  (forall h, (count p (snd (body h)) <= 1)%nat) ->
  (forall h, count p (snd (after h)) = 0%nat) ->
  forall n h, (count p (snd (forLoop n body after h)) <= n)%nat.
Proof.
  intros Hb Ha. induction n as [|n IH]; intros h.
  - cbn [forLoop]. rewrite Ha. lia.
  - cbn [forLoop]. rewrite bind_run.
    specialize (Hb h). destruct (fst (body h)) as [[|r]|]; cbn [snd].
    + rewrite count_app. specialize (IH (h ++ snd (body h))). lia.
    + rewrite count_app. cbn. lia.
    + lia.
Qed.

(** A loop emits no more events of kind [p] than of kind [q] when that
    holds of every run of its body and of its epilogue. *)
Lemma forLoop_count_rel {R} (body : M (Ctl R)) (after : M R)
    (p q : Event -> bool) :
  (forall h, (count p (snd (body h)) <= count q (snd (body h)))%nat) ->
  (forall h, (count p (snd (after h)) <= count q (snd (after h)))%nat) ->
  forall n h,
    (count p (snd (forLoop n body after h))
     <= count q (snd (forLoop n body after h)))%nat.
Proof.
  intros Hb Ha. induction n as [|n IH]; intros h.
  - cbn [forLoop]. apply Ha.
  - cbn [forLoop]. rewrite bind_run.
    specialize (Hb h). destruct (fst (body h)) as [[|r]|]; cbn [snd].
    + rewrite !count_app. specialize (IH (h ++ snd (body h))). lia.
    + rewrite !count_app. cbn. lia.
    + exact Hb.
Qed.

(** A loop does not panic when neither its body nor its epilogue does. *)
Lemma forLoop_no_panic {R} (body : M (Ctl R)) (after : M R) :
  (forall h, fst (body h) <> Panic) ->
  (forall h, fst (after h) <> Panic) ->
  forall n h, fst (forLoop n body after h) <> Panic.
Proof.
  intros Hb Ha. induction n as [|n IH]; intros h.
  - cbn [forLoop]. apply Ha.
  - cbn [forLoop]. rewrite bind_run.
    specialize (Hb h). destruct (fst (body h)) as [[|r]|]; cbn [fst].
    + apply IH.
    + discriminate.
    + now elim Hb.
Qed.

(** ** More on the readiness waiter *)

(** What one run of the body of [waitForTargetInstances] can be. *)
Lemma pollTargetInstances_cases clients ec2Filters ssmFilters h :
  let c1 := CallDescribeInstances ec2Filters in
  let c2 := CallDescribeInstanceInformation ssmFilters in
  let poll := pollTargetInstances clients ec2Filters ssmFilters h in
  (exists err, poll = (Val (Return (Some err)), [c1; LogError err]))
  \/ (exists err, poll = (Val (Return (Some err)), [c1; c2; LogError err]))
  \/ (exists msg, poll = (Val (Return None), [c1; c2; LogInfo msg]))
  \/ (exists msg, poll = (Val Next, [c1; c2; LogInfo msg; Sleep sleepTime]))
  \/ poll = (Val Next, [c1; c2; Sleep sleepTime]).
Proof.
  cbv zeta. rewrite pollTargetInstances_eq. cbv zeta.
  destruct (ec2_DescribeInstances clients h ec2Filters)
    as [err|ec2Instances]; [left; eauto|].
  destruct (ssm_DescribeInstanceInformation _ _ _)
    as [err|ssmInstances]; [right; left; eauto|].
  rewrite checkTargetInstances_eq. cbv zeta.
  destruct (InstanceInformationList ssmInstances); [now repeat right|].
  destruct (_ =? _); cbn [fst snd]; [right; right; left|do 3 right; left];
    eauto.
Qed.

Lemma attempts_sleep_bound timeout :
  0 <= timeout -> sleepTime * Z.of_nat (attempts timeout) <= timeout.
Proof.
  intros Hle. rewrite attempts_floor. unfold sleepTime.
  pose proof (Z.div_pos timeout 10 Hle ltac:(lia)).
  pose proof (Z.mul_div_le timeout 10 ltac:(lia)). lia.
Qed.

(** X1. Whatever the services answer, [waitForTargetInstances] never
    panics, queries the compute inventory at most [floor (T / 10)] times
    (never, for a negative timeout), queries the agent inventory at most as
    often as the compute inventory, and sleeps at most as often as it
    queries; for a timeout [T >= 0] it therefore sleeps at most [T]
    seconds in all. *)
Theorem waitForTargetInstances_bounded
    clients ec2Filters ssmFilters timeout h :
  let run := waitForTargetInstances clients ec2Filters ssmFilters timeout h in
  fst run <> Panic
  /\ (count isDescribeInstancesCall (snd run) <= attempts timeout)%nat
  /\ (count isDescribeInstanceInformationCall (snd run)
      <= count isDescribeInstancesCall (snd run))%nat
  /\ (count isSleep (snd run)
      <= count isDescribeInstancesCall (snd run))%nat
  /\ Z.of_nat (attempts timeout) = Z.max 0 (timeout / sleepTime)
  /\ (0 <= timeout ->
      sleepTime * Z.of_nat (count isSleep (snd run)) <= timeout).
Proof.
  cbv zeta. unfold waitForTargetInstances.
  set (body := pollTargetInstances clients ec2Filters ssmFilters).
  set (after := (logError "Target instances are not online.";;
                 ret (Some "target instances are not online"))).
  assert (Hcase : forall h', _) by
    (intros h'; exact (pollTargetInstances_cases clients ec2Filters
                         ssmFilters h')).
  cbv zeta in Hcase. fold body in Hcase.
  assert (H1 : (count isDescribeInstancesCall
                  (snd (forLoop (attempts timeout) body after h))
                <= attempts timeout)%nat).
  { apply forLoop_count_le; [|reflexivity].
    intros h'. destruct (Hcase h')
      as [[e E]|[[e E]|[[m E]|[[m E]|E]]]]; rewrite E; cbn; lia. }
  assert (H2 : (count isSleep
                  (snd (forLoop (attempts timeout) body after h))
                <= count isDescribeInstancesCall
                     (snd (forLoop (attempts timeout) body after h)))%nat).
  { apply forLoop_count_rel; [|cbn; lia].
    intros h'. destruct (Hcase h')
      as [[e E]|[[e E]|[[m E]|[[m E]|E]]]]; rewrite E; cbn; lia. }
  split; [|split; [|split; [|split; [|split]]]].
  - apply forLoop_no_panic; [|discriminate].
    intros h'. destruct (Hcase h')
      as [[e E]|[[e E]|[[m E]|[[m E]|E]]]]; rewrite E; discriminate.
  - exact H1.
  - apply forLoop_count_rel; [|cbn; lia].
    intros h'. destruct (Hcase h')
      as [[e E]|[[e E]|[[m E]|[[m E]|E]]]]; rewrite E; cbn; lia.
  - exact H2.
  - apply attempts_floor.
  - intros Hle. pose proof (attempts_sleep_bound timeout Hle).
    unfold sleepTime in *. lia.
Qed.

(** A wait of 25 seconds on [waitingEnv]: two polls, twenty seconds of
    sleep. *)
Lemma waitForTargetInstances_bounded_witness :
  sleepTime
  * Z.of_nat (count isSleep
                (snd (waitForTargetInstances waitingEnv [] [] 25 [])))
  <= 25.
Proof.
  apply (proj2 (proj2 (proj2 (proj2 (proj2
           (waitForTargetInstances_bounded waitingEnv [] [] 25 [])))))).
  lia.
Defined.

(** X2. A query that fails ends [waitForTargetInstances] at once, in
    whatever iteration it happens: the error of the query is logged and
    returned, nothing is retried and nothing sleeps after it.  When the
    compute inventory fails, the agent inventory is not queried in that
    iteration. *)
Theorem waitForTargetInstances_query_error
    clients ec2Filters ssmFilters timeout k h pre err :
  nexts k (pollTargetInstances clients ec2Filters ssmFilters) h pre ->
  (k < attempts timeout)%nat ->
  let c1 := CallDescribeInstances ec2Filters in
  let c2 := CallDescribeInstanceInformation ssmFilters in
  let run := waitForTargetInstances clients ec2Filters ssmFilters timeout h in
  (ec2_DescribeInstances clients (h ++ pre) ec2Filters = inl err ->
   run = (Val (Some err), pre ++ [c1; LogError err]))
  /\ (forall ec2Instances,
        ec2_DescribeInstances clients (h ++ pre) ec2Filters
        = inr ec2Instances ->
        ssm_DescribeInstanceInformation clients ((h ++ pre) ++ [c1])
          ssmFilters = inl err ->
        run = (Val (Some err), pre ++ [c1; c2; LogError err])).
Proof.
  intros Hn Hlt c1 c2 run. split.
  - intros He. unfold run, waitForTargetInstances.
    apply (forLoop_return _ _ _ _ _ _ _ _ Hlt Hn).
    rewrite pollTargetInstances_eq. cbv zeta. now rewrite He.
  - intros ec2Instances He Hs. unfold run, waitForTargetInstances.
    unfold c1 in Hs.
    apply (forLoop_return _ _ _ _ _ _ _ _ Hlt Hn).
    rewrite pollTargetInstances_eq. cbv zeta. now rewrite He, Hs.
Qed.

(** On [noComputeEnv] the first query of the compute inventory fails. *)
Lemma waitForTargetInstances_query_error_witness :
  waitForTargetInstances noComputeEnv [] [] waitTimeout []
  = (Val (Some "ec2: request limit exceeded"),
     [CallDescribeInstances []; LogError "ec2: request limit exceeded"]).
Proof.
  exact (proj1 (waitForTargetInstances_query_error noComputeEnv [] []
                  waitTimeout 0 [] [] "ec2: request limit exceeded"
                  eq_refl ltac:(change (0 < 60)%nat; lia))
               eq_refl).
Defined.

(** X3. An iteration of [waitForTargetInstances] that finds fewer agent
    entries than compute instances (an instance that has not registered
    with the agent service yet) does not return: it sleeps once and the
    loop goes on.  The same holds of an empty agent inventory, whatever the
    compute inventory holds. *)
Theorem unregistered_instance_keeps_waiting
    clients ec2Filters ssmFilters h ec2Instances ssmInstances :
  ec2_DescribeInstances clients h ec2Filters = inr ec2Instances ->
  ssm_DescribeInstanceInformation clients
    (h ++ [CallDescribeInstances ec2Filters]) ssmFilters = inr ssmInstances ->
  (List.length (InstanceInformationList ssmInstances)
   < List.length (allInstances ec2Instances))%nat
  \/ InstanceInformationList ssmInstances = [] ->
  exists evs,
    pollTargetInstances clients ec2Filters ssmFilters h = (Val Next, evs) /\
    count isSleep evs = 1%nat /\ count isLogError evs = 0%nat.
Proof.
  intros He Hs Hfew.
  assert (Hn : ~ ready ec2Instances ssmInstances).
  { unfold ready.
    rewrite onlineInstanceCount_filter, ec2InstanceCount_flat.
    intros [Hne Heq]. destruct Hfew as [Hlt|E]; [|now apply Hne].
    pose proof (filter_length_le isOnline
                  (InstanceInformationList ssmInstances)). lia. }
  rewrite pollTargetInstances_eq. cbv zeta. rewrite He, Hs.
  rewrite checkTargetInstances_eq. cbv zeta.
  destruct (InstanceInformationList ssmInstances) as [|i l] eqn:El.
  - eexists. repeat split.
  - destruct (Z.eqb_spec (onlineInstanceCount ssmInstances)
                         (ec2InstanceCount ec2Instances)) as [E|E].
    + elim Hn. split; [rewrite El; discriminate|exact E].
    + eexists. repeat split.
Qed.

(** Two instances run; only one has registered, and it is online. *)
Lemma unregistered_instance_keeps_waiting_witness :
  exists evs,
    pollTargetInstances halfRegisteredEnv [] [] [] = (Val Next, evs) /\
    count isSleep evs = 1%nat /\ count isLogError evs = 0%nat.
Proof.
  apply (unregistered_instance_keeps_waiting halfRegisteredEnv [] [] []
           (instancesOf ["i-1"; "i-2"]) (agents [("i-1", "Online")])
           eq_refl eq_refl).
  left. cbn. lia.
Defined.

Lemma filter_none {A} (p : A -> bool) (l : list A) :
  (forall x, In x l -> p x = false) -> filter p l = [].
Proof.
  induction l as [|x l IH]; intros H; [reflexivity|].
  cbn [filter]. rewrite (H x (or_introl eq_refl)).
  apply IH. intros y Hy. apply H. now right.
Qed.

(** X4. With no compute instance matching, an iteration of
    [waitForTargetInstances] returns nil as soon as the agent inventory is
    non-empty and none of its entries is online: zero online entries for
    zero instances counts as ready. *)
Theorem no_compute_instance_is_ready
    clients ec2Filters ssmFilters h ec2Instances ssmInstances :
  ec2_DescribeInstances clients h ec2Filters = inr ec2Instances ->
  ssm_DescribeInstanceInformation clients
    (h ++ [CallDescribeInstances ec2Filters]) ssmFilters = inr ssmInstances ->
  allInstances ec2Instances = [] ->
  InstanceInformationList ssmInstances <> [] ->
  (forall i, In i (InstanceInformationList ssmInstances) ->
             isOnline i = false) ->
  pollTargetInstances clients ec2Filters ssmFilters h
  = (Val (Return None),
     [CallDescribeInstances ec2Filters;
      CallDescribeInstanceInformation ssmFilters;
      LogInfo "0 of 0 target instances are online."]).
Proof.
  intros He Hs Hnone Hne Hoff.
  assert (Hc : ec2InstanceCount ec2Instances = 0)
    by (rewrite ec2InstanceCount_flat, Hnone; reflexivity).
  assert (Hr : ready ec2Instances ssmInstances).
  { split; [exact Hne|]. rewrite Hc, onlineInstanceCount_filter.
    now rewrite (filter_none isOnline _ Hoff). }
  rewrite pollTargetInstances_eq. cbv zeta. rewrite He, Hs.
  rewrite (checkTargetInstances_ready _ _ _ Hr), Hc. reflexivity.
Qed.

(** On [stoppedEnv] nothing runs and the two agent entries are offline. *)
Lemma no_compute_instance_is_ready_witness :
  pollTargetInstances stoppedEnv [] [] []
  = (Val (Return None),
     [CallDescribeInstances []; CallDescribeInstanceInformation [];
      LogInfo "0 of 0 target instances are online."]).
Proof.
  apply (no_compute_instance_is_ready stoppedEnv [] [] []
           {| Reservations := [] |}
           (agents [("i-1", "ConnectionLost"); ("i-2", "ConnectionLost")])
           eq_refl eq_refl eq_refl).
  - discriminate.
  - cbn. intros i [<-|[<-|[]]]; reflexivity.
Defined.

(** ** More on the invocation waiter *)

Lemma firstFailing_none invocations :
  firstFailing invocations = None
  <-> (forall i, In i invocations -> isFailing (ssmtypes.Status i) = false).
Proof.
  split.
  - intros Hff i Hin. destruct (isFailing (ssmtypes.Status i)) eqn:Hf;
      [|reflexivity].
    destruct (firstFailing_some _ _ Hin Hf) as (bad & E & _). congruence.
  - induction invocations as [|i l IH]; intros H; [reflexivity|].
    cbn [firstFailing]. rewrite (H i (or_introl eq_refl)).
    assert (firstFailing l = None) as -> by (apply IH; intros j Hj; apply H; now right).
    now destruct (isPending _).
Qed.

(** What [checkCommandInvocations] does with a listing, by cases. *)
Lemma checkCommandInvocations_cases commandId output h :
  let invocations := CommandInvocations output in
  let pending := filter (fun i => isPending (ssmtypes.Status i)) invocations in
  checkCommandInvocations commandId output h =
  match invocations with
  | [] => (Val Next, [Sleep sleepTime])
  | _ :: _ =>
      match firstFailing invocations with
      | Some bad =>
          match ssmtypes.InvInstanceId bad with
          | Some instanceId =>
              (Val (Return (Some (invocationError (ssmtypes.Status bad)
                                                  instanceId))),
               [LogInfo (invocationMessage commandId (ssmtypes.Status bad)
                                           instanceId)])
          | None => (Panic, [])
          end
      | None =>
          match pending with
          | [] => (Val (Return None), [])
          | _ :: _ => (Val Next, [Sleep sleepTime])
          end
      end
  end.
Proof.
  cbv zeta. unfold checkCommandInvocations.
  destruct (CommandInvocations output) as [|i l] eqn:E; [reflexivity|].
  replace (Z.of_nat (List.length (i :: l)) =? 0) with false
    by (symmetry; apply Z.eqb_neq; cbn [List.length]; lia).
  destruct (firstFailing (i :: l)) as [bad|] eqn:Hff.
  - destruct (ssmtypes.InvInstanceId bad) as [instanceId|] eqn:Hid.
    + rewrite (bind_val_eq _ _ _ _ _
                 (rangeInvocations_failing commandId _ _ _ Hff Hid 0 h)).
      reflexivity.
    + now rewrite (bind_panic _ _ _ _
                     (rangeInvocations_panic commandId _ _ Hff Hid 0 h)).
  - rewrite (bind_val_eq _ _ _ _ _
               (rangeInvocations_none commandId _ Hff 0 h)).
    destruct (filter _ (i :: l)) as [|p ps]; [reflexivity|].
    replace (0 + Z.of_nat (List.length (p :: ps)) =? 0) with false
      by (symmetry; apply Z.eqb_neq; cbn [List.length]; lia).
    reflexivity.
Qed.

(** X5. Whatever the service answers, [waitForCommandInvocations] with
    timeout [T] lists the invocations at most [floor (T / 10)] times
    (never, for a negative timeout) and sleeps at most once per listing;
    for [T >= 0] it sleeps at most [T] seconds in all. *)
Theorem waitForCommandInvocations_bounded clients commandId timeout h :
  let run := waitForCommandInvocations clients commandId (Some timeout) h in
  (count isListCommandInvocationsCall (snd run) <= attempts timeout)%nat
  /\ (count isSleep (snd run)
      <= count isListCommandInvocationsCall (snd run))%nat
  /\ (0 <= timeout ->
      sleepTime * Z.of_nat (count isSleep (snd run)) <= timeout).
Proof.
  cbv zeta. rewrite waitForCommandInvocations_eq.
  set (body := pollCommandInvocations clients commandId).
  assert (Hbody : forall h',
    count isListCommandInvocationsCall (snd (body h')) = 1%nat /\
    (count isSleep (snd (body h')) <= 1)%nat).
  { intros h'. unfold body. rewrite pollCommandInvocations_eq. cbv zeta.
    destruct (ssm_ListCommandInvocations clients h' commandId)
      as [err|output]; [split; cbn; lia|].
    rewrite checkCommandInvocations_cases. cbv zeta.
    destruct (CommandInvocations output); [split; cbn; lia|].
    destruct (firstFailing _) as [bad|].
    - destruct (ssmtypes.InvInstanceId bad); split; cbn; lia.
    - destruct (filter _ _); split; cbn; lia. }
  assert (H1 : (count isListCommandInvocationsCall
                  (snd (forLoop (attempts timeout) body invocationsTimedOut h))
                <= attempts timeout)%nat).
  { apply forLoop_count_le; [|reflexivity].
    intros h'. destruct (Hbody h'). lia. }
  assert (H2 : (count isSleep
                  (snd (forLoop (attempts timeout) body invocationsTimedOut h))
                <= count isListCommandInvocationsCall
                     (snd (forLoop (attempts timeout) body
                             invocationsTimedOut h)))%nat).
  { apply forLoop_count_rel; [|cbn; lia].
    intros h'. destruct (Hbody h'). lia. }
  split; [exact H1|]. split; [exact H2|].
  intros Hle. pose proof (attempts_sleep_bound timeout Hle).
  unfold sleepTime in *. lia.
Qed.

(** A wait of 10 seconds on [staleEnv], which lists no invocation. *)
Lemma waitForCommandInvocations_bounded_witness :
  sleepTime
  * Z.of_nat (count isSleep
                (snd (waitForCommandInvocations staleEnv "cmd-1"
                        (Some 10) [])))
  <= 10.
Proof.
  apply (proj2 (proj2
           (waitForCommandInvocations_bounded staleEnv "cmd-1" 10 []))).
  lia.
Defined.

(** X6. A listing that fails ends [waitForCommandInvocations] at once, in
    whatever iteration it happens: the error is logged and returned, and
    nothing is retried. *)
Theorem waitForCommandInvocations_query_error
    clients commandId timeout k h pre err :
  nexts k (pollCommandInvocations clients commandId) h pre ->
  (k < attempts timeout)%nat ->
  ssm_ListCommandInvocations clients (h ++ pre) commandId = inl err ->
  waitForCommandInvocations clients commandId (Some timeout) h
  = (Val (Some err),
     pre ++ [CallListCommandInvocations commandId; LogError err]).
Proof.
  intros Hn Hlt He. rewrite waitForCommandInvocations_eq.
  apply (forLoop_return _ _ _ _ _ _ _ _ Hlt Hn).
  rewrite pollCommandInvocations_eq. cbv zeta. now rewrite He.
Qed.

Lemma waitForCommandInvocations_query_error_witness :
  waitForCommandInvocations noComputeEnv "cmd-1" (Some 600) []
  = (Val (Some "ssm: throttled"),
     [CallListCommandInvocations "cmd-1"; LogError "ssm: throttled"]).
Proof.
  exact (waitForCommandInvocations_query_error noComputeEnv "cmd-1" 600
           0 [] [] "ssm: throttled" eq_refl
           ltac:(change (0 < 60)%nat; lia) eq_refl).
Defined.

(** X7. When [waitForCommandInvocations] returns nil, its last listing
    succeeded, was not empty, and held no invocation that is Pending,
    InProgress, Cancelled, TimedOut or Failed; it returned right after that
    listing, without logging or sleeping. *)
Theorem waitForCommandInvocations_nil_sound clients commandId timeout h evs :
  waitForCommandInvocations clients commandId timeout h = (Val None, evs) ->
  exists t pre output,
    timeout = Some t /\
    ssm_ListCommandInvocations clients (h ++ pre) commandId = inr output /\
    evs = pre ++ [CallListCommandInvocations commandId] /\
    CommandInvocations output <> [] /\
    (forall i, In i (CommandInvocations output) -> isSettled i = true).
Proof.
  intros H. destruct timeout as [t|]; [|discriminate].
  rewrite waitForCommandInvocations_eq in H. apply forLoop_inv in H.
  destruct H as [(k & pre & e0 & _ & _ & Hb & ->)|(pre & e0 & _ & Ha & _)];
    [|discriminate].
  exists t, pre. rewrite pollCommandInvocations_eq in Hb. cbv zeta in Hb.
  destruct (ssm_ListCommandInvocations clients (h ++ pre) commandId)
    as [err|output]; [discriminate|].
  exists output. rewrite checkCommandInvocations_cases in Hb. cbv zeta in Hb.
  destruct (CommandInvocations output) as [|i l] eqn:El; [discriminate|].
  rewrite <- El in *.
  destruct (firstFailing (CommandInvocations output)) as [bad|] eqn:Hff.
  - destruct (ssmtypes.InvInstanceId bad); discriminate.
  - destruct (filter _ (CommandInvocations output)) as [|p ps] eqn:Hp;
      [|discriminate].
    cbn [fst snd] in Hb. injection Hb as <-.
    repeat split; trivial; [rewrite El; discriminate|].
    intros j Hj. unfold isSettled.
    rewrite (proj1 (firstFailing_none _) Hff j Hj).
    destruct (isPending (ssmtypes.Status j)) eqn:Hpend; [|reflexivity].
    assert (In j (filter (fun i => isPending (ssmtypes.Status i))
                         (CommandInvocations output)))
      by (apply filter_In; auto).
    rewrite Hp in *. contradiction.
Qed.

Lemma waitForCommandInvocations_nil_sound_witness :
  exists t pre output,
    Some 600 = Some t /\
    ssm_ListCommandInvocations onlineEnv ([] ++ pre) "cmd-1" = inr output /\
    [CallListCommandInvocations "cmd-1"]
    = pre ++ [CallListCommandInvocations "cmd-1"] /\
    CommandInvocations output <> [] /\
    (forall i, In i (CommandInvocations output) -> isSettled i = true).
Proof.
  apply (waitForCommandInvocations_nil_sound onlineEnv "cmd-1"
           (Some 600) []).
  vm_compute. reflexivity.
Defined.

(** X8. A listing without a Cancelled, TimedOut or Failed invocation: the
    iteration returns nil exactly when the listing is non-empty and holds
    no Pending or InProgress invocation (any other status, Success but also
    Cancelling or Delayed, counts as done); with a Pending or InProgress
    invocation it sleeps once and the loop goes on. *)
Theorem invocations_done_or_pending clients commandId h output :
  ssm_ListCommandInvocations clients h commandId = inr output ->
  (forall i, In i (CommandInvocations output) ->
             isFailing (ssmtypes.Status i) = false) ->
  let poll := pollCommandInvocations clients commandId h in
  let pending :=
    filter (fun i => isPending (ssmtypes.Status i))
           (CommandInvocations output) in
  (fst poll = Val (Return None)
   <-> CommandInvocations output <> [] /\ pending = [])
  /\ (CommandInvocations output <> [] -> pending = [] ->
      poll = (Val (Return None), [CallListCommandInvocations commandId]))
  /\ (pending <> [] ->
      poll = (Val Next,
              [CallListCommandInvocations commandId; Sleep sleepTime])).
Proof.
  intros Hl Hnf poll pending.
  assert (Hff : firstFailing (CommandInvocations output) = None)
    by now apply firstFailing_none.
  assert (Hpoll : poll =
    match CommandInvocations output with
    | [] => (Val Next, [CallListCommandInvocations commandId; Sleep sleepTime])
    | _ :: _ =>
        match pending with
        | [] => (Val (Return None), [CallListCommandInvocations commandId])
        | _ :: _ =>
            (Val Next, [CallListCommandInvocations commandId; Sleep sleepTime])
        end
    end).
  { unfold poll. rewrite pollCommandInvocations_eq. cbv zeta. rewrite Hl.
    rewrite checkCommandInvocations_cases. cbv zeta. fold pending.
    destruct (CommandInvocations output); [reflexivity|].
    rewrite Hff. now destruct pending. }
  split; [|split].
  - rewrite Hpoll. destruct (CommandInvocations output) as [|i l] eqn:El.
    + cbn. split; [discriminate|]. intros [Hne _]. now elim Hne.
    + destruct pending; cbn; split; try discriminate; auto.
      * split; [discriminate|reflexivity].
      * intros [_ E]. discriminate.
  - intros Hne Hp. rewrite Hpoll, Hp.
    destruct (CommandInvocations output); [now elim Hne|reflexivity].
  - intros Hp. rewrite Hpoll.
    destruct (CommandInvocations output) as [|i l] eqn:El;
      [now elim Hp|].
    destruct pending; [now elim Hp|reflexivity].
Qed.

(** On [stoppedEnv] one invocation has succeeded and one is being
    cancelled: the wait is over. *)
Lemma invocations_done_or_pending_witness :
  pollCommandInvocations stoppedEnv "cmd-1" []
  = (Val (Return None), [CallListCommandInvocations "cmd-1"]).
Proof.
  apply (proj1 (proj2
           (invocations_done_or_pending stoppedEnv "cmd-1" []
              (invocationsOf [("i-1", "Success"); ("i-2", "Cancelling")])
              eq_refl
              ltac:(cbn; intros i [<-|[<-|[]]]; reflexivity)))).
  - discriminate.
  - reflexivity.
Defined.

(** ** Kinds of events *)

Lemma emits_ret {A} P (a : A) : emits P (ret a).
Proof. intros h. constructor. Qed.

Lemma emits_panic {A} P : emits P (@panic A).
Proof. intros h. constructor. Qed.

Lemma emits_deref {A} P (p : option A) : emits P (deref p).
Proof. destruct p; [apply emits_ret|apply emits_panic]. Qed.

Lemma emits_emit (P : Event -> Prop) e : P e -> emits P (emit e).
Proof. intros H h. repeat constructor. exact H. Qed.

Lemma emits_call {A} (P : Event -> Prop) e (f : Trace -> A) :
  P e -> emits P (call e f).
Proof. intros H h. repeat constructor. exact H. Qed.

Lemma emits_bind {A B} P (m : M A) (k : A -> M B) :
  emits P m -> (forall a, emits P (k a)) -> emits P (bind m k).
Proof.
  intros Hm Hk h. rewrite bind_run.
  destruct (fst (m h)); cbn [snd]; [|apply Hm].
  apply Forall_app. split; [apply Hm|apply Hk].
Qed.

Lemma emits_forLoop {R} P (body : M (Ctl R)) (after : M R) n :
  emits P body -> emits P after -> emits P (forLoop n body after).
Proof.
  intros Hb Ha. induction n as [|n IH]; [exact Ha|].
  cbn [forLoop]. apply emits_bind; [exact Hb|].
  intros [|r]; [exact IH|apply emits_ret].
Qed.

Lemma emits_forRange P (body : Z -> M unit) n :
  (forall i, emits P (body i)) -> forall i, emits P (forRange n i body).
Proof.
  intros Hb. induction n as [|n IH]; intros i; [apply emits_ret|].
  cbn [forRange]. apply emits_bind; [apply Hb|]. intros ?. apply IH.
Qed.

Lemma emits_weaken {A} (P Q : Event -> Prop) (m : M A) :
  (forall e, P e -> Q e) -> emits P m -> emits Q m.
Proof. intros H Hm h. eapply Forall_impl; [exact H|apply Hm]. Qed.

Lemma count_zero (P : Event -> Prop) p evs :
  (forall e, P e -> p e = false) -> Forall P evs -> count p evs = 0%nat.
Proof.
  intros H Hall. unfold count. rewrite filter_none; [reflexivity|].
  intros e He. apply H. rewrite Forall_forall in Hall. now apply Hall.
Qed.

Ltac each_event :=
  cbn [fst snd]; repeat (apply Forall_cons; [|]); try apply Forall_nil;
  unfold readinessEvent, invocationEvent, collectorEvent, isLocal;
  cbn; auto.

Lemma emits_logMessage msg : emits isLocal (logMessage msg).
Proof.
  intros h. rewrite logMessage_eq. cbn [snd].
  apply Forall_forall. intros e He. apply in_map_iff in He.
  destruct He as (s & <- & _). reflexivity.
Qed.

Lemma emits_waitForTargetInstances clients ec2Filters ssmFilters timeout :
  emits readinessEvent
        (waitForTargetInstances clients ec2Filters ssmFilters timeout).
Proof.
  unfold waitForTargetInstances. apply emits_forLoop.
  - intros h.
    destruct (pollTargetInstances_cases clients ec2Filters ssmFilters h)
      as [[e E]|[[e E]|[[m E]|[[m E]|E]]]]; rewrite E; cbn [snd];
      each_event.
  - intros h. cbn [snd]. each_event.
Qed.

Lemma emits_waitForCommandInvocations clients commandId timeout :
  emits invocationEvent
        (waitForCommandInvocations clients commandId timeout).
Proof.
  unfold waitForCommandInvocations.
  apply emits_bind; [apply emits_deref|]. intros t.
  apply emits_forLoop.
  - intros h. rewrite pollCommandInvocations_eq. cbv zeta.
    destruct (ssm_ListCommandInvocations clients h commandId)
      as [err|output].
    + each_event.
    + rewrite checkCommandInvocations_cases. cbv zeta.
      destruct (CommandInvocations output);
        [each_event|].
      destruct (firstFailing _) as [bad|].
      * destruct (ssmtypes.InvInstanceId bad);
          each_event.
      * destruct (filter _ _);
          each_event.
  - intros h. cbn [snd]. each_event.
Qed.

Lemma emits_rangeObjects clients region s3Bucket contents :
  emits collectorEvent (rangeObjects clients region s3Bucket contents).
Proof.
  induction contents as [|key rest IH]; [apply emits_ret|].
  cbn [rangeObjects]. apply emits_bind; [apply emits_call; now right|].
  intros [err|object]; (apply emits_bind; [|intros ?; exact IH]).
  - apply emits_emit. now left.
  - destruct (Body object) as [err|bytes]; [apply emits_ret|].
    apply emits_bind; [apply emits_deref|]. intros k.
    apply emits_bind; [apply emits_emit; now left|]. intros ?.
    eapply emits_weaken; [|apply emits_logMessage]. intros e He. now left.
Qed.

Lemma emits_printCommandOutput clients prefix commandId s3Bucket :
  emits collectorEvent
        (printCommandOutput clients prefix commandId s3Bucket).
Proof.
  unfold printCommandOutput. destruct (bucketUnset s3Bucket).
  - apply emits_bind; [apply emits_emit; now left|].
    intros ?. apply emits_ret.
  - apply emits_bind; [apply emits_call; now right|].
    intros [err|location].
    + apply emits_bind; [apply emits_emit; now left|].
      intros ?. apply emits_ret.
    + apply emits_bind; [apply emits_call; now right|].
      intros [err|].
      * apply emits_bind; [apply emits_emit; now left|].
        intros ?. apply emits_ret.
      * apply emits_bind; [apply emits_call; now right|].
        intros [err|objects].
        -- apply emits_bind; [apply emits_emit; now left|].
           intros ?. apply emits_ret.
        -- apply emits_bind; [apply emits_rangeObjects|].
           intros ?. apply emits_ret.
Qed.

(** ** More on the output collector *)

(** X9. Without an output bucket (a nil bucket or the empty name)
    [printCommandOutput] returns nil after one log line and calls no
    service. *)
Theorem printCommandOutput_without_bucket
    clients prefix commandId s3Bucket h :
  s3Bucket = None \/ s3Bucket = Some "" ->
  let run := printCommandOutput clients prefix commandId s3Bucket h in
  run = (Val None,
         [LogInfo
            "The output S3 bucket is not specified for ssm_command resource."])
  /\ count isCall (snd run) = 0%nat.
Proof.
  intros [->| ->]; split; reflexivity.
Qed.

Lemma printCommandOutput_without_bucket_witness :
  printCommandOutput bucketEnv (Some "out") "cmd-1" (Some "") []
  = (Val None,
     [LogInfo
        "The output S3 bucket is not specified for ssm_command resource."]).
Proof.
  exact (proj1 (printCommandOutput_without_bucket bucketEnv (Some "out")
                  "cmd-1" (Some "") [] (or_intror eq_refl))).
Defined.

(** X10. With an output bucket, an error of the region lookup, of the
    loading of the configuration, or of the object listing ends
    [printCommandOutput]: the error is logged and returned, and no object
    is fetched. *)
Theorem printCommandOutput_fatal_errors
    clients prefix commandId s3Bucket h err :
  bucketUnset s3Bucket = false ->
  let c1 := CallGetBucketLocation s3Bucket in
  let run := printCommandOutput clients prefix commandId s3Bucket h in
  (s3_GetBucketLocation clients h s3Bucket = inl err ->
   run = (Val (Some err), [c1; LogError err]))
  /\ (forall location,
        s3_GetBucketLocation clients h s3Bucket = inr location ->
        config_LoadDefaultConfig clients (h ++ [c1]) = Some err ->
        run = (Val (Some err), [c1; CallLoadDefaultConfig; LogError err]))
  /\ (forall location,
        s3_GetBucketLocation clients h s3Bucket = inr location ->
        config_LoadDefaultConfig clients (h ++ [c1]) = None ->
        let c3 := CallListObjectsV2 (LocationConstraint location) s3Bucket
                    1000 (keyPrefix prefix commandId) in
        s3_ListObjectsV2 clients ((h ++ [c1]) ++ [CallLoadDefaultConfig])
          (LocationConstraint location) s3Bucket 1000
          (keyPrefix prefix commandId) = inl err ->
        run = (Val (Some err),
               [c1; CallLoadDefaultConfig; c3; LogError err])).
Proof.
  intros Hb c1 run.
  assert (Hrun : run =
    (fst (match s3_GetBucketLocation clients h s3Bucket with
          | inl e => logError e ;; ret (Some e)
          | inr location =>
              r <- LoadDefaultConfig clients ;;
              match r with
              | Some e => logError e ;; ret (Some e)
              | None =>
                  r <- ListObjectsV2 clients (LocationConstraint location)
                         s3Bucket 1000 (keyPrefix prefix commandId) ;;
                  match r with
                  | inl e => logError e ;; ret (Some e)
                  | inr objects =>
                      rangeObjects clients (LocationConstraint location)
                                   s3Bucket (Contents objects) ;;
                      ret None
                  end
              end
          end (h ++ [c1])),
     c1 :: snd (match s3_GetBucketLocation clients h s3Bucket with
          | inl e => logError e ;; ret (Some e)
          | inr location =>
              r <- LoadDefaultConfig clients ;;
              match r with
              | Some e => logError e ;; ret (Some e)
              | None =>
                  r <- ListObjectsV2 clients (LocationConstraint location)
                         s3Bucket 1000 (keyPrefix prefix commandId) ;;
                  match r with
                  | inl e => logError e ;; ret (Some e)
                  | inr objects =>
                      rangeObjects clients (LocationConstraint location)
                                   s3Bucket (Contents objects) ;;
                      ret None
                  end
              end
          end (h ++ [c1])))).
  { unfold run, printCommandOutput. rewrite Hb.
    unfold GetBucketLocation. now rewrite bind_call. }
  rewrite Hrun. clear Hrun. split; [|split].
  - intros ->. reflexivity.
  - intros location -> Hc. unfold LoadDefaultConfig.
    rewrite bind_call, Hc. reflexivity.
  - intros location Hloc Hc c3 Hl. rewrite Hloc.
    unfold LoadDefaultConfig, ListObjectsV2.
    rewrite bind_call, Hc. cbn [fst snd]. rewrite bind_call, Hl.
    reflexivity.
Qed.

Lemma printCommandOutput_fatal_errors_witness :
  printCommandOutput noComputeEnv None "cmd-1" (Some "logs") []
  = (Val (Some "s3: no such bucket"),
     [CallGetBucketLocation (Some "logs"); LogError "s3: no such bucket"]).
Proof.
  exact (proj1 (printCommandOutput_fatal_errors noComputeEnv None "cmd-1"
                  (Some "logs") [] "s3: no such bucket" eq_refl)
               eq_refl).
Defined.

Lemma filter_local p evs :
  (forall e, isLocal e -> p e = false) -> Forall isLocal evs ->
  filter p evs = [].
Proof.
  intros H Hall. apply filter_none. intros e He. apply H.
  rewrite Forall_forall in Hall. now apply Hall.
Qed.

Lemma rangeObjects_fetches clients region s3Bucket contents :
  Forall (fun o => ObjKey o <> None) contents ->
  forall h,
    fst (rangeObjects clients region s3Bucket contents h) = Val tt /\
    filter isGetObjectCall
           (snd (rangeObjects clients region s3Bucket contents h))
    = map (fun o => CallGetObject region s3Bucket (ObjKey o)) contents.
Proof.
  induction 1 as [|key rest Hkey _ IH]; intros h; [split; reflexivity|].
  cbn [rangeObjects map]. unfold GetObject. rewrite bind_call.
  cbn [fst snd filter isGetObjectCall].
  set (h1 := h ++ [CallGetObject region s3Bucket (ObjKey key)]).
  destruct (s3_GetObject clients h region s3Bucket (ObjKey key))
    as [err|object].
  - unfold logError. rewrite bind_emit. cbn [fst snd filter isGetObjectCall].
    destruct (IH (h1 ++ [LogError err])) as [H3 H4].
    split; [exact H3|now rewrite H4].
  - destruct (Body object) as [err|bytes].
    + rewrite bind_ret. destruct (IH h1) as [H3 H4].
      split; [exact H3|now rewrite H4].
    + destruct (ObjKey key) as [k|] eqn:Ek; [|now elim Hkey].
      set (log :=
        k0 <- deref (Some k) ;;
        logInfo (newline ++ "*** " ++ k0 ++ " ***")%string ;;
        logMessage bytes).
      assert (Hlog : fst (log h1) = Val tt /\
                     filter isGetObjectCall (snd (log h1)) = []).
      { unfold log. cbn [deref]. rewrite bind_ret. unfold logInfo.
        rewrite bind_emit, logMessage_eq.
        cbn [fst snd filter isGetObjectCall]. split; [reflexivity|].
        apply filter_none. intros e He. apply in_map_iff in He.
        now destruct He as (s & <- & _). }
      rewrite bind_run. destruct Hlog as [H1 H2]. rewrite H1.
      cbn [fst snd]. destruct (IH (h1 ++ snd (log h1))) as [H3 H4].
      split; [exact H3|]. now rewrite filter_app, H2, H4.
Qed.

(** X11. Once the objects are listed, [printCommandOutput] returns nil
    whatever happens to the single objects (the listed objects carrying
    their key): it fetches every listed object once, in the order of the
    listing, from the bucket's region, also after a fetch that failed. *)
Theorem printCommandOutput_fetches_every_object
    clients prefix commandId s3Bucket h location objects :
  bucketUnset s3Bucket = false ->
  s3_GetBucketLocation clients h s3Bucket = inr location ->
  config_LoadDefaultConfig clients (h ++ [CallGetBucketLocation s3Bucket])
  = None ->
  s3_ListObjectsV2 clients
    ((h ++ [CallGetBucketLocation s3Bucket]) ++ [CallLoadDefaultConfig])
    (LocationConstraint location) s3Bucket 1000 (keyPrefix prefix commandId)
  = inr objects ->
  Forall (fun o => ObjKey o <> None) (Contents objects) ->
  let run := printCommandOutput clients prefix commandId s3Bucket h in
  fst run = Val None
  /\ filter isGetObjectCall (snd run)
     = map (fun o => CallGetObject (LocationConstraint location) s3Bucket
                                   (ObjKey o))
           (Contents objects).
Proof.
  intros Hb Hloc Hcfg Hlist Hkeys run. unfold run, printCommandOutput.
  rewrite Hb. unfold GetBucketLocation, LoadDefaultConfig, ListObjectsV2.
  rewrite bind_call, Hloc. cbn [fst snd].
  rewrite bind_call, Hcfg. cbn [fst snd].
  rewrite bind_call, Hlist. cbn [fst snd].
  rewrite bind_run.
  destruct (rangeObjects_fetches clients (LocationConstraint location)
              s3Bucket _ Hkeys
              (((h ++ [CallGetBucketLocation s3Bucket])
                  ++ [CallLoadDefaultConfig])
                 ++ [CallListObjectsV2 (LocationConstraint location) s3Bucket
                       1000 (keyPrefix prefix commandId)]))
    as [H1 H2].
  rewrite H1. cbn [fst snd filter isGetObjectCall].
  split; [reflexivity|]. now rewrite app_nil_r.
Qed.

(** On [flakyEnv] the second of two objects cannot be fetched. *)
Lemma printCommandOutput_fetches_every_object_witness :
  fst (printCommandOutput flakyEnv None "cmd-1" (Some "logs") []) = Val None
  /\ filter isGetObjectCall
       (snd (printCommandOutput flakyEnv None "cmd-1" (Some "logs") []))
     = [CallGetObject "eu-west-1" (Some "logs") (Some "cmd-1/i-1/stdout");
        CallGetObject "eu-west-1" (Some "logs") (Some "cmd-1/i-2/stdout")].
Proof.
  refine (printCommandOutput_fetches_every_object flakyEnv None "cmd-1"
            (Some "logs") [] {| LocationConstraint := "eu-west-1" |}
            {| Contents :=
                 [ {| ObjKey := Some "cmd-1/i-1/stdout" |};
                   {| ObjKey := Some "cmd-1/i-2/stdout" |} ] |}
            eq_refl eq_refl eq_refl eq_refl _).
  repeat constructor; discriminate.
Defined.

(** The whole run of the collector on [flakyEnv]. *)
Example printCommandOutput_flaky :
  printCommandOutput flakyEnv None "cmd-1" (Some "logs") []
  = (Val None,
     [CallGetBucketLocation (Some "logs"); CallLoadDefaultConfig;
      CallListObjectsV2 "eu-west-1" (Some "logs") 1000 "cmd-1";
      CallGetObject "eu-west-1" (Some "logs") (Some "cmd-1/i-1/stdout");
      LogInfo (newline ++ "*** cmd-1/i-1/stdout ***")%string;
      LogInfo "ok";
      CallGetObject "eu-west-1" (Some "logs") (Some "cmd-1/i-2/stdout");
      LogError "s3: access denied"]).
Proof. vm_compute. reflexivity. Qed.

(** ** More on the orchestration *)

Lemma rangeTargets_silent ssmTargets : forall ec2Filters ssmFilters h,
  snd (rangeTargets ssmTargets ec2Filters ssmFilters h) = [].
Proof.
  induction ssmTargets as [|target rest IH]; intros ec2Filters ssmFilters h;
    [reflexivity|].
  cbn [rangeTargets]. destruct (ssmtypes.Key target); [|reflexivity].
  cbn [deref]. rewrite bind_ret. apply IH.
Qed.

Lemma buildFilters_silent ssmTargets h : snd (buildFilters ssmTargets h) = [].
Proof.
  unfold buildFilters. rewrite bind_run.
  pose proof (rangeTargets_silent ssmTargets [] [] h) as E.
  destruct (fst (rangeTargets ssmTargets [] [] h)); cbn [snd];
    rewrite E; reflexivity.
Qed.

Lemma buildFilters_eq ssmTargets h :
  Forall (fun t => ssmtypes.Key t <> None) ssmTargets ->
  buildFilters ssmTargets h
  = (Val (map ec2FilterOf ssmTargets ++ [stateFilter],
          map ssmFilterOf ssmTargets), []).
Proof.
  intros Hkeys. unfold buildFilters.
  now rewrite (bind_val_eq _ _ _ _ _ (rangeTargets_eq _ Hkeys [] [] h)).
Qed.

(** X12. When the readiness wait returns an error (a failed query, or the
    timeout), [RunCommand] logs it and returns it with the zero-value
    command: no command is sent, and no service but the two inventories
    has been called. *)
Theorem RunCommand_not_ready_sends_nothing
    clients documentName parameters ssmTargets executionTimeout
    comment s3Bucket s3KeyPrefix h e e1 :
  Forall (fun t => ssmtypes.Key t <> None) ssmTargets ->
  waitForTargetInstances clients
    (map ec2FilterOf ssmTargets ++ [stateFilter])
    (map ssmFilterOf ssmTargets) waitTimeout h = (Val (Some e), e1) ->
  let run :=
    RunCommand clients documentName parameters ssmTargets executionTimeout
               comment s3Bucket s3KeyPrefix h in
  run = (Val (ssmtypes.zeroCommand, Some e), e1 ++ [LogError e])
  /\ count isSendCommandCall (snd run) = 0%nat
  /\ Forall readinessEvent (snd run).
Proof.
  intros Hkeys Hw run.
  assert (Hrun : run = (Val (ssmtypes.zeroCommand, Some e),
                        e1 ++ [LogError e])).
  { unfold run, RunCommand.
    rewrite (bind_val_eq _ _ _ _ _ (buildFilters_eq _ h Hkeys)).
    rewrite app_nil_r. cbn [fst snd app].
    rewrite (bind_val_eq _ _ _ _ _ Hw). reflexivity. }
  assert (He1 : Forall readinessEvent e1).
  { pose proof (emits_waitForTargetInstances clients
                  (map ec2FilterOf ssmTargets ++ [stateFilter])
                  (map ssmFilterOf ssmTargets) waitTimeout h) as H.
    now rewrite Hw in H. }
  assert (Hall : Forall readinessEvent (snd run)).
  { rewrite Hrun. cbn [snd]. apply Forall_app. split; [exact He1|].
    repeat constructor. }
  split; [exact Hrun|]. split; [|exact Hall].
  apply (count_zero readinessEvent); [|exact Hall].
  intros ev [Hl|[Hd|Hd]]; destruct ev; try reflexivity; discriminate.
Qed.

Lemma waitingEnv_nexts_any ec2Filters ssmFilters n :
  forall h, exists pre,
    nexts n (pollTargetInstances waitingEnv ec2Filters ssmFilters) h pre.
Proof.
  induction n as [|n IH]; intros h; [now exists []|].
  destruct (IH (h ++ [CallDescribeInstances ec2Filters;
                      CallDescribeInstanceInformation ssmFilters;
                      LogInfo "1 of 2 target instances are online.";
                      Sleep 10])) as [rest Hn].
  eexists. cbn [nexts]. eexists. exists rest.
  split; [reflexivity|]. split; [exact Hn|reflexivity].
Defined.

Lemma waitingEnv_times_out ec2Filters ssmFilters h :
  exists pre,
    waitForTargetInstances waitingEnv ec2Filters ssmFilters waitTimeout h
    = (Val (Some "target instances are not online"),
       pre ++ [LogError "Target instances are not online."]).
Proof.
  destruct (waitingEnv_nexts_any ec2Filters ssmFilters
              (attempts waitTimeout) h) as [pre Hn].
  exists pre. unfold waitForTargetInstances.
  rewrite (forLoop_nexts _ _ _ _ _ Hn). reflexivity.
Defined.

(** On [waitingEnv] one of the two instances never comes online. *)
Lemma RunCommand_not_ready_sends_nothing_witness :
  count isSendCommandCall
    (snd (RunCommand waitingEnv (Some "AWS-RunShellScript") []
            [instanceIdsTarget] (Some 600) None None None [])) = 0%nat.
Proof.
  destruct (waitingEnv_times_out
              (map ec2FilterOf [instanceIdsTarget] ++ [stateFilter])
              (map ssmFilterOf [instanceIdsTarget]) []) as [pre Hw].
  refine (proj1 (proj2
    (RunCommand_not_ready_sends_nothing waitingEnv
       (Some "AWS-RunShellScript") [] [instanceIdsTarget] (Some 600)
       None None None [] "target instances are not online"
       (pre ++ [LogError "Target instances are not online."]) _ Hw))).
  constructor; [discriminate|constructor].
Defined.

(** X13. When the targets are ready and the command cannot be sent,
    [RunCommand] logs the error of [SendCommand] and returns it with the
    zero-value command; it neither lists invocations, nor collects output,
    nor looks the command up. *)
Theorem RunCommand_send_error
    clients documentName parameters ssmTargets executionTimeout
    comment s3Bucket s3KeyPrefix h e e1 :
  Forall (fun t => ssmtypes.Key t <> None) ssmTargets ->
  waitForTargetInstances clients
    (map ec2FilterOf ssmTargets ++ [stateFilter])
    (map ssmFilterOf ssmTargets) waitTimeout h = (Val None, e1) ->
  let input := sendInput documentName parameters ssmTargets comment
                         s3Bucket s3KeyPrefix in
  ssm_SendCommand clients (h ++ e1) input = inl e ->
  RunCommand clients documentName parameters ssmTargets executionTimeout
             comment s3Bucket s3KeyPrefix h
  = (Val (ssmtypes.zeroCommand, Some e),
     e1 ++ [CallSendCommand input; LogError e]).
Proof.
  intros Hkeys Hw input Hs. unfold RunCommand.
  rewrite (bind_val_eq _ _ _ _ _ (buildFilters_eq _ h Hkeys)).
  rewrite app_nil_r. cbn [fst snd app].
  rewrite (bind_val_eq _ _ _ _ _ Hw). cbn [fst snd].
  unfold SendCommand. rewrite bind_call. fold input. rewrite Hs.
  reflexivity.
Qed.

Lemma RunCommand_send_error_witness :
  RunCommand flakyEnv (Some "NoSuchDocument") [] [instanceIdsTarget]
             (Some 600) None None None []
  = (Val (ssmtypes.zeroCommand, Some "ssm: invalid document"),
     [CallDescribeInstances [ec2FilterOf instanceIdsTarget; stateFilter];
      CallDescribeInstanceInformation [ssmFilterOf instanceIdsTarget];
      LogInfo "2 of 2 target instances are online."]
     ++ [CallSendCommand
           (sendInput (Some "NoSuchDocument") [] [instanceIdsTarget]
                      None None None);
         LogError "ssm: invalid document"]).
Proof.
  refine (RunCommand_send_error flakyEnv (Some "NoSuchDocument") []
            [instanceIdsTarget] (Some 600) None None None []
            "ssm: invalid document" _ _ eq_refl eq_refl).
  constructor; [discriminate|constructor].
Defined.

(** X14. A target without a key makes [RunCommand] panic while it builds
    the filters, before any service is called and before anything is
    logged. *)
Theorem RunCommand_nil_key_panics
    clients documentName parameters ssmTargets executionTimeout
    comment s3Bucket s3KeyPrefix h :
  Exists (fun t => ssmtypes.Key t = None) ssmTargets ->
  RunCommand clients documentName parameters ssmTargets executionTimeout
             comment s3Bucket s3KeyPrefix h = (Panic, []).
Proof.
  intros Hex. unfold RunCommand, buildFilters.
  rewrite (bind_panic _ _ _ _
             (bind_panic _ _ _ _ (rangeTargets_panic _ Hex [] [] h))).
  reflexivity.
Qed.

Lemma RunCommand_nil_key_panics_witness :
  RunCommand onlineEnv (Some "AWS-RunShellScript") []
             [instanceIdsTarget;
              {| ssmtypes.Key := None; ssmtypes.Values := ["x"] |}]
             (Some 600) None None None [] = (Panic, []).
Proof.
  apply RunCommand_nil_key_panics.
  apply Exists_cons_tl, Exists_cons_hd. reflexivity.
Defined.

Lemma count_readiness p evs :
  (forall e, p e = true -> isCall e = true
                           /\ isDescribeInstancesCall e = false
                           /\ isDescribeInstanceInformationCall e = false) ->
  Forall readinessEvent evs -> count p evs = 0%nat.
Proof.
  intros Hp. apply count_zero. intros e He.
  destruct (p e) eqn:E; [|reflexivity].
  destruct (Hp e E) as (H1 & H2 & H3).
  destruct He as [Hl|[Hd|Hd]]; unfold isLocal in *; congruence.
Qed.

Lemma count_invocation p evs :
  (forall e, p e = true -> isCall e = true
                           /\ isListCommandInvocationsCall e = false) ->
  Forall invocationEvent evs -> count p evs = 0%nat.
Proof.
  intros Hp. apply count_zero. intros e He.
  destruct (p e) eqn:E; [|reflexivity].
  destruct (Hp e E) as (H1 & H2).
  destruct He as [Hl|Hd]; unfold isLocal in *; congruence.
Qed.

Lemma count_collector p evs :
  (forall e, p e = true -> isCall e = true /\ isStorageCall e = false) ->
  Forall collectorEvent evs -> count p evs = 0%nat.
Proof.
  intros Hp. apply count_zero. intros e He.
  destruct (p e) eqn:E; [|reflexivity].
  destruct (Hp e E) as (H1 & H2).
  destruct He as [Hl|Hd]; unfold isLocal in *; congruence.
Qed.

(** The events of [RunCommand], stage by stage, whatever happens. *)
Lemma RunCommand_events
    clients documentName parameters ssmTargets executionTimeout
    comment s3Bucket s3KeyPrefix h :
  exists ready send invs out last,
    snd (RunCommand clients documentName parameters ssmTargets
                    executionTimeout comment s3Bucket s3KeyPrefix h)
    = ready ++ send ++ invs ++ out ++ last /\
    Forall readinessEvent ready /\
    (count isDescribeInstancesCall ready <= attempts waitTimeout)%nat /\
    (send = [] \/ exists input, send = [CallSendCommand input]) /\
    Forall invocationEvent invs /\
    Forall collectorEvent out /\
    (last = [] \/ (exists e, last = [LogError e])
     \/ exists commandId, last = [CallListCommands commandId]).
Proof.
  unfold RunCommand. rewrite bind_run, buildFilters_silent.
  destruct (fst (buildFilters ssmTargets h)) as [fs|].
  2:{ exists [], [], [], [], []. cbn. repeat split; auto; lia. }
  rewrite app_nil_r. cbn [app]. rewrite bind_run.
  set (w := waitForTargetInstances clients (fst fs) (snd fs) waitTimeout h).
  assert (Hw1 : Forall readinessEvent (snd w))
    by apply emits_waitForTargetInstances.
  assert (Hw2 : (count isDescribeInstancesCall (snd w)
                 <= attempts waitTimeout)%nat).
  { unfold w, waitForTargetInstances. apply forLoop_count_le; [|reflexivity].
    intros h'.
    destruct (pollTargetInstances_cases clients (fst fs) (snd fs) h')
      as [[e E]|[[e E]|[[m E]|[[m E]|E]]]]; rewrite E; cbn; lia. }
  exists (snd w).
  destruct (fst w) as [[e|]|].
  - exists [], [], [], [LogError e]. unfold logError. rewrite bind_emit.
    cbn. repeat split; eauto.
  - unfold SendCommand. rewrite bind_call. cbn [fst snd].
    set (input := sendInput documentName parameters ssmTargets comment
                            s3Bucket s3KeyPrefix).
    exists [CallSendCommand input].
    destruct (ssm_SendCommand clients (h ++ snd w) input) as [e|output].
    + exists [], [], [LogError e]. unfold logError. rewrite bind_emit.
      cbn. repeat split; eauto.
    + destruct (OutCommand output) as [command|];
        [|exists [], [], []; cbn; repeat split; eauto].
      cbn [deref]. rewrite bind_ret.
      destruct (ssmtypes.CommandId command) as [commandId|];
        [|exists [], [], []; cbn; repeat split; eauto].
      cbn [deref]. rewrite bind_ret, bind_run.
      set (h2 := (h ++ snd w) ++ [CallSendCommand input]).
      set (wi := waitForCommandInvocations clients commandId
                   executionTimeout h2).
      assert (Hwi : Forall invocationEvent (snd wi))
        by apply emits_waitForCommandInvocations.
      exists (snd wi).
      destruct (fst wi) as [werr|];
        [|exists [], []; cbn; rewrite app_nil_r; repeat split; eauto].
      rewrite bind_run.
      set (c := printCommandOutput clients s3KeyPrefix commandId s3Bucket
                  (h2 ++ snd wi)).
      assert (Hc : Forall collectorEvent (snd c))
        by apply emits_printCommandOutput.
      exists (snd c).
      destruct (fst c) as [perr|];
        [|exists []; cbn; rewrite app_nil_r; repeat split; eauto].
      destruct werr as [e|].
      * exists [LogError e]. unfold logError. rewrite bind_emit.
        cbn. repeat split; eauto.
      * exists [CallListCommands commandId].
        unfold GetCommand, ListCommands. rewrite bind_call.
        destruct (ssm_ListCommands _ _ _) as [e|commands];
          [|destruct (Commands commands)];
          cbn; repeat split; eauto.
  - exists [], [], [], []. cbn. rewrite app_nil_r. repeat split; auto.
Qed.

(** X15. Whatever the services answer, one call of [RunCommand] sends at
    most one command, queries the compute inventory at most 60 times, and
    looks the command up at most once. *)
Theorem RunCommand_call_bounds
    clients documentName parameters ssmTargets executionTimeout
    comment s3Bucket s3KeyPrefix h :
  let evs :=
    snd (RunCommand clients documentName parameters ssmTargets
                    executionTimeout comment s3Bucket s3KeyPrefix h) in
  (count isSendCommandCall evs <= 1)%nat
  /\ (count isDescribeInstancesCall evs <= 60)%nat
  /\ (count isListCommandsCall evs <= 1)%nat.
Proof.
  cbv zeta.
  destruct (RunCommand_events clients documentName parameters ssmTargets
              executionTimeout comment s3Bucket s3KeyPrefix h)
    as (ready & send & invs & out & last & -> & Hr & Hr60 & Hs & Hi & Ho & Hl).
  change (attempts waitTimeout) with 60%nat in Hr60.
  rewrite !count_app.
  assert (forall p,
    (forall e, p e = true ->
       isCall e = true /\ isListCommandInvocationsCall e = false
       /\ isStorageCall e = false) ->
    count p invs = 0%nat /\ count p out = 0%nat) as Hmid.
  { intros p Hp. split.
    - apply count_invocation; [|exact Hi]. intros e He.
      destruct (Hp e He) as (H1 & H2 & _). auto.
    - apply count_collector; [|exact Ho]. intros e He.
      destruct (Hp e He) as (H1 & _ & H3). auto. }
  split; [|split].
  - destruct (Hmid isSendCommandCall) as [-> ->];
      [intros e He; destruct e; try discriminate; auto|].
    rewrite (count_readiness isSendCommandCall ready); [|
      intros e He; destruct e; try discriminate; auto|exact Hr].
    destruct Hs as [->|[input ->]];
      destruct Hl as [->|[[e ->]|[c ->]]]; cbn; lia.
  - destruct (Hmid isDescribeInstancesCall) as [-> ->];
      [intros e He; destruct e; try discriminate; auto|].
    destruct Hs as [->|[input ->]];
      destruct Hl as [->|[[e ->]|[c ->]]]; cbn; lia.
  - destruct (Hmid isListCommandsCall) as [-> ->];
      [intros e He; destruct e; try discriminate; auto|].
    rewrite (count_readiness isListCommandsCall ready); [|
      intros e He; destruct e; try discriminate; auto|exact Hr].
    destruct Hs as [->|[input ->]];
      destruct Hl as [->|[[e ->]|[c ->]]]; cbn; lia.
Qed.

(** X16. [RunCommand] returns a nil error only at the end of the whole
    sequence: the targets were ready, the command was sent and has an
    identifier, the wait for its invocations returned nil, the collector
    returned (with an error or without), and the last thing done was the
    lookup of the command, whose first record (or the zero-value command,
    when there is none) is the result. *)
Theorem RunCommand_nil_sound
    clients documentName parameters ssmTargets executionTimeout
    comment s3Bucket s3KeyPrefix h cmd evs :
  RunCommand clients documentName parameters ssmTargets executionTimeout
             comment s3Bucket s3KeyPrefix h = (Val (cmd, None), evs) ->
  let input := sendInput documentName parameters ssmTargets comment
                         s3Bucket s3KeyPrefix in
  exists fs e1 output command commandId e2 perr e3 commands,
    buildFilters ssmTargets h = (Val fs, []) /\
    waitForTargetInstances clients (fst fs) (snd fs) waitTimeout h
    = (Val None, e1) /\
    ssm_SendCommand clients (h ++ e1) input = inr output /\
    OutCommand output = Some command /\
    ssmtypes.CommandId command = Some commandId /\
    waitForCommandInvocations clients commandId executionTimeout
      ((h ++ e1) ++ [CallSendCommand input]) = (Val None, e2) /\
    printCommandOutput clients s3KeyPrefix commandId s3Bucket
      (((h ++ e1) ++ [CallSendCommand input]) ++ e2) = (Val perr, e3) /\
    ssm_ListCommands clients
      ((((h ++ e1) ++ [CallSendCommand input]) ++ e2) ++ e3) commandId
    = inr commands /\
    cmd = hd ssmtypes.zeroCommand (Commands commands) /\
    evs = e1 ++ [CallSendCommand input] ++ e2 ++ e3
          ++ [CallListCommands commandId].
Proof.
  intros H input. unfold RunCommand in H.
  apply bind_inv in H. destruct H as (fs & e0 & rest & Hf & H & ->).
  assert (e0 = []) as ->
    by (pose proof (buildFilters_silent ssmTargets h) as E;
        now rewrite Hf in E).
  rewrite app_nil_r in H. cbn [app].
  apply bind_inv in H. destruct H as (err & e1 & rest1 & Hw & H & ->).
  destruct err as [e|].
  { unfold logError in H. rewrite bind_emit in H. discriminate. }
  unfold SendCommand in H. rewrite bind_call in H. fold input in H.
  destruct (ssm_SendCommand clients (h ++ e1) input) as [e|output] eqn:Hs.
  { unfold logError in H. rewrite bind_emit in H. discriminate. }
  destruct (OutCommand output) as [command|] eqn:Hc; [|discriminate].
  cbn [deref] in H. rewrite bind_ret in H.
  destruct (ssmtypes.CommandId command) as [commandId|] eqn:Hid;
    [|discriminate].
  cbn [deref] in H. rewrite bind_ret in H.
  destruct (bind _ _ _) as [r rest2] eqn:Hrest in H.
  cbn [fst snd] in H. injection H as -> <-.
  apply bind_inv in Hrest.
  destruct Hrest as (werr & e2 & rest3 & Hi & Hrest & ->).
  apply bind_inv in Hrest.
  destruct Hrest as (perr & e3 & rest4 & Hp & Hrest & ->).
  destruct werr as [e|].
  { unfold logError in Hrest. rewrite bind_emit in Hrest. discriminate. }
  unfold GetCommand, ListCommands in Hrest. rewrite bind_call in Hrest.
  destruct (ssm_ListCommands clients _ commandId) as [e|commands] eqn:Hl;
    [discriminate|].
  exists fs, e1, output, command, commandId, e2, perr, e3, commands.
  repeat (split; [assumption || reflexivity|]).
  destruct (Commands commands) as [|c cs]; cbn in Hrest;
    injection Hrest as <- <-; split; reflexivity.
Qed.

(** The successful run on [bucketEnv]. *)
Lemma RunCommand_nil_sound_witness :
  exists fs e1 output command commandId e2 perr e3 commands,
    buildFilters [instanceIdsTarget] [] = (Val fs, []) /\
    waitForTargetInstances bucketEnv (fst fs) (snd fs) waitTimeout []
    = (Val None, e1) /\
    ssm_SendCommand bucketEnv ([] ++ e1)
      (sendInput (Some "AWS-RunShellScript") [] [instanceIdsTarget]
                 None (Some "logs") (Some "out")) = inr output /\
    OutCommand output = Some command /\
    ssmtypes.CommandId command = Some commandId /\
    waitForCommandInvocations bucketEnv commandId (Some 600)
      (([] ++ e1)
         ++ [CallSendCommand
               (sendInput (Some "AWS-RunShellScript") [] [instanceIdsTarget]
                          None (Some "logs") (Some "out"))])
    = (Val None, e2) /\
    printCommandOutput bucketEnv (Some "out") commandId (Some "logs")
      ((([] ++ e1)
          ++ [CallSendCommand
                (sendInput (Some "AWS-RunShellScript") []
                           [instanceIdsTarget] None (Some "logs")
                           (Some "out"))]) ++ e2) = (Val perr, e3) /\
    ssm_ListCommands bucketEnv
      (((([] ++ e1)
           ++ [CallSendCommand
                 (sendInput (Some "AWS-RunShellScript") []
                            [instanceIdsTarget] None (Some "logs")
                            (Some "out"))]) ++ e2) ++ e3) commandId
    = inr commands /\
    commandOf "cmd-1" = hd ssmtypes.zeroCommand (Commands commands) /\
    snd (RunCommand bucketEnv (Some "AWS-RunShellScript") []
           [instanceIdsTarget] (Some 600) None (Some "logs") (Some "out") [])
    = e1 ++ [CallSendCommand
               (sendInput (Some "AWS-RunShellScript") [] [instanceIdsTarget]
                          None (Some "logs") (Some "out"))]
         ++ e2 ++ e3 ++ [CallListCommands commandId].
Proof.
  apply (RunCommand_nil_sound bucketEnv (Some "AWS-RunShellScript") []
           [instanceIdsTarget] (Some 600) None (Some "logs") (Some "out") []).
  vm_compute. reflexivity.
Defined.

(** ** The provider configuration *)

Lemma nonEmptyString_some x v :
  nonEmptyString x = Some v <-> x = Some (AnyString v) /\ v <> "".
Proof.
  unfold nonEmptyString.
  destruct x as [[|s| | |]|];
    try (split; [discriminate|intros [E _]; discriminate]).
  destruct (String.eqb_spec s "") as [->|Hne]; split.
  - discriminate.
  - intros [E Hv]. injection E as <-. now elim Hv.
  - intros E. injection E as <-. auto.
  - intros [E _]. injection E as <-. reflexivity.
Qed.

Lemma setIndex_eq {A} (result : list A) : forall i x h,
  (i < List.length result)%nat ->
  setIndex result i x h
  = (Val (firstn i result ++ x :: skipn (S i) result), []).
Proof.
  induction result as [|y rest IH]; intros i x h Hlt;
    cbn [List.length] in Hlt; [lia|].
  destruct i as [|j]; [reflexivity|].
  cbn [setIndex firstn skipn app].
  rewrite (bind_val_eq _ _ _ _ _ (IH j x h ltac:(lia))). reflexivity.
Qed.

Section ProviderFacts.

Variable ParseDuration : string -> Z * option error.
Variable loadDefaultConfig : Trace -> error + Config.

Lemma expandAssumeRole_ok ar roleARN :
  ar "role_arn" = Some (AnyString roleARN) -> roleARN <> "" ->
  snd (expandAssumeRole ParseDuration ar) = [] /\
  awsbase.RoleARN (fst (expandAssumeRole ParseDuration ar)) = roleARN.
Proof.
  intros E Hne. unfold expandAssumeRole.
  rewrite (proj2 (nonEmptyString_some _ roleARN) (conj E Hne)).
  split; reflexivity.
Qed.

Lemma expandAssumeRole_bad ar :
  nonEmptyString (ar "role_arn") = None ->
  expandAssumeRole ParseDuration ar
  = (awsbase.zeroAssumeRole, diag.Errorf "role_arn").
Proof. intros E. unfold expandAssumeRole. now rewrite E. Qed.

Lemma not_validBlock_map ar :
  ~ validBlock (AnyMap ar) -> nonEmptyString (ar "role_arn") = None.
Proof.
  intros Hn. destruct (nonEmptyString (ar "role_arn")) as [v|] eqn:E;
    [|reflexivity].
  apply nonEmptyString_some in E. destruct E as [E Hne].
  elim Hn. now exists ar, v.
Qed.

(** The loop of [expandAssumeRoles] on a list that starts with valid
    blocks: they are expanded in place, one log line each; the first
    element that is not a valid block ends the loop. *)
Lemma rangeAssumeRoles_run good : forall done todo tail diags h,
  Forall validBlock good ->
  (List.length todo = List.length good + List.length tail)%nat ->
  (forall bad rest, tail = bad :: rest -> ~ validBlock bad) ->
  rangeAssumeRoles ParseDuration (good ++ tail) (List.length done)
                   (done ++ todo) diags h
  = (Val (done ++ map (roleOf ParseDuration) good ++ skipn (List.length good) todo,
          diags ++ match tail with
                   | AnyMap _ :: _ => diag.Errorf "role_arn"
                   | _ => []
                   end),
     repeat (LogInfo "assume_role configuration set") (List.length good)).
Proof.
  induction good as [|g good IH]; intros done todo tail diags h Hgood Hlen Hbad.
  - cbn [app map List.length skipn repeat].
    destruct tail as [|bad rest]; [cbn; now rewrite app_nil_r|].
    specialize (Hbad bad rest eq_refl).
    destruct bad as [| | |ar|]; cbn [rangeAssumeRoles];
      try (now rewrite app_nil_r).
    rewrite (expandAssumeRole_bad ar (not_validBlock_map ar Hbad)).
    reflexivity.
  - inversion Hgood as [|? ? Hg Hgood']; subst.
    destruct Hg as (ar & roleARN & -> & Er & Hne).
    destruct (expandAssumeRole_ok ar roleARN Er Hne) as [Hd _].
    destruct todo as [|t todo]; [cbn in Hlen; lia|].
    cbn [app rangeAssumeRoles]. rewrite Hd. cbn [diag.HasError existsb].
    assert (Hset : setIndex (done ++ t :: todo) (List.length done)
                     (fst (expandAssumeRole ParseDuration ar)) h
                   = (Val (done ++ fst (expandAssumeRole ParseDuration ar)
                                :: todo), [])).
    { rewrite setIndex_eq by (rewrite length_app; cbn; lia).
      rewrite firstn_app, firstn_all, Nat.sub_diag, app_nil_r.
      replace (S (List.length done))
        with (List.length (done ++ [t])) by (rewrite length_app; cbn; lia).
      replace (done ++ t :: todo) with ((done ++ [t]) ++ todo)
        by now rewrite <- app_assoc.
      rewrite skipn_app, skipn_all, Nat.sub_diag. reflexivity. }
    rewrite (bind_val_eq _ _ _ _ _ Hset). cbn [fst snd app].
    unfold logInfo. rewrite bind_emit. rewrite app_nil_r.
    specialize (IH (done ++ [fst (expandAssumeRole ParseDuration ar)])
                   todo tail diags
                   ((h ++ []) ++ [LogInfo "assume_role configuration set"])
                   Hgood' ltac:(cbn in Hlen; lia) Hbad).
    rewrite length_app, Nat.add_comm in IH. cbn [List.length Nat.add] in IH.
    rewrite <- app_assoc in IH. cbn [app] in IH. rewrite IH.
    cbn [fst snd map List.length skipn repeat roleOf].
    now rewrite <- !app_assoc.
Qed.

(** Every list is a run of valid blocks followed by nothing or by an
    element that is not a valid block. *)
Lemma validBlock_dec v : validBlock v \/ ~ validBlock v.
Proof.
  destruct v as [| | |ar|];
    try (right; intros (a & r & E & _); discriminate).
  destruct (nonEmptyString (ar "role_arn")) as [v|] eqn:E.
  - apply nonEmptyString_some in E. destruct E as [E Hne].
    left. now exists ar, v.
  - right. intros (a & r & Ea & Er & Hne). injection Ea as <-.
    rewrite (proj2 (nonEmptyString_some _ r) (conj Er Hne)) in E.
    discriminate.
Qed.

Lemma split_valid tfList :
  exists good tail,
    tfList = good ++ tail /\ Forall validBlock good /\
    (forall bad rest, tail = bad :: rest -> ~ validBlock bad).
Proof.
  induction tfList as [|v l (good & tail & -> & Hg & Ht)].
  - exists [], []. repeat split; [constructor|discriminate].
  - destruct (validBlock_dec v) as [Hv|Hv].
    + exists (v :: good), tail. repeat split; [now constructor|exact Ht].
    + exists [], (v :: good ++ tail). repeat split; [constructor|].
      intros bad rest E. injection E as <- _. exact Hv.
Qed.

Lemma expandAssumeRoles_run good tail h :
  Forall validBlock good ->
  (forall bad rest, tail = bad :: rest -> ~ validBlock bad) ->
  expandAssumeRoles ParseDuration (good ++ tail) h
  = (Val (map (roleOf ParseDuration) good
            ++ repeat awsbase.zeroAssumeRole (List.length tail),
          match tail with
          | AnyMap _ :: _ => diag.Errorf "role_arn"
          | _ => []
          end),
     repeat (LogInfo "assume_role configuration set") (List.length good)).
Proof.
  intros Hg Ht. unfold expandAssumeRoles.
  pose proof (rangeAssumeRoles_run good []
                (repeat awsbase.zeroAssumeRole (List.length (good ++ tail)))
                tail [] h Hg
                ltac:(rewrite repeat_length, length_app; reflexivity) Ht)
    as H.
  cbn [app List.length] in H. rewrite H.
  rewrite length_app, repeat_app, skipn_app, repeat_length, Nat.sub_diag.
  rewrite skipn_all2 by (rewrite repeat_length; lia).
  reflexivity.
Qed.

(** X17. [expandAssumeRole] requires [role_arn]: without a [role_arn] that
    is a non-empty string it returns the zero-value role and the error
    diagnostic [role_arn], whatever else the block holds; with one, it
    returns no diagnostic and a role with that ARN. *)
Theorem expandAssumeRole_requires_role_arn tfMap :
  let run := expandAssumeRole ParseDuration tfMap in
  (diag.HasError (snd run) = false
   <-> exists roleARN,
         tfMap "role_arn" = Some (AnyString roleARN) /\ roleARN <> "")
  /\ (diag.HasError (snd run) = true ->
      run = (awsbase.zeroAssumeRole, diag.Errorf "role_arn"))
  /\ (forall roleARN,
        tfMap "role_arn" = Some (AnyString roleARN) -> roleARN <> "" ->
        snd run = [] /\ awsbase.RoleARN (fst run) = roleARN).
Proof.
  cbv zeta.
  destruct (nonEmptyString (tfMap "role_arn")) as [v|] eqn:E.
  - pose proof (proj1 (nonEmptyString_some _ _) E) as [Er Hne].
    destruct (expandAssumeRole_ok tfMap v Er Hne) as [Hd Hr].
    rewrite Hd. cbn [diag.HasError existsb].
    split; [split; eauto|]. split; [discriminate|].
    intros r Er' Hne'. rewrite Er in Er'. injection Er' as <-. auto.
  - rewrite (expandAssumeRole_bad tfMap E). cbn [snd fst].
    split; [|split].
    + split; [discriminate|]. intros (r & Er & Hne).
      rewrite (proj2 (nonEmptyString_some _ r) (conj Er Hne)) in E.
      discriminate.
    + reflexivity.
    + intros r Er Hne.
      rewrite (proj2 (nonEmptyString_some _ r) (conj Er Hne)) in E.
      discriminate.
Qed.

Lemma expandAssumeRoles_total tfList h :
  exists result diags evs,
    expandAssumeRoles ParseDuration tfList h = (Val (result, diags), evs) /\
    List.length result = List.length tfList /\
    (List.length evs <= List.length tfList)%nat /\
    count isCall evs = 0%nat.
Proof.
  destruct (split_valid tfList) as (good & tail & -> & Hg & Ht).
  rewrite (expandAssumeRoles_run good tail h Hg Ht).
  do 3 eexists. split; [reflexivity|].
  rewrite !length_app, length_map, !repeat_length.
  split; [reflexivity|]. split; [lia|].
  induction (List.length good) as [|n IH]; [reflexivity|exact IH].
Qed.

(** X18. [expandAssumeRoles] never panics and always returns as many roles
    as it was given elements, also when it stops early; it logs at most
    one line per element and calls no service. *)
Theorem expandAssumeRoles_length tfList h :
  exists result diags evs,
    expandAssumeRoles ParseDuration tfList h = (Val (result, diags), evs) /\
    List.length result = List.length tfList /\
    (List.length evs <= List.length tfList)%nat /\
    count isCall evs = 0%nat.
Proof. apply expandAssumeRoles_total. Qed.

(** X19. On a list of blocks that each hold a [role_arn] that is a
    non-empty string, [expandAssumeRoles] returns the roles of the blocks,
    in order, and no diagnostic, after one log line per block. *)
Theorem expandAssumeRoles_valid tfList h :
  Forall validBlock tfList ->
  expandAssumeRoles ParseDuration tfList h
  = (Val (map (roleOf ParseDuration) tfList, []),
     repeat (LogInfo "assume_role configuration set") (List.length tfList)).
Proof.
  intros Hg.
  pose proof (expandAssumeRoles_run tfList [] h Hg
                ltac:(discriminate)) as H.
  rewrite app_nil_r in H. rewrite H. cbn [List.length repeat].
  now rewrite app_nil_r.
Qed.

(** X20. [expandAssumeRoles] stops at the first element that is not a
    block with a usable [role_arn]: the roles before it are returned, the
    entries from it on are left at the zero value.  When that element is a
    map, the diagnostic is the error [role_arn]; when it is not a map (a
    nil element, say) no diagnostic is returned at all. *)
Theorem expandAssumeRoles_stops_at_first_bad good bad rest h :
  Forall validBlock good -> ~ validBlock bad ->
  let run := expandAssumeRoles ParseDuration (good ++ bad :: rest) h in
  fst run
  = Val (map (roleOf ParseDuration) good
           ++ repeat awsbase.zeroAssumeRole (S (List.length rest)),
         match bad with
         | AnyMap _ => diag.Errorf "role_arn"
         | _ => []
         end)
  /\ snd run
     = repeat (LogInfo "assume_role configuration set") (List.length good).
Proof.
  intros Hg Hb. cbv zeta.
  rewrite (expandAssumeRoles_run good (bad :: rest) h Hg
             ltac:(intros b r E; injection E as <- _; exact Hb)).
  cbn [fst snd List.length]. split; [|reflexivity].
  now destruct bad.
Qed.


(** The three clients of one configuration. *)
Lemma finishConfigure_eq d assumeRole h :
  finishConfigure loadDefaultConfig d assumeRole h =
  let withRole cfg :=
    match assumeRole with
    | [role] =>
        {| Region := Region cfg;
           Credentials :=
             Some {| ProviderRoleARN := awsbase.RoleARN role;
                     OptionsExternalID := Some (awsbase.ExternalID role);
                     OptionsRoleARN := awsbase.RoleARN role |} |}
    | _ => cfg
    end in
  let clients cfg :=
    Some {| ec2Client := withRole cfg; ssmClient := withRole cfg;
            s3Client := withRole cfg |} in
  if (1 <? Z.of_nat (List.length assumeRole)) then
    (Val (None, diag.Errorf "Only 1 assume_role is supported"), [])
  else
    match loadDefaultConfig h with
    | inl err => (Val (None, diag.FromErr err), [CallLoadDefaultConfig])
    | inr cfg =>
        match GetOk d "region" with
        | None => (Val (clients cfg, []), [CallLoadDefaultConfig])
        | Some (AnyString s) =>
            (Val (clients {| Region := s; Credentials := Credentials cfg |},
                  []),
             [CallLoadDefaultConfig;
              LogInfo "detected region configuration provided by user"])
        | Some _ =>
            (Panic,
             [CallLoadDefaultConfig;
              LogInfo "detected region configuration provided by user"])
        end
    end.
Proof.
  cbv zeta. unfold finishConfigure.
  destruct (1 <? Z.of_nat (List.length assumeRole)); [reflexivity|].
  rewrite bind_call. destruct (loadDefaultConfig h) as [err|cfg];
    [reflexivity|].
  destruct (GetOk d "region") as [[|s| | |]|]; reflexivity.
Qed.

Lemma configuredRoles_single_valid d ar roleARN h :
  GetOk d "assume_role" = Some (AnyList [AnyMap ar]) ->
  ar "role_arn" = Some (AnyString roleARN) -> roleARN <> "" ->
  configuredRoles ParseDuration d h
  = (Val (inr [fst (expandAssumeRole ParseDuration ar)]),
     [LogInfo "detected assume_role configuration provided by user";
      LogInfo "detected role_arn configuration provided by user";
      LogInfo "assume_role configuration set"]).
Proof.
  intros Hd Er Hne. unfold configuredRoles. rewrite Hd, Er.
  assert (isEmptyString (AnyString roleARN) = false) as ->
    by (cbn; now apply String.eqb_neq).
  unfold logInfo. rewrite !bind_emit.
  assert (Hv : Forall validBlock [AnyMap ar])
    by (constructor; [now exists ar, roleARN|constructor]).
  pose proof (expandAssumeRoles_run [AnyMap ar] [] 
                ((h ++ [LogInfo "detected assume_role configuration provided by user"])
                   ++ [LogInfo "detected role_arn configuration provided by user"])
                Hv ltac:(discriminate)) as Hrun.
  cbn [app map List.length repeat roleOf] in Hrun.
  rewrite (bind_val_eq _ _ _ _ _ Hrun). reflexivity.
Qed.

Lemma configuredRoles_single_invalid d ar s h :
  GetOk d "assume_role" = Some (AnyList [AnyMap ar]) ->
  ar "role_arn" = Some s -> nonEmptyString (Some s) = None ->
  exists diags evs,
    configuredRoles ParseDuration d h = (Val (inl diags), evs) /\
    diag.HasError diags = true /\ count isCall evs = 0%nat.
Proof.
  intros Hd Er Hbad. unfold configuredRoles. rewrite Hd, Er.
  unfold logInfo. rewrite bind_emit.
  destruct (isEmptyString s) eqn:Es.
  - do 2 eexists. split; [reflexivity|]. split; reflexivity.
  - rewrite bind_emit.
    assert (Hnv : forall bad rest, [AnyMap ar] = bad :: rest ->
                                   ~ validBlock bad).
    { intros bad rest E. injection E as <- _.
      intros (a & r & Ea & Era & Hne). injection Ea as <-.
      rewrite Er in Era. injection Era as ->.
      rewrite (proj2 (nonEmptyString_some _ r) (conj eq_refl Hne)) in Hbad.
      discriminate. }
    pose proof (expandAssumeRoles_run [] [AnyMap ar]
                  ((h ++ [LogInfo "detected assume_role configuration provided by user"])
                     ++ [LogInfo "detected role_arn configuration provided by user"])
                  (Forall_nil _) Hnv) as Hrun.
    cbn [app map List.length repeat] in Hrun.
    rewrite (bind_val_eq _ _ _ _ _ Hrun).
    do 2 eexists. split; [reflexivity|]. split; reflexivity.
Qed.

(** The outcomes of the first half of [configure]. *)
Lemma configuredRoles_cases d h :
  fst (configuredRoles ParseDuration d h) = Panic
  \/ (exists diags,
        fst (configuredRoles ParseDuration d h) = Val (inl diags) /\
        diag.HasError diags = true)
  \/ (exists roles,
        fst (configuredRoles ParseDuration d h) = Val (inr roles)).
Proof.
  unfold configuredRoles.
  destruct (GetOk d "assume_role") as [v0|];
    [|right; right; exists []; reflexivity].
  unfold logInfo. rewrite bind_emit. cbn [fst].
  destruct v0 as [| |v| |]; try (now left).
  assert (Hmany : forall tfList h',
    let m := (r <- expandAssumeRoles ParseDuration tfList ;;
              if diag.HasError (snd r) then ret (inl ([] ++ snd r))
              else ret (inr (fst r))) in
    (exists diags, fst (m h') = Val (inl diags)
                   /\ diag.HasError diags = true)
    \/ (exists roles, fst (m h') = Val (inr roles))).
  { intros tfList h'. cbv zeta.
    destruct (expandAssumeRoles_total tfList h')
      as (result & diags & evs & Hrun & _).
    rewrite (bind_val_eq _ _ _ _ _ Hrun). cbn [fst snd].
    destruct (diag.HasError diags) eqn:Hd.
    - left. exists diags. split; [reflexivity|exact Hd].
    - right. exists result. reflexivity. }
  destruct v as [|x [|y rest]]; [right; right; exists []; reflexivity| |].
  - destruct x as [| | |l|]; try (now left).
    + right; left. eexists. split; reflexivity.
    + destruct (l "role_arn") as [s|];
        [|right; left; eexists; split; reflexivity].
      destruct (isEmptyString s);
        [right; left; eexists; split; reflexivity|].
      rewrite bind_emit. cbn [fst]. right. apply Hmany.
  - right.
    destruct x; apply Hmany.
Qed.

(** X21. [configure] returns either clients or an error, never both and
    never neither: when it returns clients the diagnostics are nil, and
    when it returns no clients the diagnostics hold an error. *)
Theorem configure_clients_or_error d h clients diags evs :
  configure ParseDuration loadDefaultConfig d h
  = (Val (clients, diags), evs) ->
  match clients with
  | Some c =>
      diags = [] /\ ssmClient c = ec2Client c /\ s3Client c = ec2Client c
  | None => diag.HasError diags = true
  end.
Proof.
  unfold configure. rewrite bind_run.
  destruct (configuredRoles_cases d h)
    as [E|[(dg & E & Hdg)|(roles & E)]]; rewrite E; [discriminate| |].
  - cbn. intros H. injection H as <- <- _. exact Hdg.
  - rewrite finishConfigure_eq. cbv zeta.
    destruct (1 <? Z.of_nat (List.length roles)).
    + cbn. intros H. injection H as <- <- _. reflexivity.
    + destruct (loadDefaultConfig _) as [err|cfg].
      * cbn. intros H. injection H as <- <- _. reflexivity.
      * destruct (GetOk d "region") as [[|s| | |]|]; cbn;
          try discriminate; intros H; injection H as <- <- _; auto.
Qed.


(** X23. With exactly one [assume_role] block, [configure] returns clients
    only when the block is a map whose [role_arn] is a non-empty string.
    The credentials of the three clients then assume that role with the
    block's [external_id] (the empty string when it is absent, empty or
    not a string); no other field of the block reaches the clients. *)
Theorem configure_single_role d h x clients diags evs :
  GetOk d "assume_role" = Some (AnyList [x]) ->
  configure ParseDuration loadDefaultConfig d h
  = (Val (Some clients, diags), evs) ->
  exists ar roleARN,
    x = AnyMap ar /\ ar "role_arn" = Some (AnyString roleARN) /\
    roleARN <> "" /\
    Credentials (ec2Client clients)
    = Some {| ProviderRoleARN := roleARN;
              OptionsExternalID :=
                Some (match nonEmptyString (ar "external_id") with
                      | Some v => v
                      | None => ""
                      end);
              OptionsRoleARN := roleARN |} /\
    ssmClient clients = ec2Client clients /\
    s3Client clients = ec2Client clients.
Proof.
  intros Hd Hrun.
  destruct x as [| | |ar|].
  1-3,5: unfold configure, configuredRoles in Hrun; rewrite Hd in Hrun;
    unfold logInfo in Hrun; rewrite bind_run, bind_emit in Hrun;
    cbn in Hrun; discriminate.
  destruct (ar "role_arn") as [s|] eqn:Er.
  2:{ unfold configure, configuredRoles in Hrun. rewrite Hd, Er in Hrun.
      unfold logInfo in Hrun. rewrite bind_run, bind_emit in Hrun.
      cbn in Hrun. discriminate. }
  destruct (nonEmptyString (Some s)) as [roleARN|] eqn:Es.
  2:{ destruct (configuredRoles_single_invalid d ar s h Hd Er Es)
        as (dg & e & Hc & _).
      unfold configure in Hrun. rewrite (bind_val_eq _ _ _ _ _ Hc) in Hrun.
      cbn in Hrun. discriminate. }
  apply nonEmptyString_some in Es. destruct Es as [Es Hne].
  injection Es as ->.
  exists ar, roleARN. split; [reflexivity|]. split; [exact Er|].
  split; [exact Hne|].
  unfold configure in Hrun.
  rewrite (bind_val_eq _ _ _ _ _
             (configuredRoles_single_valid d ar roleARN h Hd Er Hne)) in Hrun.
  rewrite finishConfigure_eq in Hrun. cbv zeta in Hrun.
  cbn [List.length Z.of_nat Z.ltb Z.compare Pos.compare Pos.compare_cont]
    in Hrun.
  assert (Hrole : awsbase.RoleARN (fst (expandAssumeRole ParseDuration ar))
                  = roleARN /\
                  awsbase.ExternalID (fst (expandAssumeRole ParseDuration ar))
                  = match nonEmptyString (ar "external_id") with
                    | Some v => v
                    | None => ""
                    end).
  { unfold expandAssumeRole.
    rewrite (proj2 (nonEmptyString_some _ roleARN) (conj Er Hne)).
    split; reflexivity. }
  destruct Hrole as [Hr He].
  destruct (loadDefaultConfig _) as [err|cfg]; [discriminate|].
  destruct (GetOk d "region") as [[|s| | |]|]; cbn in Hrun;
    try discriminate; injection Hrun as <- _ _; cbn;
    rewrite Hr, He; auto.
Qed.

End ProviderFacts.

(** One valid block and a nil element: the second entry stays at the zero
    value and no diagnostic is returned. *)
Lemma expandAssumeRoles_stops_at_first_bad_witness :
  fst (expandAssumeRoles noDuration
         ([roleBlock deployRole "ext"] ++ AnyNil :: []) [])
  = Val (map (roleOf noDuration) [roleBlock deployRole "ext"]
           ++ repeat awsbase.zeroAssumeRole 1, [])
  /\ snd (expandAssumeRoles noDuration
            ([roleBlock deployRole "ext"] ++ AnyNil :: []) [])
     = repeat (LogInfo "assume_role configuration set") 1.
Proof.
  refine (expandAssumeRoles_stops_at_first_bad noDuration
            [roleBlock deployRole "ext"] AnyNil [] [] _ _).
  - constructor; [|constructor].
    eexists. exists deployRole.
    split; [reflexivity|]. split; [reflexivity|discriminate].
  - intros (ar & r & E & _). discriminate.
Defined.

Lemma expandAssumeRoles_valid_witness :
  expandAssumeRoles noDuration [roleBlock deployRole "ext"] []
  = (Val (map (roleOf noDuration) [roleBlock deployRole "ext"], []),
     repeat (LogInfo "assume_role configuration set") 1).
Proof.
  refine (expandAssumeRoles_valid noDuration
            [roleBlock deployRole "ext"] [] _).
  constructor; [|constructor].
  eexists. exists deployRole.
  split; [reflexivity|]. split; [reflexivity|discriminate].
Defined.

(** A configuration with one block and a region. *)
Lemma configure_single_role_witness :
  exists ar roleARN,
    roleBlock deployRole "ext" = AnyMap ar /\
    ar "role_arn" = Some (AnyString roleARN) /\
    roleARN <> "" /\
    Credentials (ec2Client oneRoleClients)
    = Some {| ProviderRoleARN := roleARN;
              OptionsExternalID :=
                Some (match nonEmptyString (ar "external_id") with
                      | Some v => v
                      | None => ""
                      end);
              OptionsRoleARN := roleARN |} /\
    ssmClient oneRoleClients = ec2Client oneRoleClients /\
    s3Client oneRoleClients = ec2Client oneRoleClients.
Proof.
  exact (configure_single_role noDuration defaultConfig oneRoleData []
           (roleBlock deployRole "ext") oneRoleClients []
           [LogInfo "detected assume_role configuration provided by user";
            LogInfo "detected role_arn configuration provided by user";
            LogInfo "assume_role configuration set";
            CallLoadDefaultConfig;
            LogInfo "detected region configuration provided by user"]
           eq_refl eq_refl).
Defined.

(** An empty block is refused with the error [role_arn]. *)
Lemma configure_clients_or_error_witness :
  diag.HasError (diag.Errorf "role_arn") = true.
Proof.
  exact (configure_clients_or_error noDuration defaultConfig
           emptyBlockData [] None (diag.Errorf "role_arn")
           [LogInfo "detected assume_role configuration provided by user"]
           eq_refl).
Defined.


Example configure_two_roles :
  configure noDuration defaultConfig twoRolesData []
  = (Val (None, diag.Errorf "Only 1 assume_role is supported"),
     [LogInfo "detected assume_role configuration provided by user";
      LogInfo "assume_role configuration set";
      LogInfo "assume_role configuration set"]).
Proof. vm_compute. reflexivity. Qed.

Example configure_one_role :
  fst (configure noDuration defaultConfig oneRoleData [])
  = Val (Some oneRoleClients, []).
Proof. vm_compute. reflexivity. Qed.
